(** * pdf4py lexer: a shallow embedding of [pdfpy/_lexer.py] and [pdfpy/_charset.py]

    The development follows the Python sources function by function.
    Bytes are integers (iterating or indexing a Python [bytes] object
    yields [int]s, and the lexer compares and shifts them as such), a byte
    buffer is a [list Z], and the mutable [Seekable] and [Lexer] objects
    become records threaded through a state-and-exception monad in which
    a raised exception keeps the mutations done so far, as in Python. *)

From Stdlib Require Import String Ascii ZArith List Bool Lia.
Import ListNotations.
Local Open Scope Z_scope.

(** ** Python sequences *)

Module Py.

(** Normalisation of a slice bound against a sequence of length [n]. *)
Definition slice_bound (n i : Z) : Z :=
  if i <? 0 then Z.max (i + n) 0 else Z.min i n.

(** [l[a:b]] *)
Definition slice {A} (l : list A) (a b : Z) : list A :=
  let n := Z.of_nat (length l) in
  let a' := slice_bound n a in
  let b' := slice_bound n b in
  firstn (Z.to_nat (b' - a')) (skipn (Z.to_nat a') l).

(** [l[i]]; [None] stands for [IndexError]. *)
Definition getitem {A} (l : list A) (i : Z) : option A :=
  let n := Z.of_nat (length l) in
  let j := if i <? 0 then i + n else i in
  if (0 <=? j) && (j <? n) then nth_error l (Z.to_nat j) else None.

(** [len(l)] *)
Definition len {A} (l : list A) : Z := Z.of_nat (length l).

(** [l.count(x)] on a sequence of integers. *)
Definition count (l : list Z) (x : Z) : Z :=
  Z.of_nat (length (filter (Z.eqb x) l)).

(** [x in l] on a sequence of integers. *)
Definition mem (x : Z) (l : list Z) : bool := existsb (Z.eqb x) l.

(** The bytes of an ASCII string literal, [b"..."]. *)
Fixpoint b (s : string) : list Z :=
  match s with
  | EmptyString => []
  | String c s' => Z.of_N (N_of_ascii c) :: b s'
  end.

End Py.

(** ** [_charset.py] *)

Module Charset.

Definition LINE_FEED : Z := 10.
Definition HORIZONTAL_TAB : Z := 9.
Definition FORM_FEED : Z := 12.
Definition BACKSPACE : Z := 8.
Definition CARRIAGE_RETURN : Z := 13.
Definition OPEN_PARENTHESIS : Z := 40.
Definition CLOSE_PARENTHESIS : Z := 41.
Definition OPEN_ANGLE_BRACKET : Z := 60.
Definition CLOSE_ANGLE_BRACKET : Z := 62.
Definition OPEN_SQUARE_BRACKET : Z := 91.
Definition CLOSE_SQUARE_BRACKET : Z := 93.
Definition FORWARD_SLASH : Z := 47.
Definition BACK_SLASH : Z := 92.
Definition OPEN_CURLY_BRACKET : Z := 123.
Definition CLOSE_CURLY_BRAKET : Z := 125.
Definition PERCENTAGE : Z := 37.
Definition POINT : Z := 46.
Definition PLUS : Z := 43.
Definition MINUS : Z := 45.
Definition KEYWORD_REFERENCE : Z := 82.
Definition FREE_ENTRY_KEYWORD : Z := 102.
Definition INUSE_ENTRY_KEYWORD : Z := 110.
Definition CHARACTER_X : Z := 120.
Definition NUMBER_SIGN : Z := 35.

Definition SINGLETONS : list Z :=
  [OPEN_CURLY_BRACKET; CLOSE_CURLY_BRAKET; OPEN_SQUARE_BRACKET;
   CLOSE_SQUARE_BRACKET; INUSE_ENTRY_KEYWORD; FREE_ENTRY_KEYWORD;
   KEYWORD_REFERENCE].

Definition KEYWORDS : list (list Z) :=
  [Py.b "<<"; Py.b ">>"; Py.b "endobj"; Py.b "obj"; Py.b "trailer";
   Py.b "xref"; Py.b "null"; Py.b "startxref"; Py.b "endstream"].

Definition is_digit (x : Z) : bool := (48 <=? x) && (x <? 58).

Definition is_hex_digit (x : Z) : bool :=
  ((48 <=? x) && (x <? 58)) || ((65 <=? x) && (x <? 71))
  || ((97 <=? x) && (x <? 103)).

(** [None] stands for the [ValueError] raised on a non-hexadecimal byte. *)
Definition hex_to_number (x : Z) : option Z :=
  if (48 <=? x) && (x <? 58) then Some (x - 48)
  else if (65 <=? x) && (x <? 71) then Some (x - 55)
  else if (97 <=? x) && (x <? 103) then Some (x - 87)
  else None.

(** [STRING_ESCAPE_SEQUENCES.get(c, c)] *)
Definition STRING_ESCAPE_SEQUENCES_get (c : Z) : Z :=
  if c =? 110 then LINE_FEED
  else if c =? 114 then CARRIAGE_RETURN
  else if c =? 98 then BACKSPACE
  else if c =? 116 then HORIZONTAL_TAB
  else if c =? 102 then FORM_FEED
  else c.

(** [STRING_ESCAPE_SEQUENCES.values()] *)
Definition STRING_ESCAPE_SEQUENCES_values : list Z :=
  [LINE_FEED; CARRIAGE_RETURN; BACKSPACE; HORIZONTAL_TAB; FORM_FEED].

Definition BLANKS : list Z := [0; 9; 10; 12; 13; 32].

End Charset.

Import Charset.

(** ** Exceptions and outcomes *)

(** The four messages handed to [__raise_lexer_error]. *)
Inductive LexMsg : Type :=
| ExpectedCloseAngle               (* "Expected '>' to end hexadecimal string." *)
| NotHexDigit (c : Z)              (* "'{}' is not an hexadecimal digit." *)
| CRNotFollowedByLF                (* "Carriage return not followed by a line feed ..." *)
| InvalidCharacters.               (* "Invalid characters sequence in input stream." *)

Inductive exn : Type :=
| StopIteration
| IndexError
| ValueError
| UnicodeDecodeError
| UnboundLocalError
| NoMoveInHistory                  (* Exception("No move in history") *)
| PDFLexicalError (msg : LexMsg) (errorPosition : Z)
                  (context : list Z) (relativeErrorPosition : Z).

(** [Diverge] is not a Python outcome: it marks a loop that used up the
    iteration budget given to the model. *)
Inductive outcome (A : Type) : Type :=
| Ok (a : A)
| Raise (e : exn)
| Diverge.
Arguments Ok {A} a.
Arguments Raise {A} e.
Arguments Diverge {A}.

(** ** [class Seekable] *)

Module Seekable.

Record t : Type := mk {
  source : list Z;     (* self.__source *)
  pos : Z;             (* self.__pos *)
  len : Z              (* self.__len *)
}.

(** [Seekable(obj)] for [obj] a [bytes] or [bytearray]. *)
Definition init (obj : list Z) : t :=
  {| source := obj; pos := 0; len := Py.len obj |}.

Definition set_pos (s : t) (p : Z) : t :=
  {| source := source s; pos := p; len := len s |}.

(** [read(self, n = 0)] *)
Definition read (n : Z) (s : t) : outcome (list Z) * t :=
  if pos s =? len s then (Ok [], s)
  else if n =? 1 then
    match Py.getitem (source s) (pos s) with
    | Some v => (Ok [v], set_pos s (pos s + 1))
    | None => (Raise IndexError, s)
    end
  else
    let n := if n <=? 0 then len s else n in
    let val := Py.slice (source s) (pos s) (pos s + n) in
    let n := Py.len val in
    (Ok val, set_pos s (pos s + n)).

(** [seek(self, off, whence)] *)
Definition seek (off whence : Z) (s : t) : t :=
  let p := if whence =? 0 then off
           else if whence =? 1 then pos s + off
           else len s + off in
  let p := if p <? 0 then 0 else p in
  let p := if p >? len s then len s else p in
  set_pos s p.

(** [tell(self)] *)
Definition tell (s : t) : Z := pos s.

(** The class invariant. *)
Definition wf (s : t) : Prop :=
  len s = Py.len (source s) /\ 0 <= pos s <= len s.

(** A cursor operation, the value it returns, and a run of operations. *)
Inductive op : Type :=
| Read (n : Z)
| Seek (off whence : Z)
| Tell.

Inductive ret : Type :=
| RBytes (r : outcome (list Z))
| RNone
| RInt (z : Z).

Definition step (o : op) (s : t) : ret * t :=
  match o with
  | Read n => let '(r, s') := read n s in (RBytes r, s')
  | Seek off whence => (RNone, seek off whence s)
  | Tell => (RInt (tell s), s)
  end.

(** The trace of a run: for every operation, the state before, the
    operation, its return value and the state after. *)
Fixpoint run (ops : list op) (s : t) : list (t * op * ret * t) :=
  match ops with
  | [] => []
  | o :: ops' => let '(r, s') := step o s in (s, o, r, s') :: run ops' s'
  end.

(** What the cursor contract says of one step. *)
Definition step_ok (e : t * op * ret * t) : Prop :=
  let '(s, o, r, s') := e in
  wf s' /\ source s' = source s /\
  match o, r with
  | Read n, RBytes (Ok val) =>
      pos s' = pos s + Py.len val /\
      val = Py.slice (source s) (pos s)
              (pos s + (if n <=? 0 then len s else n))
  | Seek off whence, RNone =>
      let target := if whence =? 0 then off
                    else if whence =? 1 then pos s + off
                    else len s + off in
      pos s' = Z.max 0 (Z.min target (len s))
  | Tell, RInt z => z = pos s /\ 0 <= z <= len s /\ s' = s
  | _, _ => False
  end.

End Seekable.

(** ** Python codecs used by the lexer

    [bytes.decode] with the [ascii], [utf-8] and [cp1252] codecs (error
    mode [strict]).  A [str] is the list of its code points; [None]
    stands for [UnicodeDecodeError]. *)

Module Codecs.

Definition in_range (lo hi x : Z) : bool := (lo <=? x) && (x <=? hi).

(** [ascii]: every byte must be below 128. *)
Fixpoint ascii_decode (l : list Z) : option (list Z) :=
  match l with
  | [] => Some []
  | x :: r =>
      if in_range 0 127 x then option_map (cons x) (ascii_decode r) else None
  end.

(** [utf-8]: well-formed sequences only (no overlong forms, no surrogates,
    nothing above U+10FFFF). *)
Fixpoint utf8_decode (l : list Z) : option (list Z) :=
  match l with
  | [] => Some []
  | b0 :: r0 =>
      if in_range 0 127 b0 then option_map (cons b0) (utf8_decode r0)
      else if in_range 194 223 b0 then
        match r0 with
        | b1 :: r1 =>
            if in_range 128 191 b1
            then option_map (cons ((b0 - 192) * 64 + (b1 - 128)))
                            (utf8_decode r1)
            else None
        | _ => None
        end
      else if in_range 224 239 b0 then
        match r0 with
        | b1 :: b2 :: r2 =>
            let lo := if b0 =? 224 then 160 else 128 in
            let hi := if b0 =? 237 then 159 else 191 in
            if in_range lo hi b1 && in_range 128 191 b2
            then option_map
                   (cons ((b0 - 224) * 4096 + (b1 - 128) * 64 + (b2 - 128)))
                   (utf8_decode r2)
            else None
        | _ => None
        end
      else if in_range 240 244 b0 then
        match r0 with
        | b1 :: b2 :: b3 :: r3 =>
            let lo := if b0 =? 240 then 144 else 128 in
            let hi := if b0 =? 244 then 143 else 191 in
            if in_range lo hi b1 && in_range 128 191 b2 && in_range 128 191 b3
            then option_map
                   (cons ((b0 - 240) * 262144 + (b1 - 128) * 4096
                          + (b2 - 128) * 64 + (b3 - 128)))
                   (utf8_decode r3)
            else None
        | _ => None
        end
      else None
  end.

(** The rows 0x80..0x9F of the [cp1252] decoding table; the five bytes
    0x81, 0x8D, 0x8F, 0x90 and 0x9D are unmapped. *)
Definition cp1252_high : list (option Z) :=
  [Some 8364; None;      Some 8218; Some 402;  Some 8222; Some 8230;
   Some 8224; Some 8225; Some 710;  Some 8240; Some 352;  Some 8249;
   Some 338;  None;      Some 381;  None;      None;      Some 8216;
   Some 8217; Some 8220; Some 8221; Some 8226; Some 8211; Some 8212;
   Some 732;  Some 8482; Some 353;  Some 8250; Some 339;  None;
   Some 382;  Some 376].

Definition cp1252_char (x : Z) : option Z :=
  if in_range 0 127 x || in_range 160 255 x then Some x
  else if in_range 128 159 x
       then nth (Z.to_nat (x - 128)) cp1252_high None
       else None.

Fixpoint cp1252_decode (l : list Z) : option (list Z) :=
  match l with
  | [] => Some []
  | x :: r =>
      match cp1252_char x with
      | Some c => option_map (cons c) (cp1252_decode r)
      | None => None
      end
  end.

(** [int(text)] for [text] an optional sign followed by decimal digits;
    [None] stands for [ValueError] (no digit at all). *)
Definition digits_value (ds : list Z) : Z :=
  fold_left (fun acc d => acc * 10 + (d - 48)) ds 0.

Definition int_of_text (text : list Z) : option Z :=
  let '(neg, ds) :=
    match text with
    | s :: r => if s =? PLUS then (false, r)
                else if s =? MINUS then (true, r)
                else (false, text)
    | [] => (false, [])
    end in
  match ds with
  | [] => None
  | _ => if forallb is_digit ds
         then Some (if neg then - digits_value ds else digits_value ds)
         else None
  end.

(** [float(text)] succeeds exactly when [text] (sign, digits, point,
    digits) holds at least one digit. *)
Definition float_text_ok (text : list Z) : bool := existsb is_digit text.

End Codecs.

(** ** Lexemes *)

(** The values [__next__] returns.  A [float] is kept as the text it was
    read from, the closure [read_stream] as the [streamPos] it captured
    (its other free variable is the lexer itself), and a [str] as its
    code points. *)
Inductive Lexeme : Type :=
| PyNone
| PyStr (s : list Z)
| PyInt (z : Z)
| PyFloat (text : list Z)
| PyBool (b : bool)
| ReadStream (streamPos : Z)
| PDFName (value : list Z)
| PDFKeyword (value : list Z)
| PDFHexString (value : list Z)
| PDFSingleton (value : Z).

(** ** [class Lexer] *)

Module Lexer.

(** The two Python lists [__lexemesBuffer] and [__movesHistory] are only
    ever used as stacks ([append], [pop]); the top of the stack is the
    head of the list here. *)
Record t : Type := mk {
  source : Seekable.t;
  length : Z;
  current : Z;
  lexemesBuffer : list Lexeme;
  movesHistory : list (Lexeme * Z);
  contextSize : Z;
  ended : bool;
  currentLexeme : Lexeme
}.

Definition M (A : Type) : Type := t -> outcome A * t.

Definition ret {A} (a : A) : M A := fun st => (Ok a, st).

Definition bind {A B} (m : M A) (f : A -> M B) : M B :=
  fun st =>
    match m st with
    | (Ok a, st') => f a st'
    | (Raise e, st') => (Raise e, st')
    | (Diverge, st') => (Diverge, st')
    end.

Definition raise {A} (e : exn) : M A := fun st => (Raise e, st).
Definition diverge {A} : M A := fun st => (Diverge, st).
Definition gets {A} (f : t -> A) : M A := fun st => (Ok (f st), st).
Definition modify (f : t -> t) : M unit := fun st => (Ok tt, f st).

Declare Scope lexer_scope.
Delimit Scope lexer_scope with lexer.
Notation "x <- m ;; k" := (bind m (fun x => k))
  (at level 61, m at next level, right associativity) : lexer_scope.
Notation "m ;; k" := (bind m (fun _ => k))
  (at level 61, right associativity) : lexer_scope.
Local Open Scope lexer_scope.

Definition set_source (s : Seekable.t) (st : t) : t :=
  mk s (length st) (current st) (lexemesBuffer st) (movesHistory st)
     (contextSize st) (ended st) (currentLexeme st).
Definition set_current (c : Z) (st : t) : t :=
  mk (source st) (length st) c (lexemesBuffer st) (movesHistory st)
     (contextSize st) (ended st) (currentLexeme st).
Definition set_lexemesBuffer (b : list Lexeme) (st : t) : t :=
  mk (source st) (length st) (current st) b (movesHistory st)
     (contextSize st) (ended st) (currentLexeme st).
Definition set_movesHistory (h : list (Lexeme * Z)) (st : t) : t :=
  mk (source st) (length st) (current st) (lexemesBuffer st) h
     (contextSize st) (ended st) (currentLexeme st).
Definition set_ended (e : bool) (st : t) : t :=
  mk (source st) (length st) (current st) (lexemesBuffer st) (movesHistory st)
     (contextSize st) e (currentLexeme st).
Definition set_currentLexeme (l : Lexeme) (st : t) : t :=
  mk (source st) (length st) (current st) (lexemesBuffer st) (movesHistory st)
     (contextSize st) (ended st) l.

(** Calls on [self.__source]. *)
Definition source_read (n : Z) : M (list Z) :=
  fun st => let '(r, s') := Seekable.read n (source st) in (r, set_source s' st).
Definition source_seek (off whence : Z) : M unit :=
  modify (fun st => set_source (Seekable.seek off whence (source st)) st).
Definition source_tell : M Z := gets (fun st => Seekable.tell (source st)).

(** [v[i]] and [bytearray.append(x)], with the exceptions they raise. *)
Definition getitem (v : list Z) (i : Z) : M Z :=
  match Py.getitem v i with
  | Some x => ret x
  | None => raise IndexError
  end.
Definition append (buffer : list Z) (x : Z) : M (list Z) :=
  if (0 <=? x) && (x <? 256) then ret (buffer ++ [x]) else raise ValueError.

(** [Lexer(source, contextSize = 200)] for [source] a [bytes] object.  An
    exception raised by the constructor leaves no object behind. *)
Definition init (obj : list Z) (contextSize : Z) : outcome t :=
  let s := Seekable.init obj in
  let cpos := Seekable.tell s in
  let s := Seekable.seek 0 2 s in
  let length := Seekable.tell s in
  let s := Seekable.seek cpos 0 s in
  match Seekable.read 1 s with
  | (Ok v, s) =>
      match Py.getitem v 0 with
      | Some c => Ok (mk s length c [] [] contextSize false PyNone)
      | None => Raise IndexError
      end
  | (Raise e, _) => Raise e
  | (Diverge, _) => Diverge
  end.

(** The property [current_lexeme]. *)
Definition current_lexeme : M Lexeme :=
  e <- gets ended ;;
  if e then raise StopIteration else gets currentLexeme.

(** [get_context(self)] *)
Definition get_context : M (list Z * Z * Z) :=
  errorPosition <- source_tell ;;
  size <- gets contextSize ;;
  let contextSideSize := size / 2 in
  let contextStart := errorPosition - contextSideSize in
  let '(contextSideSize, contextStart) :=
    if contextStart <? 0 then (contextSideSize + contextStart, 0)
    else (contextSideSize, contextStart) in
  source_seek contextStart 0 ;;
  context <- source_read size ;;
  let escapedOccurrences :=
    fold_right Z.add 0
      (map (Py.count (Py.slice context 0 contextSideSize))
           STRING_ESCAPE_SEQUENCES_values) in
  let errorRelativePosition := contextSideSize + escapedOccurrences + 1 in
  source_seek errorPosition 0 ;;
  ret (context, errorPosition, errorRelativePosition).

(** [__raise_lexer_error(self, msg)] *)
Definition raise_lexer_error (msg : LexMsg) : M unit :=
  ctx <- get_context ;;
  let '(context, errorPosition, relativeErrorPosition) := ctx in
  raise (PDFLexicalError msg errorPosition context relativeErrorPosition).

(** [__advance(self)] *)
Definition advance : M unit :=
  e <- gets ended ;;
  if e then raise StopIteration
  else
    v <- source_read 1 ;;
    match v with
    | [] => modify (set_current 32) ;; modify (set_ended true)
    | c :: _ => modify (set_current c)
    end.

(** [__read_chunk(self, size)] *)
Definition read_chunk (size : Z) : M (option (list Z)) :=
  e <- gets ended ;;
  if e then raise StopIteration
  else
    p <- source_tell ;;
    let endPos := p + size in
    len <- gets length ;;
    if endPos <=? len then data <- source_read size ;; ret (Some data)
    else ret None.

(** [__remove_blanks(self)]: the inner comment loop, then the outer loop. *)
Fixpoint skip_comment (fuel : nat) : M unit :=
  match fuel with
  | O => diverge
  | S fuel' =>
      c <- gets current ;;
      if negb (c =? LINE_FEED) then advance ;; skip_comment fuel'
      else ret tt
  end.

Fixpoint remove_blanks (fuel : nat) : M unit :=
  match fuel with
  | O => diverge
  | S fuel' =>
      c <- gets current ;;
      if Py.mem c BLANKS then advance ;; remove_blanks fuel'
      else if c =? PERCENTAGE then
        skip_comment fuel ;; advance ;; remove_blanks fuel'
      else ret tt
  end.

(** [__peek(self, k = 1)]; [None] is Python's [None]. *)
Definition peek (k : Z) : M (option Z) :=
  let k := k - 1 in
  currentPos <- source_tell ;;
  len <- gets length ;;
  if currentPos + k >=? len then ret None
  else
    source_seek k 1 ;;
    v <- source_read 1 ;;
    source_seek currentPos 0 ;;
    x <- getitem v 0 ;;
    ret (Some x).

(** [__parse_string_literal(self)]: the octal-digit loop, the character
    code of the digits read, the main loop, and the function itself. *)
Fixpoint octal_digits (fuel : nat) (digits : list Z) : M (list Z) :=
  match fuel with
  | O => diverge
  | S fuel' =>
      c <- gets current ;;
      if is_digit c && (Py.len digits <? 3) then
        digits <- append digits c ;;
        advance ;;
        octal_digits fuel' digits
      else ret digits
  end.

(** [sum(int(x) << 3*(len(digits) - i - 1) for i, x in enumerate(digits))] *)
Fixpoint charCode_from (n i : Z) (digits : list Z) : Z :=
  match digits with
  | [] => 0
  | x :: r => Z.shiftl (x - 48) (3 * (n - i - 1)) + charCode_from n (i + 1) r
  end.
Definition charCode (digits : list Z) : Z :=
  charCode_from (Py.len digits) 0 digits.

Fixpoint string_loop (fuel : nat) (openParentheses : Z) (buffer : list Z)
  : M (list Z) :=
  match fuel with
  | O => diverge
  | S fuel' =>
      if openParentheses >? 0 then
        c <- gets current ;;
        let append_current openParentheses :=
          buffer <- append buffer c ;;
          advance ;;
          string_loop fuel' openParentheses buffer in
        if c =? OPEN_PARENTHESIS then append_current (openParentheses + 1)
        else if c =? CLOSE_PARENTHESIS then append_current (openParentheses - 1)
        else if c =? BACK_SLASH then
          advance ;;
          c <- gets current ;;
          if negb (is_digit c) then
            buffer <- append buffer (STRING_ESCAPE_SEQUENCES_get c) ;;
            advance ;;
            string_loop fuel' openParentheses buffer
          else
            digits <- octal_digits fuel [] ;;
            buffer <- append buffer (charCode digits) ;;
            string_loop fuel' openParentheses buffer
        else append_current openParentheses
      else ret buffer
  end.

(** [buffer.decode('utf-8')], and [buffer.decode('cp1252')] when that
    raises [UnicodeDecodeError]. *)
Definition decode_string (buffer : list Z) : M Lexeme :=
  match Codecs.utf8_decode buffer with
  | Some s => ret (PyStr s)
  | None =>
      match Codecs.cp1252_decode buffer with
      | Some s => ret (PyStr s)
      | None => raise UnicodeDecodeError
      end
  end.

Definition parse_string_literal (fuel : nat) : M Lexeme :=
  advance ;;
  buffer <- string_loop fuel 1 [] ;;
  match rev buffer with
  | [] => raise IndexError                      (* pop from empty bytearray *)
  | _ :: r => decode_string (rev r)             (* buffer.pop() *)
  end.

(** [__parse_hexadecimal_string(self)] *)
Fixpoint hex_loop (fuel : nat) (buffer : list Z) : M (list Z) :=
  match fuel with
  | O => diverge
  | S fuel' =>
      c <- gets current ;;
      if Py.mem c BLANKS then advance ;; hex_loop fuel' buffer
      else if negb (is_hex_digit c) then ret buffer
      else
        buffer <- append buffer c ;;
        advance ;;
        hex_loop fuel' buffer
  end.

Definition parse_hexadecimal_string (fuel : nat) : M Lexeme :=
  advance ;;
  buffer <- hex_loop fuel [] ;;
  c <- gets current ;;
  (if negb (c =? CLOSE_ANGLE_BRACKET)
   then raise_lexer_error ExpectedCloseAngle else ret tt) ;;
  advance ;;
  ret (PDFHexString buffer).

(** [__parse_name(self)] *)
Fixpoint name_loop (fuel : nat) (buffer : list Z) : M (list Z) :=
  match fuel with
  | O => diverge
  | S fuel' =>
      c <- gets current ;;
      if (33 <=? c) && (c <=? 126) then
        buffer <-
          (if c =? NUMBER_SIGN then
             advance ;;
             c1 <- gets current ;;
             match hex_to_number c1 with
             | None => raise_lexer_error (NotHexDigit c1) ;; ret buffer
             | Some hexDigit1 =>
                 advance ;;
                 c2 <- gets current ;;
                 match hex_to_number c2 with
                 | None => raise_lexer_error (NotHexDigit c2) ;; ret buffer
                 | Some hexDigit2 =>
                     append buffer (Z.shiftl hexDigit1 4 + hexDigit2)
                 end
             end
           else append buffer c) ;;
        advance ;;
        name_loop fuel' buffer
      else ret buffer
  end.

Definition parse_name (fuel : nat) : M Lexeme :=
  advance ;;
  buffer <- name_loop fuel [] ;;
  match Codecs.ascii_decode buffer with
  | Some s => ret (PDFName s)
  | None => raise UnicodeDecodeError
  end.

(** [__parse_number(self)] *)
Fixpoint digits_loop (fuel : nat) (buff : list Z) : M (list Z) :=
  match fuel with
  | O => diverge
  | S fuel' =>
      c <- gets current ;;
      if is_digit c then
        buff <- append buff c ;;
        advance ;;
        digits_loop fuel' buff
      else ret buff
  end.

Definition parse_number (fuel : nat) : M Lexeme :=
  c <- gets current ;;
  buff <-
    (if (c =? PLUS) || (c =? MINUS)
     then buff <- append [] c ;; advance ;; ret buff
     else ret []) ;;
  buff <- digits_loop fuel buff ;;
  c <- gets current ;;
  if c =? POINT then
    buff <- append buff POINT ;;
    advance ;;
    buff <- digits_loop fuel buff ;;
    if Codecs.float_text_ok buff then ret (PyFloat buff) else raise ValueError
  else
    match Codecs.int_of_text buff with
    | Some z => ret (PyInt z)
    | None => raise ValueError
    end.

(** [__parse_literal(self, lit)]: the comparison loop returns [diff]. *)
Fixpoint literal_differs (i : Z) (lit : list Z) : M bool :=
  match lit with
  | [] => ret false
  | l :: lit' =>
      p <- peek i ;;
      match p with
      | Some x => if x =? l then literal_differs (i + 1) lit' else ret true
      | None => ret true
      end
  end.

Fixpoint advance_times (n : nat) : M unit :=
  match n with
  | O => ret tt
  | S n' => advance ;; advance_times n'
  end.

Definition parse_literal (lit : list Z) : M bool :=
  diff <- literal_differs 0 lit ;;
  if negb diff then advance_times (List.length lit) ;; ret true
  else ret false.

(** [__match_keyword(self)], called with [KEYWORDS]. *)
Fixpoint match_keyword_in (keywords : list (list Z)) : M bool :=
  match keywords with
  | [] => ret false
  | k :: keywords' =>
      matched <- parse_literal k ;;
      if matched then modify (set_currentLexeme (PDFKeyword k)) ;; ret true
      else match_keyword_in keywords'
  end.
Definition match_keyword : M bool := match_keyword_in KEYWORDS.

(** [put_back(self, current, lexeme)] *)
Definition put_back (current lexeme : Lexeme) : M unit :=
  modify (fun st => set_lexemesBuffer (lexeme :: lexemesBuffer st) st) ;;
  modify (set_currentLexeme current).

(** The closure [read_stream(length)] built by [__next__], with its free
    variable [streamPos] as a parameter. *)
Definition read_stream (streamPos : Z) (length : Z) : M (list Z) :=
  oldPos <- source_tell ;;
  source_seek streamPos 0 ;;
  data <- source_read length ;;
  advance ;;
  c <- gets current ;;
  (if c =? LINE_FEED then advance else ret tt) ;;
  source_seek oldPos 0 ;;
  ret data.

(** [__next__(self)] *)
Definition next (fuel : nat) : M Lexeme :=
  buffered <- gets lexemesBuffer ;;
  match buffered with
  | lexeme :: rest =>
      modify (set_lexemesBuffer rest) ;;
      modify (set_currentLexeme lexeme) ;;
      gets currentLexeme
  | [] =>
      remove_blanks fuel ;;
      c <- gets current ;;
      let set lexeme := modify (set_currentLexeme lexeme) in
      (if c =? OPEN_PARENTHESIS then
         lexeme <- parse_string_literal fuel ;; set lexeme
       else
         is_hex <- (if c =? OPEN_ANGLE_BRACKET then
                      p <- peek 1 ;;
                      ret (match p with
                           | Some x => negb (x =? OPEN_ANGLE_BRACKET)
                           | None => true
                           end)
                    else ret false) ;;
         if is_hex then
           lexeme <- parse_hexadecimal_string fuel ;; set lexeme
         else if c =? FORWARD_SLASH then
           lexeme <- parse_name fuel ;; set lexeme
         else if is_digit c || Py.mem c [PLUS; MINUS; POINT] then
           lexeme <- parse_number fuel ;; set lexeme
         else
           is_true <- parse_literal (Py.b "true") ;;
           if is_true then set (PyBool true)
           else
             is_false <- parse_literal (Py.b "false") ;;
             if is_false then set (PyBool false)
             else
               is_stream <- parse_literal (Py.b "stream") ;;
               if is_stream then
                 c <- gets current ;;
                 (if c =? CARRIAGE_RETURN then
                    advance ;;
                    c <- gets current ;;
                    if negb (c =? LINE_FEED)
                    then raise_lexer_error CRNotFollowedByLF
                    else ret tt
                  else ret tt) ;;
                 streamPos <- source_tell ;;
                 set (ReadStream streamPos)
               else
                 is_keyword <- match_keyword ;;
                 if is_keyword then ret tt
                 else
                   c <- gets current ;;
                   if Py.mem c SINGLETONS then
                     set (PDFSingleton c) ;; advance
                   else raise_lexer_error InvalidCharacters) ;;
      gets currentLexeme
  end.

(** [seekable_rfind(self, keyword)].  The local [c] is unbound until the
    first read; [None] stands for that. *)
Fixpoint rfind_line (fuel : nat) (buff : list Z) (count : Z)
  (c : option (list Z)) : M (list Z * Z * option (list Z)) :=
  match fuel with
  | O => diverge
  | S fuel' =>
      len <- gets length ;;
      if count <=? len then
        source_seek (len - count) 0 ;;
        c <- source_read 1 ;;
        let count := count + 1 in
        c0 <- getitem c 0 ;;
        if negb (Py.mem c0 [CARRIAGE_RETURN; LINE_FEED])
        then rfind_line fuel' (buff ++ c) count (Some c)
        else ret (buff, count, Some c)
      else ret (buff, count, c)
  end.

(** The outer loop: [Some r] when the loop is left by [return r], [None]
    when its condition becomes false. *)
Fixpoint rfind_loop (fuel : nat) (revKeyword buff : list Z) (count : Z)
  (c : option (list Z)) : M (option Z) :=
  match fuel with
  | O => diverge
  | S fuel' =>
      if negb (if list_eq_dec Z.eq_dec buff revKeyword then true else false)
      then
        r <- rfind_line fuel [] count c ;;
        let '(buff, count, c) := r in
        len <- gets length ;;
        not_found <-
          (if count >? len then
             match c with
             | Some c =>
                 c0 <- getitem c 0 ;;
                 ret (negb (Py.mem c0 [CARRIAGE_RETURN; LINE_FEED]))
             | None => raise UnboundLocalError
             end
           else ret false) ;;
        if not_found then ret (Some (-1))
        else rfind_loop fuel' revKeyword buff count c
      else ret None
  end.

Definition seekable_rfind (fuel : nat) (keyword : list Z) : M Z :=
  let revKeyword := rev keyword in
  r <- rfind_loop fuel revKeyword [] 1 None ;;
  match r with
  | Some r => ret r
  | None =>
      pos <- source_tell ;;
      advance ;;
      next fuel ;;
      ret pos
  end.

(** [move_at_position(self, pos)] *)
Definition move_at_position (fuel : nat) (pos : Z) : M Lexeme :=
  previousLexeme <- current_lexeme ;;
  previousPosition <- source_tell ;;
  modify (fun st =>
    set_movesHistory ((previousLexeme, previousPosition) :: movesHistory st) st) ;;
  source_seek pos 0 ;;
  advance ;;
  next fuel.

(** [move_back(self)] *)
Definition move_back : M unit :=
  history <- gets movesHistory ;;
  match history with
  | [] => raise NoMoveInHistory
  | (prevLex, prevPos) :: rest =>
      modify (set_movesHistory rest) ;;
      modify (set_currentLexeme prevLex) ;;
      source_seek (prevPos - 1) 0 ;;
      advance
  end.

(** Running a constructor call followed by a method call. *)
Definition on (o : outcome t) {A} (m : M A) : outcome A * option t :=
  match o with
  | Ok st => let '(r, st') := m st in (r, Some st')
  | Raise e => (Raise e, None)
  | Diverge => (Diverge, None)
  end.

End Lexer.

(** ** Lexer states, invariants and specification-side notions *)

(** The lexer state over the buffer [src] whose cursor is at [p], with
    lookahead [c], end flag [e], push-back stack [lb], history [mh],
    context size [cs] and current lexeme [cl]. *)
Abbreviation state src p c e lb mh cs cl :=
  (Lexer.mk (Seekable.mk src p (Py.len src)) (Py.len src) c lb mh cs e cl).

(** The invariant of a lexer object: its cursor satisfies the cursor
    invariant and [__length] is the length measured at construction. *)
Definition lexer_wf (st : Lexer.t) : Prop :=
  Seekable.wf (Lexer.source st)
  /\ Lexer.length st = Seekable.len (Lexer.source st).

(** The lookahead invariant: the lexer is well formed and, unless the end
    flag is set, its lookahead is the byte just before the cursor. *)
Definition primed (st : Lexer.t) : Prop :=
  lexer_wf st
  /\ (Lexer.ended st = false ->
      1 <= Seekable.pos (Lexer.source st)
      /\ Py.getitem (Seekable.source (Lexer.source st))
                    (Seekable.pos (Lexer.source st) - 1)
         = Some (Lexer.current st)).

(** An operation that keeps the lookahead invariant. *)
Definition keeps {A} (m : Lexer.M A) : Prop :=
  forall st, primed st -> primed (snd (m st)).

(** A lexer in the middle of its input: well formed, not ended, and with
    the byte just before the cursor as its lookahead. *)
Definition tokenizing (st : Lexer.t) : Prop :=
  lexer_wf st
  /\ Lexer.ended st = false
  /\ 1 <= Seekable.pos (Lexer.source st)
  /\ Py.getitem (Seekable.source (Lexer.source st))
                (Seekable.pos (Lexer.source st) - 1)
     = Some (Lexer.current st).

(** What no tokenizing step changes: the bytes and length of the buffer,
    the measured length, the move history and the context size; and the
    end flag, once set, stays set. *)
Definition frame (st st' : Lexer.t) : Prop :=
  Seekable.source (Lexer.source st') = Seekable.source (Lexer.source st)
  /\ Seekable.len (Lexer.source st') = Seekable.len (Lexer.source st)
  /\ Lexer.length st' = Lexer.length st
  /\ Lexer.movesHistory st' = Lexer.movesHistory st
  /\ Lexer.contextSize st' = Lexer.contextSize st
  /\ (Lexer.ended st = true -> Lexer.ended st' = true).

(** An operation that keeps the frame and raises [StopIteration] only
    with the end flag set. *)
Definition sound {A} (m : Lexer.M A) : Prop :=
  forall st,
    frame st (snd (m st))
    /\ (fst (m st) = Raise StopIteration -> Lexer.ended (snd (m st)) = true).

(** The outcome [r] is a [PDFLexicalError] with message [msg] raised at
    byte offset [pos]. *)
Definition is_lexical_error {A} (msg : LexMsg) (pos : Z) (r : outcome A) : Prop :=
  exists context rel, r = Raise (PDFLexicalError msg pos context rel).

(** *** Sample buffers *)

(** A stream keyword, five bytes of data and the closing keyword. *)
Definition stream_sample : list Z :=
  Py.b "stream" ++ [LINE_FEED] ++ Py.b "ABCDE" ++ [LINE_FEED] ++ Py.b "endstream".

(** Two integers on two lines, without and with a trailing blank. *)
Definition two_numbers : list Z := Py.b "12" ++ [LINE_FEED] ++ Py.b "34".
Definition two_numbers_blank : list Z :=
  Py.b "12" ++ [LINE_FEED] ++ Py.b "34 ".

(** The end of a PDF file: a [startxref] line, the offset 1234, and the
    end-of-file comment. *)
Definition trailer_sample : list Z :=
  [LINE_FEED] ++ Py.b "startxref" ++ [LINE_FEED] ++ Py.b "1234"
  ++ [LINE_FEED] ++ Py.b "%%EOF".

(** *** Blanks and comments *)

(** A byte sequence made only of blanks and [%]-comments, a comment
    running from [%] to the next line feed or to the end of the input.
    [in_comment] tells whether the sequence starts inside a comment. *)
Fixpoint blank_only (in_comment : bool) (l : list Z) : bool :=
  match l with
  | [] => true
  | c :: r =>
      if in_comment then blank_only (negb (c =? LINE_FEED)) r
      else if Py.mem c BLANKS then blank_only false r
      else if c =? PERCENTAGE then blank_only true r
      else false
  end.

(** *** Hexadecimal strings *)

(** A byte that the hexadecimal-string loop consumes: a blank or a
    hexadecimal digit of either case. *)
Definition blank_or_hex (x : Z) : bool := Py.mem x BLANKS || is_hex_digit x.

(** What follows the run of blanks and digits of a hexadecimal string:
    a byte [t] that is neither, and the bytes after it, or nothing. *)
Definition hex_tail (tail : option (Z * list Z)) : list Z :=
  match tail with
  | Some (t, rest) => t :: rest
  | None => []
  end.

(** *** Stream readers *)

(** The lookahead byte and end flag that [read_stream] leaves behind, from
    the bytes [after] the data it has read: the byte after the data, or
    the one after that when the first is a line feed, or the blank
    sentinel and a set flag when the buffer ends there. *)
Definition lookahead_after_stream (after : list Z) : Z * bool :=
  match after with
  | [] => (32, true)
  | x :: after' =>
      if x =? LINE_FEED then
        match after' with
        | [] => (32, true)
        | y :: _ => (y, false)
        end
      else (x, false)
  end.

(** *** Lines, for the reverse search *)

(** A byte that ends a line, a byte sequence without such a byte, and the
    bytes of a run of [(d, l)] pairs, each a delimiter [d] followed by the
    line [l] it opens. *)
Definition is_eol (x : Z) : bool := Py.mem x [CARRIAGE_RETURN; LINE_FEED].

Definition eol_free (l : list Z) : bool :=
  forallb (fun x => negb (is_eol x)) l.

Definition flatten_lines (segs : list (Z * list Z)) : list Z :=
  flat_map (fun s => fst s :: snd s) segs.

(** A delimiter followed by a line that is not the keyword. *)
Definition other_line (keyword : list Z) (s : Z * list Z) : bool :=
  is_eol (fst s) && eol_free (snd s)
  && negb (if list_eq_dec Z.eq_dec (snd s) keyword then true else false).

(** The position that the description of the reverse search promises: the
    absolute position immediately after the last line (lines being
    delimited by carriage returns and line feeds) whose bytes equal the
    keyword, or -1 when no line does.  This definition follows the
    description, not the code.  [pos] is the offset of the next byte of
    [buf], [line] the bytes of the current line so far, [found] the answer
    for the lines already passed. *)
Fixpoint anchor_scan (buf : list Z) (pos : Z) (line keyword : list Z)
  (found : Z) : Z :=
  let here := if list_eq_dec Z.eq_dec line keyword then pos else found in
  match buf with
  | [] => here
  | x :: r =>
      if is_eol x then anchor_scan r (pos + 1) [] keyword here
      else anchor_scan r (pos + 1) (line ++ [x]) keyword found
  end.

Definition position_after_last_line (buf keyword : list Z) : Z :=
  anchor_scan buf 0 [] keyword (-1).

(** *** Iterating a lexer *)

(** [list(lexer)]: pulls lexemes until [StopIteration]; any other
    exception propagates.  [n] bounds the number of pulls. *)
Fixpoint pull_all (n fuel : nat) (acc : list Lexeme) : Lexer.M (list Lexeme) :=
  match n with
  | O => Lexer.diverge
  | S n' =>
      fun st =>
        match Lexer.next fuel st with
        | (Ok l, st') => pull_all n' fuel (acc ++ [l]) st'
        | (Raise StopIteration, st') => (Ok acc, st')
        | (Raise e, st') => (Raise e, st')
        | (Diverge, st') => (Diverge, st')
        end
  end.

(** The lexemes of a buffer, as [list(Lexer(buf))] gives them. *)
Definition lexemes (buf : list Z) : outcome (list Lexeme) :=
  fst (Lexer.on (Lexer.init buf 200) (pull_all 100 100 [])).

(** *** Lexers positioned on a byte *)

(** The lexer over [src] whose lookahead is the byte at offset [q], the
    cursor being just after it; past the last byte, the lexer that has
    reached the end of the buffer (blank sentinel, end flag set). *)
Definition primed_at (src : list Z) (q : Z) (lb : list Lexeme)
  (mh : list (Lexeme * Z)) (cs : Z) (cl : Lexeme) : Lexer.t :=
  match nth_error src (Z.to_nat q) with
  | Some c => state src (q + 1) c false lb mh cs cl
  | None => state src (Py.len src) 32 true lb mh cs cl
  end.

(** The bytes that are printed escaped in an error message: the values
    of [STRING_ESCAPE_SEQUENCES]. *)
Definition is_escaped (x : Z) : bool := Py.mem x STRING_ESCAPE_SEQUENCES_values.

(** *** Words and dispatch *)

(** [lit] is a prefix of [u]. *)
Fixpoint prefixb (lit u : list Z) : bool :=
  match lit, u with
  | [], _ => true
  | l :: lit', x :: u' => (x =? l) && prefixb lit' u'
  | _ :: _, [] => false
  end.

(** The literals that [__next__] tries, in the order it tries them. *)
Definition literals : list (list Z) :=
  [Py.b "true"; Py.b "false"; Py.b "stream"] ++ KEYWORDS.

(** Some literal is a prefix of [u]. *)
Definition starts_literal (u : list Z) : bool :=
  existsb (fun lit => prefixb lit u) literals.

(** The lexeme of a word: a boolean for [true] and [false], a keyword
    otherwise. *)
Definition word_lexeme (w : list Z) : Lexeme :=
  if list_eq_dec Z.eq_dec w (Py.b "true") then PyBool true
  else if list_eq_dec Z.eq_dec w (Py.b "false") then PyBool false
  else PDFKeyword w.

(** A byte that [__remove_blanks] consumes or starts to consume. *)
Definition blank_or_comment (c : Z) : bool :=
  Py.mem c BLANKS || (c =? PERCENTAGE).

(** The bytes [u] at the lexer's position make [__next__] dispatch to a
    string, a hexadecimal string, a name or a number.  An opening angle
    bracket followed by a second one is a dictionary mark instead. *)
Definition starts_value (u : list Z) : bool :=
  match u with
  | [] => false
  | c :: r =>
      (c =? OPEN_PARENTHESIS)
      || ((c =? OPEN_ANGLE_BRACKET)
          && match r with
             | x :: _ => negb (x =? OPEN_ANGLE_BRACKET)
             | [] => true
             end)
      || (c =? FORWARD_SLASH) || is_digit c || Py.mem c [PLUS; MINUS; POINT]
  end.

(** The words [__next__] matches by prefix and turns into a lexeme at
    once, in the order it tries them ([stream] needs more work). *)
Definition words : list (list Z) := [Py.b "true"; Py.b "false"] ++ KEYWORDS.

(** The tail of [__next__] that is reached when no literal matches. *)
Definition no_word : Lexer.M Lexeme :=
  Lexer.bind (Lexer.gets Lexer.current) (fun c =>
  Lexer.bind
    (if Py.mem c SINGLETONS
     then Lexer.bind (Lexer.modify (Lexer.set_currentLexeme (PDFSingleton c)))
            (fun _ => Lexer.advance)
     else Lexer.raise_lexer_error InvalidCharacters)
    (fun _ => Lexer.gets Lexer.currentLexeme)).

(** What is left of [l] once the leading blanks and comments are
    skipped; [in_comment] tells whether [l] starts inside a comment. *)
Fixpoint after_blanks (in_comment : bool) (l : list Z) : list Z :=
  match l with
  | [] => []
  | c :: r =>
      if in_comment then after_blanks (negb (c =? LINE_FEED)) r
      else if Py.mem c BLANKS then after_blanks false r
      else if c =? PERCENTAGE then after_blanks true r
      else l
  end.

(** *** Numbers *)

(** The input [tail] does not go on with a byte satisfying [p]; the end of
    the input does not either. *)
Definition stops_before (p : Z -> bool) (tail : list Z) : bool :=
  match tail with
  | [] => true
  | t :: _ => negb (p t)
  end.

(** The optional sign of a number. *)
Definition is_sign (sign : list Z) : bool :=
  match sign with
  | [] => true
  | [s] => (s =? PLUS) || (s =? MINUS)
  | _ => false
  end.

(** The value of the integer written [sign ++ ds]. *)
Definition signed_value (sign ds : list Z) : Z :=
  match sign with
  | s :: _ => if s =? MINUS then - Codecs.digits_value ds
              else Codecs.digits_value ds
  | [] => Codecs.digits_value ds
  end.

(** How [__next__] ends once a parser has returned [lexeme]. *)
Definition deliver (lexeme : Lexeme) : Lexer.M Lexeme :=
  Lexer.bind (Lexer.modify (Lexer.set_currentLexeme lexeme))
    (fun _ => Lexer.gets Lexer.currentLexeme).

(** *** Names *)

(** A byte that the loop of [__parse_name] takes as part of a name. *)
Definition name_byte (c : Z) : bool := (33 <=? c) && (c <=? 126).

(** The written form of a name after its solidus: plain bytes and
    [#]-escapes of two hexadecimal digits. *)
Inductive NameItem : Type :=
  | NChar (c : Z)
  | NEsc (h1 h2 : Z).

Definition hex_value (h : Z) : Z :=
  match hex_to_number h with Some v => v | None => 0 end.

Definition item_ok (it : NameItem) : bool :=
  match it with
  | NChar c => name_byte c && negb (c =? NUMBER_SIGN)
  | NEsc h1 h2 => is_hex_digit h1 && is_hex_digit h2
  end.

Definition item_bytes (it : NameItem) : list Z :=
  match it with
  | NChar c => [c]
  | NEsc h1 h2 => [NUMBER_SIGN; h1; h2]
  end.

Definition item_value (it : NameItem) : Z :=
  match it with
  | NChar c => c
  | NEsc h1 h2 => 16 * hex_value h1 + hex_value h2
  end.

Definition name_bytes (items : list NameItem) : list Z :=
  flat_map item_bytes items.

Definition name_text (items : list NameItem) : list Z :=
  map item_value items.

(** *** String literals *)

(** The written form of a string literal between its outer parentheses:
    plain bytes, nested parentheses, a backslash and a byte that is no
    digit, a backslash and one to three digits. *)
Inductive StrItem : Type :=
  | SChar (c : Z)
  | SOpen
  | SClose
  | SEsc (c : Z)
  | SOct (ds : list Z).

Definition is_byte (c : Z) : bool := (0 <=? c) && (c <? 256).

(** The digits of an escape read in base eight. *)
Definition octal_value (ds : list Z) : Z :=
  fold_left (fun acc d => 8 * acc + (d - 48)) ds 0.

Definition str_item_bytes (it : StrItem) : list Z :=
  match it with
  | SChar c => [c]
  | SOpen => [OPEN_PARENTHESIS]
  | SClose => [CLOSE_PARENTHESIS]
  | SEsc c => [BACK_SLASH; c]
  | SOct ds => BACK_SLASH :: ds
  end.

Definition str_item_value (it : StrItem) : Z :=
  match it with
  | SChar c => c
  | SOpen => OPEN_PARENTHESIS
  | SClose => CLOSE_PARENTHESIS
  | SEsc c => STRING_ESCAPE_SEQUENCES_get c
  | SOct ds => octal_value ds
  end.

(** The change of the nesting depth an item makes. *)
Definition str_item_depth (it : StrItem) : Z :=
  match it with
  | SOpen => 1
  | SClose => -1
  | _ => 0
  end.

(** [it] is well written when the bytes [follow] come after it: an
    escape of fewer than three digits is not followed by a digit, and its
    value fits a byte. *)
Definition str_item_ok (it : StrItem) (follow : list Z) : bool :=
  match it with
  | SChar c =>
      is_byte c
      && negb (Py.mem c [OPEN_PARENTHESIS; CLOSE_PARENTHESIS; BACK_SLASH])
  | SOpen | SClose => true
  | SEsc c => is_byte c && negb (is_digit c)
  | SOct ds =>
      negb (Py.len ds =? 0) && (Py.len ds <=? 3) && forallb is_digit ds
      && ((Py.len ds =? 3) || stops_before is_digit follow)
      && (octal_value ds <? 256)
  end.

Definition str_bytes (items : list StrItem) : list Z :=
  flat_map str_item_bytes items.

Definition str_text (items : list StrItem) : list Z :=
  map str_item_value items.

(** The items are well written before [tail], and from depth [d] on they
    never close the outermost parenthesis. *)
Fixpoint str_ok (d : Z) (items : list StrItem) (tail : list Z) : bool :=
  match items with
  | [] => true
  | it :: r =>
      str_item_ok it (str_bytes r ++ tail)
      && (0 <? d + str_item_depth it)
      && str_ok (d + str_item_depth it) r tail
  end.

Definition str_depth (d : Z) (items : list StrItem) : Z :=
  fold_left (fun d it => d + str_item_depth it) items d.

(** [buffer.decode('utf-8')] with the fallback to [cp1252]; [None] when
    both raise. *)
Definition str_decode (buffer : list Z) : option (list Z) :=
  match Codecs.utf8_decode buffer with
  | Some s => Some s
  | None => Codecs.cp1252_decode buffer
  end.

(** *** Invariants of the public operations *)

(** What no operation changes: the bytes and length of the buffer, the
    measured length and the context size; and the end flag, once set,
    stays set. *)
Definition unchanged (st st' : Lexer.t) : Prop :=
  Seekable.source (Lexer.source st') = Seekable.source (Lexer.source st)
  /\ Seekable.len (Lexer.source st') = Seekable.len (Lexer.source st)
  /\ Lexer.length st' = Lexer.length st
  /\ Lexer.contextSize st' = Lexer.contextSize st
  /\ (Lexer.ended st = true -> Lexer.ended st' = true).

(** An operation that changes none of these and raises [StopIteration]
    only with the end flag set. *)
Definition calm {A} (m : Lexer.M A) : Prop :=
  forall st,
    unchanged st (snd (m st))
    /\ (fst (m st) = Raise StopIteration -> Lexer.ended (snd (m st)) = true).

(** The calls a parser makes on a lexer between two pulls. *)
Inductive Op : Type :=
  | Pull (fuel : nat)
  | MoveAt (fuel : nat) (pos : Z)
  | MoveBack
  | PutBack (current lexeme : Lexeme).

(** The lexer after a call, whatever the call returned or raised. *)
Definition after (st : Lexer.t) (o : Op) : Lexer.t :=
  match o with
  | Pull fuel => snd (Lexer.next fuel st)
  | MoveAt fuel pos => snd (Lexer.move_at_position fuel pos st)
  | MoveBack => snd (Lexer.move_back st)
  | PutBack current lexeme => snd (Lexer.put_back current lexeme st)
  end.

(** Nothing is pushed back and, once the end is reached, the lookahead is
    the blank sentinel. *)
Definition settled (st : Lexer.t) : Prop :=
  Lexer.lexemesBuffer st = []
  /\ (Lexer.ended st = true -> Lexer.current st = 32).

(** *** Decoding *)

(** The bytes that the [cp1252] codec does not map. *)
Definition cp1252_unmapped : list Z := [129; 141; 143; 144; 157].

(** * Properties *)

(** ** The unit tests of the repository, replayed on the model *)

Example test_seekable_class :
  let data := Py.b "This is a sequence of bytes." in
  let sk := Seekable.seek 0 2 (Seekable.init data) in
  Seekable.tell sk = Py.len data
  /\ fst (Seekable.read 1 (Seekable.seek 3 0 sk)) = Ok [115]
  /\ fst (Seekable.read 4 (Seekable.seek (-3) 2 sk)) = Ok (Py.b "es.").
Proof. repeat split; vm_compute; reflexivity. Qed.

Example test_read_only_comment_source :
  lexemes (Py.b "% comment ( /% ) blah blah blah") = Ok [].
Proof. vm_compute. reflexivity. Qed.

Example test_tokens_mixed_with_comment :
  lexemes (Py.b "346% comment ( /% ) blah blah blah" ++ [LINE_FEED]
           ++ Py.b "123")
  = Ok [PyInt 346; PyInt 123].
Proof. vm_compute. reflexivity. Qed.

Example test_invalid_input_and_context_print :
  is_lexical_error InvalidCharacters 40
    (fst (Lexer.on (Lexer.init (repeat 32 39 ++ Py.b "~") 31) (Lexer.next 100))).
Proof. do 2 eexists. vm_compute. reflexivity. Qed.

Example test_boolean_parsing :
  lexemes (Py.b "true false") = Ok [PyBool true; PyBool false].
Proof. vm_compute. reflexivity. Qed.

Example test_integer_parsing :
  lexemes (Py.b "123 43445 +17 -98 0")
  = Ok [PyInt 123; PyInt 43445; PyInt 17; PyInt (-98); PyInt 0].
Proof. vm_compute. reflexivity. Qed.

Example test_real_parsing :
  lexemes (Py.b "34.5 -3.62 +123.6 4. -.002 0.0")
  = Ok [PyFloat (Py.b "34.5"); PyFloat (Py.b "-3.62"); PyFloat (Py.b "+123.6");
        PyFloat (Py.b "4."); PyFloat (Py.b "-.002"); PyFloat (Py.b "0.0")].
Proof. vm_compute. reflexivity. Qed.

Example test_parse_string_literal :
  lexemes (Py.b "(\a backslash is ignored)")
  = Ok [PyStr (Py.b "a backslash is ignored")]
  /\ lexemes (Py.b "(two \245octal characters\307.)")
     = Ok [PyStr (Py.b "two " ++ [165] ++ Py.b "octal characters" ++ [199]
                  ++ Py.b ".")]
  /\ lexemes (Py.b "(\0053) (\053) (\53)")
     = Ok [PyStr [5; 51]; PyStr (Py.b "+"); PyStr (Py.b "+")].
Proof. repeat split; vm_compute; reflexivity. Qed.

Example test_parse_hex_string :
  lexemes (Py.b "<4 E6F762073686D 6F7A206B6120706F702E>")
  = Ok [PDFHexString (Py.b "4E6F762073686D6F7A206B6120706F702E")].
Proof. vm_compute. reflexivity. Qed.

Example test_parse_name :
  lexemes (Py.b "/Lime#20Green") = Ok [PDFName (Py.b "Lime Green")]
  /\ lexemes (Py.b "/paired#28#29parentheses")
     = Ok [PDFName (Py.b "paired()parentheses")]
  /\ lexemes (Py.b "/A#42") = Ok [PDFName (Py.b "AB")]
  /\ lexemes (Py.b "/ ") = Ok [PDFName []].
Proof. repeat split; vm_compute; reflexivity. Qed.

Example test_parse_keywords :
  lexemes (Py.b "R n null n false f << endobj obj >> trailer xref startxref { } [ ]")
  = Ok [PDFSingleton 82; PDFSingleton 110; PDFKeyword (Py.b "null");
        PDFSingleton 110; PyBool false; PDFSingleton 102;
        PDFKeyword (Py.b "<<"); PDFKeyword (Py.b "endobj");
        PDFKeyword (Py.b "obj"); PDFKeyword (Py.b ">>");
        PDFKeyword (Py.b "trailer"); PDFKeyword (Py.b "xref");
        PDFKeyword (Py.b "startxref"); PDFSingleton 123; PDFSingleton 125;
        PDFSingleton 91; PDFSingleton 93].
Proof. vm_compute. reflexivity. Qed.

(** ** The byte cursor *)

Lemma slice_bound_id (n i : Z) : 0 <= i <= n -> Py.slice_bound n i = i.
Proof. unfold Py.slice_bound. intros H. destruct (Z.ltb_spec i 0); lia. Qed.

Lemma slice_length {A} (l : list A) (a b : Z) :
  0 <= a <= Py.len l -> Py.len (Py.slice l a b) <= Py.len l - a.
Proof.
  intros Ha. unfold Py.slice, Py.len in *.
  rewrite (slice_bound_id _ a) by lia.
  rewrite length_firstn, length_skipn. lia.
Qed.

Lemma slice_from {A} (l : list A) (a n : Z) :
  0 <= a -> 0 <= n -> a + n <= Py.len l ->
  Py.slice l a (a + n) = firstn (Z.to_nat n) (skipn (Z.to_nat a) l).
Proof.
  intros Ha Hn Hl. unfold Py.slice, Py.len in *.
  rewrite !slice_bound_id by lia. f_equal. lia.
Qed.

Lemma slice_one {A} (l : list A) (i : Z) (v : A) :
  0 <= i -> nth_error l (Z.to_nat i) = Some v -> Py.slice l i (i + 1) = [v].
Proof.
  intros Hi Hv.
  assert (Hlt : (Z.to_nat i < List.length l)%nat)
    by (apply nth_error_Some; congruence).
  rewrite slice_from by (unfold Py.len; lia).
  change (Z.to_nat 1) with 1%nat.
  revert Hv Hlt. generalize (Z.to_nat i). clear.
  induction l as [|x l IH]; intros [|k] Hv Hlt; simpl in *; try lia.
  - destruct l; congruence.
  - apply IH; [assumption | lia].
Qed.

Lemma getitem_nth {A} (l : list A) (i : Z) :
  0 <= i < Py.len l -> Py.getitem l i = nth_error l (Z.to_nat i).
Proof.
  intros H. unfold Py.getitem, Py.len in *.
  destruct (Z.ltb_spec i 0); [lia|].
  destruct (Z.leb_spec 0 i); [|lia].
  destruct (Z.ltb_spec i (Z.of_nat (List.length l))); [reflexivity | lia].
Qed.

Lemma getitem_Some {A} (l : list A) (i : Z) :
  0 <= i < Py.len l -> exists v, Py.getitem l i = Some v.
Proof.
  intros H. rewrite getitem_nth by assumption.
  destruct (nth_error l (Z.to_nat i)) eqn:E; [eauto|].
  apply nth_error_None in E. unfold Py.len in H. lia.
Qed.

Lemma seek_clamp (off whence : Z) (s : Seekable.t) :
  0 <= Seekable.len s ->
  Seekable.pos (Seekable.seek off whence s)
  = Z.max 0 (Z.min (if whence =? 0 then off
                    else if whence =? 1 then Seekable.pos s + off
                    else Seekable.len s + off) (Seekable.len s)).
Proof.
  intros Hl. unfold Seekable.seek. cbn [Seekable.pos Seekable.set_pos].
  set (target := if whence =? 0 then off else _).
  destruct (Z.ltb_spec target 0);
    [ destruct (Z.gtb_spec 0 (Seekable.len s))
    | destruct (Z.gtb_spec target (Seekable.len s)) ]; lia.
Qed.

Lemma seek_wf (off whence : Z) (s : Seekable.t) :
  Seekable.wf s -> Seekable.wf (Seekable.seek off whence s).
Proof.
  intros [Hl Hp]. split; [exact Hl|].
  rewrite seek_clamp by lia.
  unfold Seekable.seek; cbn [Seekable.len Seekable.set_pos]. lia.
Qed.

Lemma read_spec (n : Z) (s : Seekable.t) :
  Seekable.wf s ->
  exists val,
    Seekable.read n s = (Ok val, Seekable.set_pos s (Seekable.pos s + Py.len val))
    /\ val = Py.slice (Seekable.source s) (Seekable.pos s)
               (Seekable.pos s + (if n <=? 0 then Seekable.len s else n))
    /\ Seekable.pos s + Py.len val <= Seekable.len s.
Proof.
  intros [Hl Hp]. unfold Seekable.read.
  destruct (Z.eqb_spec (Seekable.pos s) (Seekable.len s)) as [E|NE].
  - exists []. cbn [Py.len List.length Z.of_nat]. rewrite Z.add_0_r.
    repeat split; [destruct s; reflexivity | | lia].
    unfold Py.slice.
    rewrite (slice_bound_id _ (Seekable.pos s)) by (unfold Py.len in Hl; lia).
    rewrite skipn_all2 by (unfold Py.len in Hl; lia).
    now rewrite firstn_nil.
  - destruct (Z.eqb_spec n 1) as [->|N1].
    + destruct (getitem_Some (Seekable.source s) (Seekable.pos s)) as [v Hv];
        [lia|]. rewrite Hv. exists [v]. repeat split.
      * rewrite getitem_nth in Hv by lia. cbn [Z.leb Z.compare].
        symmetry. now apply slice_one.
      * cbn [Py.len List.length Z.of_nat]. lia.
    + eexists. repeat split.
      pose proof (slice_length (Seekable.source s) (Seekable.pos s)
                    (Seekable.pos s
                     + (if n <=? 0 then Seekable.len s else n))) as H.
      lia.
Qed.

Lemma step_ok_wf (o : Seekable.op) (s : Seekable.t) :
  Seekable.wf s ->
  Seekable.step_ok (s, o, fst (Seekable.step o s), snd (Seekable.step o s))
  /\ Seekable.wf (snd (Seekable.step o s)).
Proof.
  intros Hwf. destruct o as [n|off whence|]; cbn [Seekable.step].
  - destruct (read_spec n s Hwf) as (val & -> & Hval & Hle).
    cbn [fst snd Seekable.step_ok].
    assert (Seekable.wf (Seekable.set_pos s (Seekable.pos s + Py.len val))).
    { destruct Hwf as [Hl Hp]. split; cbn [Seekable.set_pos Seekable.len
        Seekable.source Seekable.pos]; [exact Hl|].
      unfold Py.len in *. lia. }
    split; [|assumption].
    split; [assumption|]. split; [reflexivity|]. split; [reflexivity|exact Hval].
  - cbn [fst snd Seekable.step_ok].
    pose proof (seek_wf off whence s Hwf) as H.
    split; [|assumption].
    split; [assumption|]. split; [reflexivity|].
    apply seek_clamp. destruct Hwf; lia.
  - cbn [fst snd Seekable.step_ok]. unfold Seekable.tell.
    split; [|assumption].
    split; [assumption|]. split; [reflexivity|].
    destruct Hwf as [Hl Hp]. split; [reflexivity|]. split; [lia|reflexivity].
Qed.

Lemma run_ok (ops : list Seekable.op) :
  forall s, Seekable.wf s -> Forall Seekable.step_ok (Seekable.run ops s).
Proof.
  induction ops as [|o ops IH]; intros s Hwf; cbn [Seekable.run].
  - constructor.
  - destruct (step_ok_wf o s Hwf) as [Hok Hwf'].
    destruct (Seekable.step o s) as [r s']. constructor; auto.
Qed.

Lemma init_wf (obj : list Z) : Seekable.wf (Seekable.init obj).
Proof. split; cbn; unfold Py.len; [reflexivity | lia]. Qed.

(** C9. Along every run of [read], [seek] and [tell] calls on a cursor
    built over any buffer, each state satisfies [0 <= pos <= len]; no call
    raises; [seek] leaves the position at the target clamped into
    [[0, len]], whatever the origin; [read] returns a slice of the buffer
    and advances the position by the number of bytes it returned; [tell]
    returns the position, which lies in [[0, len]], and changes nothing. *)
Theorem cursor_invariant (obj : list Z) (ops : list Seekable.op) :
  Forall Seekable.step_ok (Seekable.run ops (Seekable.init obj)).
Proof. apply run_ok, init_wf. Qed.

(** ** Construction over the empty buffer *)

(** C4. The constructor applied to the empty byte buffer raises
    [IndexError]: [read(1)] returns [b''] and the constructor indexes it
    without the test that [__advance] makes. *)
Theorem init_empty_raises (contextSize : Z) :
  Lexer.init [] contextSize = Raise IndexError.
Proof. reflexivity. Qed.

(** ** Lexer states over a fixed buffer *)

Lemma rest_cons (src : list Z) (p c : Z) (rest : list Z) :
  0 <= p -> skipn (Z.to_nat p) src = c :: rest ->
  p < Py.len src /\ nth_error src (Z.to_nat p) = Some c
  /\ skipn (Z.to_nat (p + 1)) src = rest.
Proof.
  intros Hp H.
  assert (Hlt : (Z.to_nat p < List.length src)%nat).
  { destruct (Nat.lt_ge_cases (Z.to_nat p) (List.length src)) as [|Hge]; auto.
    rewrite skipn_all2 in H by assumption. discriminate. }
  split; [unfold Py.len; lia|]. split.
  - rewrite <- (firstn_skipn (Z.to_nat p) src) at 1.
    rewrite nth_error_app2 by (rewrite length_firstn; lia).
    rewrite length_firstn, H.
    replace (Z.to_nat p - Nat.min (Z.to_nat p) (List.length src))%nat
      with 0%nat by lia.
    reflexivity.
  - replace (Z.to_nat (p + 1)) with (1 + Z.to_nat p)%nat by lia.
    rewrite <- skipn_skipn, H. reflexivity.
Qed.

Lemma rest_nil (src : list Z) (p : Z) :
  0 <= p <= Py.len src -> skipn (Z.to_nat p) src = [] -> p = Py.len src.
Proof.
  intros Hp H. apply (f_equal (@List.length Z)) in H.
  rewrite length_skipn in H. cbn in H. unfold Py.len in *. lia.
Qed.

(** [lx] runs the monadic plumbing of a goal; [lexer_unfold f] also unfolds
    the lexer operation [f] down to the cursor calls it makes. *)
Ltac lx :=
  cbv beta iota zeta delta
    [Lexer.bind Lexer.ret Lexer.raise Lexer.diverge Lexer.gets
     Lexer.modify Lexer.source_read Lexer.source_seek Lexer.source_tell
     Lexer.getitem Lexer.set_source Lexer.set_current Lexer.set_ended
     Lexer.set_lexemesBuffer Lexer.set_movesHistory Lexer.set_currentLexeme
     Lexer.source Lexer.length Lexer.current Lexer.lexemesBuffer
     Lexer.movesHistory Lexer.contextSize Lexer.ended Lexer.currentLexeme
     Seekable.tell Seekable.pos Seekable.len Seekable.source
     Seekable.set_pos negb andb orb].

(** [lx_run] also decides the tests on known bytes that block [lx]. *)
Ltac decide_test :=
  match goal with
  | |- context [if ?b then _ else _] =>
      let v := eval vm_compute in b in
      match v with
      | true => change b with true
      | false => change b with false
      end
  end.
Ltac lx_run := lx; repeat (decide_test; lx).

Ltac lxm :=
  cbv beta iota zeta delta
    [Lexer.bind Lexer.ret Lexer.raise Lexer.diverge Lexer.gets
     Lexer.modify Lexer.source_read Lexer.source_seek Lexer.source_tell
     Lexer.getitem Lexer.set_source Lexer.set_current Lexer.set_ended
     Lexer.set_lexemesBuffer Lexer.set_movesHistory Lexer.set_currentLexeme
     Lexer.source Lexer.length Lexer.current Lexer.lexemesBuffer
     Lexer.movesHistory Lexer.contextSize Lexer.ended Lexer.currentLexeme
     negb andb orb].

Ltac lexer_unfold f :=
  cbv beta iota zeta delta
    [f Lexer.bind Lexer.ret Lexer.raise Lexer.diverge Lexer.gets
     Lexer.modify Lexer.source_read Lexer.source_seek Lexer.source_tell
     Lexer.getitem Lexer.set_source Lexer.set_current Lexer.set_ended
     Lexer.set_lexemesBuffer Lexer.set_movesHistory Lexer.set_currentLexeme
     Lexer.source Lexer.length Lexer.current Lexer.lexemesBuffer
     Lexer.movesHistory Lexer.contextSize Lexer.ended Lexer.currentLexeme
     Seekable.tell Seekable.pos Seekable.len Seekable.source
     Seekable.set_pos negb andb orb].

Section Steps.

Variable src : list Z.
Variables (lb : list Lexeme) (mh : list (Lexeme * Z)) (cs : Z).

Local Abbreviation st_at p c e cl := (state src p c e lb mh cs cl).

Lemma read1_byte (p c : Z) (rest : list Z) :
  0 <= p -> skipn (Z.to_nat p) src = c :: rest ->
  Seekable.read 1 (Seekable.mk src p (Py.len src))
  = (Ok [c], Seekable.mk src (p + 1) (Py.len src)).
Proof.
  intros Hp H. destruct (rest_cons _ _ _ _ Hp H) as (Hlt & Hn & _).
  unfold Seekable.read. cbn [Seekable.pos Seekable.len Seekable.source].
  destruct (Z.eqb_spec p (Py.len src)); [lia|].
  cbn [Z.eqb Pos.eqb]. rewrite getitem_nth by lia. rewrite Hn. reflexivity.
Qed.

Lemma read1_eof :
  Seekable.read 1 (Seekable.mk src (Py.len src) (Py.len src))
  = (Ok [], Seekable.mk src (Py.len src) (Py.len src)).
Proof.
  unfold Seekable.read. cbn [Seekable.pos Seekable.len].
  now rewrite Z.eqb_refl.
Qed.

Lemma seek_abs (q p : Z) :
  0 <= q <= Py.len src ->
  Seekable.seek q 0 (Seekable.mk src p (Py.len src))
  = Seekable.mk src q (Py.len src).
Proof.
  intros Hq. unfold Seekable.seek, Seekable.set_pos.
  cbn [Seekable.pos Seekable.len Seekable.source Z.eqb].
  destruct (Z.ltb_spec q 0); [lia|].
  destruct (Z.gtb_spec q (Py.len src)); [lia|]. reflexivity.
Qed.

Lemma advance_ended (st : Lexer.t) :
  Lexer.ended st = true -> Lexer.advance st = (Raise StopIteration, st).
Proof.
  intros H. unfold Lexer.advance, Lexer.bind, Lexer.gets. now rewrite H.
Qed.

Lemma advance_byte (p c c' : Z) (rest : list Z) (cl : Lexeme) :
  0 <= p -> skipn (Z.to_nat p) src = c' :: rest ->
  Lexer.advance (st_at p c false cl) = (Ok tt, st_at (p + 1) c' false cl).
Proof.
  intros Hp H. lexer_unfold Lexer.advance.
  rewrite (read1_byte _ _ _ Hp H). reflexivity.
Qed.

Lemma advance_eof (c : Z) (cl : Lexeme) :
  Lexer.advance (st_at (Py.len src) c false cl)
  = (Ok tt, st_at (Py.len src) 32 true cl).
Proof. lexer_unfold Lexer.advance. rewrite read1_eof. reflexivity. Qed.

(** [__peek(k)] returns the byte at [p + k - 1] and leaves the state as
    it found it. *)
Lemma peek_byte (p c k x : Z) (e : bool) (cl : Lexeme) :
  0 <= p <= Py.len src -> 0 <= p + k - 1 ->
  nth_error src (Z.to_nat (p + k - 1)) = Some x ->
  Lexer.peek k (st_at p c e cl) = (Ok (Some x), st_at p c e cl).
Proof.
  intros Hp Hk Hx.
  assert (Hlt : p + k - 1 < Py.len src).
  { assert (Z.to_nat (p + k - 1) < List.length src)%nat
      by (apply nth_error_Some; congruence).
    unfold Py.len. lia. }
  assert (Hs : Seekable.seek (k - 1) 1 (Seekable.mk src p (Py.len src))
               = Seekable.mk src (p + k - 1) (Py.len src)).
  { unfold Seekable.seek, Seekable.set_pos.
    cbn [Seekable.pos Seekable.len Seekable.source].
    change (1 =? 0) with false. change (1 =? 1) with true. cbv iota.
    destruct (Z.ltb_spec (p + (k - 1)) 0); [lia|].
    destruct (Z.gtb_spec (p + (k - 1)) (Py.len src)); [lia|].
    f_equal. lia. }
  assert (Hr : Seekable.read 1 (Seekable.mk src (p + k - 1) (Py.len src))
               = (Ok [x], Seekable.mk src (p + k - 1 + 1) (Py.len src))).
  { unfold Seekable.read. cbn [Seekable.pos Seekable.len Seekable.source].
    destruct (Z.eqb_spec (p + k - 1) (Py.len src)); [lia|].
    cbn [Z.eqb Pos.eqb]. rewrite getitem_nth by lia. now rewrite Hx. }
  lexer_unfold Lexer.peek.
  destruct (Z.geb_spec (p + (k - 1)) (Py.len src)); [lia|].
  lexer_unfold Lexer.peek. rewrite Hs, Hr.
  rewrite seek_abs by lia. reflexivity.
Qed.

Lemma peek_none (p c k : Z) (e : bool) (cl : Lexeme) :
  Py.len src <= p + k - 1 ->
  Lexer.peek k (st_at p c e cl) = (Ok None, st_at p c e cl).
Proof.
  intros Hk. lexer_unfold Lexer.peek.
  destruct (Z.geb_spec (p + (k - 1)) (Py.len src)); [reflexivity | lia].
Qed.

Lemma remove_blanks_ended (fuel : nat) (p : Z) (cl : Lexeme) :
  Lexer.remove_blanks (S fuel) (st_at p 32 true cl)
  = (Raise StopIteration, st_at p 32 true cl).
Proof.
  cbn [Lexer.remove_blanks]. lx. change (Py.mem 32 BLANKS) with true. lx.
  now rewrite advance_ended.
Qed.

Lemma skip_comment_ended (fuel : nat) (p : Z) (cl : Lexeme) :
  Lexer.skip_comment (S fuel) (st_at p 32 true cl)
  = (Raise StopIteration, st_at p 32 true cl).
Proof.
  cbn [Lexer.skip_comment]. lx. change (32 =? LINE_FEED) with false. lx.
  now rewrite advance_ended.
Qed.

(** The comment loop either runs into the end of the input or stops on
    the line feed that closes the comment. *)
Lemma skip_comment_spec (rest : list Z) :
  forall (p c : Z) (cl : Lexeme) (fuel : nat),
  0 <= p <= Py.len src -> skipn (Z.to_nat p) src = rest ->
  (List.length rest + 2 <= fuel)%nat ->
  (Lexer.skip_comment fuel (st_at p c false cl)
   = (Raise StopIteration, st_at (Py.len src) 32 true cl)
   /\ blank_only true (c :: rest) = true)
  \/ exists p' rest',
       0 <= p' <= Py.len src /\ skipn (Z.to_nat p') src = rest'
       /\ (List.length rest' <= List.length rest)%nat
       /\ Lexer.skip_comment fuel (st_at p c false cl)
          = (Ok tt, st_at p' LINE_FEED false cl)
       /\ blank_only true (c :: rest) = blank_only false rest'.
Proof.
  induction rest as [|c' rest' IH]; intros p c cl fuel Hp Hrest Hfuel;
    (destruct fuel as [|fuel]; [cbn in Hfuel; lia|]);
    cbn [Lexer.skip_comment]; lx;
    destruct (Z.eqb_spec c LINE_FEED) as [->|Hc]; lx.
  - right. exists p, []. repeat split; auto; lia.
  - left. rewrite (rest_nil _ _ Hp Hrest), advance_eof.
    destruct fuel as [|fuel]; [cbn in Hfuel; lia|].
    rewrite skip_comment_ended. split; [reflexivity|].
    cbn. destruct (Z.eqb_spec c LINE_FEED); [contradiction | reflexivity].
  - right. exists p, (c' :: rest'). repeat split; auto; lia.
  - destruct (rest_cons _ _ _ _ (proj1 Hp) Hrest) as (Hlt & _ & Hnext).
    rewrite (advance_byte _ _ _ _ _ (proj1 Hp) Hrest).
    assert (Hb : blank_only true (c :: c' :: rest')
                 = blank_only true (c' :: rest')).
    { cbn [blank_only].
      destruct (Z.eqb_spec c LINE_FEED); [contradiction | reflexivity]. }
    destruct (IH (p + 1) c' cl fuel) as [[E B] | (p' & r' & Hp' & Hr' & Hl & E & B)];
      [lia | exact Hnext | cbn [List.length] in Hfuel; lia | |].
    + left. rewrite E. split; [reflexivity | congruence].
    + right. exists p', r'. rewrite E, Hb.
      repeat split; auto; try lia. cbn [List.length]. lia.
Qed.

(** On an input made only of blanks and comments the blank-skipping loop
    ends by raising [StopIteration], at the end of the buffer. *)
Lemma remove_blanks_only (n : nat) :
  forall (rest : list Z) (p c : Z) (cl : Lexeme) (fuel : nat),
  (List.length rest <= n)%nat ->
  0 <= p <= Py.len src -> skipn (Z.to_nat p) src = rest ->
  blank_only false (c :: rest) = true ->
  (n + 2 <= fuel)%nat ->
  Lexer.remove_blanks fuel (st_at p c false cl)
  = (Raise StopIteration, st_at (Py.len src) 32 true cl).
Proof.
  induction n as [|n IH]; intros rest p c cl fuel Hn Hp Hrest Hb Hfuel;
    (destruct fuel as [|fuel]; [lia|]);
    cbn [Lexer.remove_blanks]; lx; cbn [blank_only] in Hb;
    destruct (Py.mem c BLANKS) eqn:Hblank.
  - destruct rest; [|cbn in Hn; lia].
    rewrite (rest_nil _ _ Hp Hrest), advance_eof.
    destruct fuel as [|fuel]; [lia|]. apply remove_blanks_ended.
  - destruct (Z.eqb_spec c PERCENTAGE) as [->|]; [|discriminate].
    destruct rest; [|cbn in Hn; lia].
    destruct (skip_comment_spec [] p PERCENTAGE cl (S fuel) Hp Hrest)
      as [[E _] | (p' & r' & Hp' & Hr' & Hl & E & B)];
      [cbn; lia | |]; fold Lexer.skip_comment; rewrite E; [reflexivity|].
    destruct r'; [|cbn in Hl; lia].
    rewrite (rest_nil _ _ Hp' Hr'), advance_eof.
    destruct fuel as [|fuel]; [lia|]. apply remove_blanks_ended.
  - destruct rest as [|c' rest'].
    + rewrite (rest_nil _ _ Hp Hrest), advance_eof.
      destruct fuel as [|fuel]; [lia|]. apply remove_blanks_ended.
    + destruct (rest_cons _ _ _ _ (proj1 Hp) Hrest) as (Hlt & _ & Hnext).
      rewrite (advance_byte _ _ _ _ _ (proj1 Hp) Hrest).
      apply (IH rest'); auto; cbn [List.length] in Hn; lia.
  - destruct (Z.eqb_spec c PERCENTAGE) as [->|]; [|discriminate].
    destruct (skip_comment_spec rest p PERCENTAGE cl (S fuel) Hp Hrest)
      as [[E _] | (p' & r' & Hp' & Hr' & Hl & E & B)];
      [lia | |]; fold Lexer.skip_comment; rewrite E; [reflexivity|].
    assert (Hb' : blank_only false r' = true).
    { rewrite <- B. cbn [blank_only]. exact Hb. }
    destruct r' as [|c' r''].
    + rewrite (rest_nil _ _ Hp' Hr'), advance_eof.
      destruct fuel as [|fuel]; [lia|]. apply remove_blanks_ended.
    + destruct (rest_cons _ _ _ _ (proj1 Hp') Hr') as (Hlt & _ & Hnext).
      rewrite (advance_byte _ _ _ _ _ (proj1 Hp') Hr').
      apply (IH r''); auto; cbn [List.length] in Hl; lia.
Qed.

End Steps.

(** ** Construction over a non-empty buffer *)

Lemma init_cons (c : Z) (rest : list Z) (cs : Z) :
  Lexer.init (c :: rest) cs = Ok (state (c :: rest) 1 c false [] [] cs PyNone).
Proof.
  remember (c :: rest) as src eqn:Hsrc.
  assert (Hlen : 1 <= Py.len src)
    by (unfold Py.len; subst src; cbn [List.length]; lia).
  unfold Lexer.init, Seekable.init, Seekable.tell.
  assert (H0 : Seekable.seek 0 0
                 (Seekable.seek 0 2 (Seekable.mk src 0 (Py.len src)))
               = Seekable.mk src 0 (Py.len src)).
  { unfold Seekable.seek, Seekable.set_pos.
    cbn [Seekable.pos Seekable.len Seekable.source Z.eqb Z.ltb Z.compare].
    destruct (Z.gtb_spec 0 (Py.len src)); [lia | reflexivity]. }
  assert (HL : Seekable.pos (Seekable.seek 0 2 (Seekable.mk src 0 (Py.len src)))
               = Py.len src).
  { rewrite seek_clamp by (cbn [Seekable.len]; lia).
    change (2 =? 0) with false. change (2 =? 1) with false.
    cbn [Seekable.len Seekable.pos]. lia. }
  cbv zeta. cbn [Seekable.pos Seekable.source Seekable.len Py.len].
  change (Z.of_nat (List.length src)) with (Py.len src).
  rewrite H0, HL.
  rewrite (read1_byte src 0 c rest) by (subst src; reflexivity || lia).
  reflexivity.
Qed.

(** ** Inputs made only of blanks and comments *)

(** C7. On a buffer made only of blanks and [%]-comments (a last comment
    need not be closed by a line feed), constructing the lexer and pulling
    a token, with a loop budget of at least the buffer length plus two,
    ends as follows: on the empty buffer the constructor raises
    [IndexError]; on every other such buffer the pull raises
    [StopIteration], with the cursor at the end of the buffer, the end
    flag set and no lexeme produced. *)
Theorem blank_only_next (buf : list Z) (cs : Z) (fuel : nat) :
  blank_only false buf = true ->
  (List.length buf + 2 <= fuel)%nat ->
  Lexer.on (Lexer.init buf cs) (Lexer.next fuel)
  = match buf with
    | [] => (Raise IndexError, None)
    | _ :: _ =>
        (Raise StopIteration,
         Some (state buf (Py.len buf) 32 true [] [] cs PyNone))
    end.
Proof.
  intros Hb Hfuel. destruct buf as [|c rest]; [reflexivity|].
  rewrite init_cons. unfold Lexer.on, Lexer.next. lx.
  assert (Hlen : 1 <= Py.len (c :: rest))
    by (unfold Py.len; cbn [List.length]; lia).
  rewrite (remove_blanks_only (c :: rest) [] [] cs (List.length rest) rest)
    by (auto; cbn [List.length] in *; lia).
  reflexivity.
Qed.

(** [blank_only_next] on the empty buffer and on the comment-only buffer of
    the repository's tests. *)
Lemma blank_only_next_witness :
  Lexer.on (Lexer.init [] 200) (Lexer.next 2) = (Raise IndexError, None)
  /\ Lexer.on (Lexer.init (Py.b "% comment ( /% ) blah blah blah") 200)
              (Lexer.next 40)
     = (Raise StopIteration,
        Some (state (Py.b "% comment ( /% ) blah blah blah") 31 32 true [] []
                    200 PyNone)).
Proof.
  split.
  - apply (blank_only_next [] 200 2); [reflexivity | cbn; lia].
  - apply (blank_only_next (Py.b "% comment ( /% ) blah blah blah") 200 40);
      [reflexivity | cbn; lia].
Defined.

(** ** Lexical errors *)

Lemma seek_abs_gen (q : Z) (s : Seekable.t) :
  0 <= q <= Seekable.len s ->
  Seekable.seek q 0 s = Seekable.mk (Seekable.source s) q (Seekable.len s).
Proof.
  intros Hq. unfold Seekable.seek, Seekable.set_pos. cbn [Z.eqb].
  destruct (Z.ltb_spec q 0); [lia|].
  destruct (Z.gtb_spec q (Seekable.len s)); [lia|]. reflexivity.
Qed.

Lemma seek_frame (off whence : Z) (s : Seekable.t) :
  Seekable.source (Seekable.seek off whence s) = Seekable.source s
  /\ Seekable.len (Seekable.seek off whence s) = Seekable.len s.
Proof. split; reflexivity. Qed.

(** [__raise_lexer_error] raises [PDFLexicalError] at the cursor position
    and leaves the lexer as it found it. *)
Lemma raise_lexer_error_spec (msg : LexMsg) (src : list Z) (p c : Z)
  (e : bool) lb mh cs cl :
  0 <= p <= Py.len src ->
  exists context rel,
    Lexer.raise_lexer_error msg (state src p c e lb mh cs cl)
    = (Raise (PDFLexicalError msg p context rel), state src p c e lb mh cs cl).
Proof.
  intros Hp.
  unfold Lexer.raise_lexer_error, Lexer.get_context.
  lx.
  set (start := if p - cs / 2 <? 0 then _ else _).
  assert (Hstart : exists side q, start = (side, q)) by (destruct start; eauto).
  destruct Hstart as (side & q & ->). lx.
  set (s1 := Seekable.seek q 0 (Seekable.mk src p (Py.len src))).
  assert (Hwf1 : Seekable.wf s1).
  { apply seek_wf. split; cbn [Seekable.len Seekable.source Seekable.pos];
      [reflexivity | lia]. }
  destruct (read_spec cs s1 Hwf1) as (val & Hr & _ & Hle).
  rewrite Hr. lxm.
  rewrite seek_abs_gen by (cbn [Seekable.len Seekable.set_pos]; exact Hp).
  cbn [Seekable.source Seekable.len Seekable.set_pos].
  unfold s1. rewrite (proj1 (seek_frame _ _ _)), (proj2 (seek_frame _ _ _)).
  cbn [Seekable.source Seekable.len]. eauto.
Qed.

(** ** Hexadecimal strings *)

Lemma blank_not_hex (x : Z) : Py.mem x BLANKS = true -> is_hex_digit x = false.
Proof.
  unfold Py.mem, BLANKS, is_hex_digit. cbn [existsb]. intros H.
  repeat (apply orb_true_iff in H; destruct H as [H|H]);
    try discriminate; apply Z.eqb_eq in H; subst; reflexivity.
Qed.

Lemma hex_digit_byte (x : Z) :
  is_hex_digit x = true -> (0 <=? x) && (x <? 256) = true.
Proof. unfold is_hex_digit. intros H. lia. Qed.

Section Hex.

Variable src : list Z.
Variables (lb : list Lexeme) (mh : list (Lexeme * Z)) (cs : Z).

Local Abbreviation st_at p c e cl := (state src p c e lb mh cs cl).

Lemma hex_loop_ended (fuel : nat) (buffer : list Z) (p : Z) (cl : Lexeme) :
  Lexer.hex_loop (S fuel) buffer (st_at p 32 true cl)
  = (Raise StopIteration, st_at p 32 true cl).
Proof.
  cbn [Lexer.hex_loop]. lx. change (Py.mem 32 BLANKS) with true. lx.
  now rewrite advance_ended.
Qed.

(** The loop of [__parse_hexadecimal_string] over a run [body] of blanks
    and digits: it stops on the first other byte with the digits
    collected, or raises [StopIteration] when the input ends first. *)
Lemma hex_loop_spec (body : list Z) :
  forall (p c : Z) (buffer : list Z) (fuel : nat)
         (tail : option (Z * list Z)) (cl : Lexeme),
  0 <= p <= Py.len src ->
  c :: skipn (Z.to_nat p) src = body ++ hex_tail tail ->
  forallb blank_or_hex body = true ->
  match tail with Some (t, _) => blank_or_hex t = false | None => True end ->
  (List.length body + 2 <= fuel)%nat ->
  Lexer.hex_loop fuel buffer (st_at p c false cl)
  = match tail with
    | Some (t, _) =>
        (Ok (buffer ++ filter is_hex_digit body),
         st_at (p + Py.len body) t false cl)
    | None => (Raise StopIteration, st_at (Py.len src) 32 true cl)
    end.
Proof.
  induction body as [|b0 body IH];
    intros p c buffer fuel tail cl Hp Hsrc Hbody Htail Hfuel;
    (destruct fuel as [|fuel]; [lia|]); cbn [Lexer.hex_loop]; lx.
  - destruct tail as [[t rest]|]; [|discriminate].
    cbn [app hex_tail] in Hsrc. injection Hsrc as -> Hrest.
    unfold blank_or_hex in Htail. apply orb_false_iff in Htail as [-> ->].
    lx. cbn [filter Py.len List.length Z.of_nat].
    now rewrite app_nil_r, Z.add_0_r.
  - cbn [app] in Hsrc. injection Hsrc as -> Hrest.
    cbn [forallb] in Hbody. apply andb_true_iff in Hbody as [Hb0 Hbody].
    assert (Hstep :
      forall buffer',
        (let (o, st') := Lexer.advance (st_at p b0 false cl) in
         match o with
         | Ok _ => Lexer.hex_loop fuel buffer' st'
         | Raise e => (Raise e, st')
         | Diverge => (Diverge, st')
         end)
        = match tail with
          | Some (t, _) =>
              (Ok (buffer' ++ filter is_hex_digit body),
               st_at (p + Py.len (b0 :: body)) t false cl)
          | None => (Raise StopIteration, st_at (Py.len src) 32 true cl)
          end).
    { intros buffer'.
      destruct (skipn (Z.to_nat p) src) as [|c' rest'] eqn:Hskip.
      - destruct body; [|discriminate].
        destruct tail as [[? ?]|]; [discriminate|].
        rewrite (rest_nil _ _ Hp Hskip), advance_eof.
        destruct fuel as [|fuel]; [cbn in Hfuel; lia|]. apply hex_loop_ended.
      - destruct (rest_cons _ _ _ _ (proj1 Hp) Hskip) as (Hlt & _ & Hnext).
        rewrite (advance_byte _ _ _ _ _ _ _ _ _ (proj1 Hp) Hskip).
        rewrite (IH (p + 1) c' buffer' fuel tail cl);
          [ | lia | rewrite Hnext; exact Hrest | assumption | assumption
            | cbn [List.length] in Hfuel; lia ].
        destruct tail as [[t ?]|]; [|reflexivity].
        do 3 f_equal. unfold Py.len. cbn [List.length]. lia. }
    unfold blank_or_hex in Hb0.
    destruct (Py.mem b0 BLANKS) eqn:Hblank; lx.
    + rewrite Hstep. cbn [filter]. now rewrite (blank_not_hex _ Hblank).
    + cbn [orb] in Hb0. rewrite Hb0. lx.
      unfold Lexer.append. rewrite (hex_digit_byte _ Hb0). lx.
      rewrite Hstep. cbn [filter]. rewrite Hb0.
      destruct tail as [[t ?]|]; [|reflexivity].
      now rewrite <- app_assoc.
Qed.

End Hex.

Lemma skipn_app_after (src l1 l2 : list Z) (p : Z) :
  0 <= p <= Py.len src -> skipn (Z.to_nat p) src = l1 ++ l2 ->
  skipn (Z.to_nat (p + Py.len l1)) src = l2
  /\ p + Py.len l1 + Py.len l2 = Py.len src.
Proof.
  intros Hp H. unfold Py.len in *. split.
  - replace (Z.to_nat (p + Z.of_nat (List.length l1)))
      with (List.length l1 + Z.to_nat p)%nat by lia.
    rewrite <- skipn_skipn, H, skipn_app, skipn_all, Nat.sub_diag. reflexivity.
  - apply (f_equal (@List.length Z)) in H.
    rewrite length_skipn, length_app in H. lia.
Qed.

(** C5 (as amended). The lexer is at a [<] whose next byte, if any, is not
    a second [<]; [body] is the run of blanks and hexadecimal digits that
    follows, and [tail] what comes after it.  If the input ends there, the
    pull raises [StopIteration], not a lexical error.  Otherwise the first
    byte [t] that is neither a blank nor a digit decides: [>] gives the
    lexeme [PDFHexString] holding the digits of [body] in order, any other
    byte gives the [PDFLexicalError] "Expected '>' ..." at the offset just
    after [t]. *)
Theorem hex_string_outcome (src body : list Z) (tail : option (Z * list Z))
  (p : Z) (mh : list (Lexeme * Z)) (cs : Z) (cl : Lexeme) (fuel : nat) :
  0 <= p <= Py.len src ->
  skipn (Z.to_nat p) src = body ++ hex_tail tail ->
  forallb blank_or_hex body = true ->
  match tail with Some (t, _) => blank_or_hex t = false | None => True end ->
  hd 0 (skipn (Z.to_nat p) src) <> OPEN_ANGLE_BRACKET ->
  (List.length body + 3 <= fuel)%nat ->
  let r := fst (Lexer.next fuel
                  (state src p OPEN_ANGLE_BRACKET false [] mh cs cl)) in
  match tail with
  | None => r = Raise StopIteration
  | Some (t, _) =>
      if t =? CLOSE_ANGLE_BRACKET
      then r = Ok (PDFHexString (filter is_hex_digit body))
      else is_lexical_error ExpectedCloseAngle (p + Py.len body + 1) r
  end.
Proof.
  intros Hp Hsrc Hbody Htail Hhd Hfuel.
  destruct fuel as [|fuel]; [lia|].
  unfold Lexer.next. lx. cbn [Lexer.remove_blanks]. lx_run.
  destruct (skipn (Z.to_nat p) src) as [|x rest'] eqn:Hskip.
  - (* the input ends right after [<] *)
    destruct body; [|discriminate]. destruct tail as [[? ?]|]; [discriminate|].
    pose proof (rest_nil _ _ Hp Hskip) as ->.
    rewrite peek_none by lia. unfold Lexer.parse_hexadecimal_string. lx.
    rewrite advance_eof, hex_loop_ended. reflexivity.
  - destruct (rest_cons _ _ _ _ (proj1 Hp) Hskip) as (Hlt & Hnth & Hnext).
    rewrite (peek_byte src [] mh cs p OPEN_ANGLE_BRACKET 1 x)
      by (try lia; replace (p + 1 - 1) with p by lia; exact Hnth).
    cbn [hd] in Hhd. lx.
    destruct (Z.eqb_spec x OPEN_ANGLE_BRACKET) as [|_]; [contradiction|].
    unfold Lexer.parse_hexadecimal_string. lx.
    rewrite (advance_byte _ _ _ _ _ _ _ _ _ (proj1 Hp) Hskip).
    rewrite (hex_loop_spec src [] mh cs body (p + 1) x [] (S fuel) tail cl);
      [ | lia | rewrite Hnext; exact Hsrc | assumption | assumption | lia ].
    destruct tail as [[t rest]|]; [|reflexivity].
    cbn [hex_tail] in Hsrc. rewrite <- Hskip in Hsrc.
    destruct (skipn_app_after _ _ _ _ Hp Hsrc) as [Hafter Hlen].
    cbn [app] in *.
    assert (Hlen' : p + Py.len body + 1 + Py.len rest = Py.len src).
    { unfold Py.len in *. cbn [List.length] in Hlen. lia. }
    assert (Hq : 0 <= p + 1 + Py.len body <= Py.len src)
      by (unfold Py.len in *; lia).
    lx. destruct (Z.eqb_spec t CLOSE_ANGLE_BRACKET) as [->|Ht]; lx.
    + assert (Ht : skipn (Z.to_nat (p + 1 + Py.len body)) src = rest).
      { replace (p + 1 + Py.len body) with (p + Py.len body + 1) by lia.
        assert (H0 : 0 <= p + Py.len body) by (unfold Py.len; lia).
        destruct (rest_cons _ _ _ _ H0 Hafter) as (_ & _ & H). exact H. }
      destruct rest as [|c' rest''].
      * rewrite (rest_nil _ _ Hq Ht), advance_eof. reflexivity.
      * rewrite (advance_byte _ _ _ _ _ _ _ _ _ (proj1 Hq) Ht). reflexivity.
    + destruct (raise_lexer_error_spec ExpectedCloseAngle src
                  (p + 1 + Py.len body) t false [] mh cs cl Hq)
        as (ctx & rel & ->).
      exists ctx, rel. cbn [fst]. do 2 f_equal. lia.
Qed.

(** [hex_string_outcome] on a closed, a malformed and an unterminated
    hexadecimal string. *)
Lemma hex_string_outcome_witness :
  fst (Lexer.next 10 (state (Py.b "<4 E6F>") 1 60 false [] [] 200 PyNone))
  = Ok (PDFHexString (Py.b "4E6F"))
  /\ is_lexical_error ExpectedCloseAngle 4
       (fst (Lexer.next 10 (state (Py.b "<4Ex>") 1 60 false [] [] 200 PyNone)))
  /\ fst (Lexer.next 10 (state (Py.b "<4E") 1 60 false [] [] 200 PyNone))
     = Raise StopIteration.
Proof.
  split; [|split].
  - apply (hex_string_outcome (Py.b "<4 E6F>") (Py.b "4 E6F")
             (Some (62, [])) 1 [] 200 PyNone 10);
      try reflexivity; cbn; try lia; discriminate.
  - apply (hex_string_outcome (Py.b "<4Ex>") (Py.b "4E")
             (Some (120, [62])) 1 [] 200 PyNone 10);
      try reflexivity; cbn; try lia; discriminate.
  - apply (hex_string_outcome (Py.b "<4E") (Py.b "4E") None 1 [] 200 PyNone 10);
      try reflexivity; cbn; try lia; try discriminate; exact I.
Defined.

(** C5 (counterexample). On the unterminated hexadecimal string [<4E] the
    pull raises [StopIteration]; it is not a lexical error. *)
Lemma hex_unterminated_counterexample :
  fst (Lexer.on (Lexer.init (Py.b "<4E") 200) (Lexer.next 10))
  = Raise StopIteration
  /\ ~ (exists msg pos,
          is_lexical_error msg pos
            (fst (Lexer.on (Lexer.init (Py.b "<4E") 200) (Lexer.next 10)))).
Proof.
  split; [reflexivity|].
  intros (msg & pos & ctx & rel & H). vm_compute in H. discriminate H.
Qed.

(** ** String literals *)

(** C6. On the literal [(\x81)] the UTF-8 decoding fails and so does the
    cp1252 fallback, in which byte 0x81 is unmapped: the pull raises
    [UnicodeDecodeError], whatever the loop budget (three or more). *)
Theorem string_literal_undecodable (fuel : nat) :
  (3 <= fuel)%nat ->
  Lexer.on (Lexer.init (Py.b "(" ++ [129] ++ Py.b ")") 200) (Lexer.next fuel)
  = (Raise UnicodeDecodeError,
     Some (state (Py.b "(" ++ [129] ++ Py.b ")") 3 32 true [] [] 200 PyNone)).
Proof.
  intros H. do 3 (destruct fuel as [|fuel]; [lia|]). reflexivity.
Qed.

(** [string_literal_undecodable] with the smallest budget. *)
Lemma string_literal_undecodable_witness :
  Lexer.on (Lexer.init (Py.b "(" ++ [129] ++ Py.b ")") 200) (Lexer.next 3)
  = (Raise UnicodeDecodeError,
     Some (state (Py.b "(" ++ [129] ++ Py.b ")") 3 32 true [] [] 200 PyNone)).
Proof. apply (string_literal_undecodable 3). lia. Defined.

(** ** What tokenizing never changes *)

Lemma frame_refl (st : Lexer.t) : frame st st.
Proof. unfold frame. tauto. Qed.

Lemma frame_trans (a b c : Lexer.t) : frame a b -> frame b c -> frame a c.
Proof.
  unfold frame. intros (H1 & H2 & H3 & H4 & H5 & H6) (G1 & G2 & G3 & G4 & G5 & G6).
  repeat split; try congruence. auto.
Qed.

Lemma read_frame (n : Z) (s : Seekable.t) :
  Seekable.source (snd (Seekable.read n s)) = Seekable.source s
  /\ Seekable.len (snd (Seekable.read n s)) = Seekable.len s.
Proof.
  unfold Seekable.read.
  destruct (Seekable.pos s =? Seekable.len s); [now split|].
  destruct (n =? 1); [|now split].
  destruct (Py.getitem (Seekable.source s) (Seekable.pos s)); now split.
Qed.

Lemma sound_ret {A} (a : A) : sound (Lexer.ret a).
Proof. intros st. split; [apply frame_refl | discriminate]. Qed.

Lemma sound_gets {A} (f : Lexer.t -> A) : sound (Lexer.gets f).
Proof. intros st. split; [apply frame_refl | discriminate]. Qed.

Lemma sound_diverge {A} : sound (@Lexer.diverge A).
Proof. intros st. split; [apply frame_refl | discriminate]. Qed.

Lemma sound_raise {A} (e : exn) : e <> StopIteration -> sound (@Lexer.raise A e).
Proof.
  intros He st. split; [apply frame_refl|]. cbn. intros H. congruence.
Qed.

Lemma sound_bind {A B} (m : Lexer.M A) (f : A -> Lexer.M B) :
  sound m -> (forall a, sound (f a)) -> sound (Lexer.bind m f).
Proof.
  intros Hm Hf st. unfold Lexer.bind. specialize (Hm st).
  destruct (m st) as [[a|e|] st1]; cbn [fst snd] in *.
  - destruct (Hf a st1) as [F E]. split; [|exact E].
    eapply frame_trans; [apply Hm | exact F].
  - destruct Hm as [F E]. split; [exact F|].
    intros H. apply E. congruence.
  - split; [apply Hm | discriminate].
Qed.

Lemma sound_set_current (c : Z) : sound (Lexer.modify (Lexer.set_current c)).
Proof. intros st. split; [unfold frame; cbn; tauto | discriminate]. Qed.

Lemma sound_set_ended_true : sound (Lexer.modify (Lexer.set_ended true)).
Proof. intros st. split; [unfold frame; cbn; tauto | discriminate]. Qed.

Lemma sound_set_currentLexeme (l : Lexeme) :
  sound (Lexer.modify (Lexer.set_currentLexeme l)).
Proof. intros st. split; [unfold frame; cbn; tauto | discriminate]. Qed.

Lemma sound_set_lexemesBuffer (l : list Lexeme) :
  sound (Lexer.modify (Lexer.set_lexemesBuffer l)).
Proof. intros st. split; [unfold frame; cbn; tauto | discriminate]. Qed.

Lemma sound_source_tell : sound Lexer.source_tell.
Proof. apply sound_gets. Qed.

Lemma sound_source_seek (off whence : Z) : sound (Lexer.source_seek off whence).
Proof. intros st. split; [unfold frame; cbn; tauto | discriminate]. Qed.

Lemma sound_source_read (n : Z) : sound (Lexer.source_read n).
Proof.
  intros st. unfold Lexer.source_read.
  pose proof (read_frame n (Lexer.source st)) as [H1 H2].
  pose proof (read_spec n) as _.
  destruct (Seekable.read n (Lexer.source st)) as [r s'] eqn:E.
  cbn [fst snd] in *. split.
  - unfold frame. cbn. tauto.
  - intros ->. exfalso. revert E. unfold Seekable.read.
    destruct (Seekable.pos (Lexer.source st) =? Seekable.len (Lexer.source st));
      [discriminate|].
    destruct (n =? 1); [|discriminate].
    destruct (Py.getitem _ _); discriminate.
Qed.

Lemma sound_getitem (v : list Z) (i : Z) : sound (Lexer.getitem v i).
Proof.
  unfold Lexer.getitem. destruct (Py.getitem v i);
    [apply sound_ret | apply sound_raise; discriminate].
Qed.

Lemma sound_append (buffer : list Z) (x : Z) : sound (Lexer.append buffer x).
Proof.
  unfold Lexer.append. destruct ((0 <=? x) && (x <? 256));
    [apply sound_ret | apply sound_raise; discriminate].
Qed.

Lemma sound_unless_ended {A} (m : Lexer.M A) :
  sound m ->
  sound (Lexer.bind (Lexer.gets Lexer.ended)
           (fun e => if e then Lexer.raise StopIteration else m)).
Proof.
  intros Hm st. unfold Lexer.bind, Lexer.gets. cbv beta iota.
  destruct (Lexer.ended st) eqn:E; [|apply Hm].
  cbn. split; [apply frame_refl | auto].
Qed.

Lemma sound_advance : sound Lexer.advance.
Proof.
  unfold Lexer.advance. apply sound_unless_ended.
  apply sound_bind; [apply sound_source_read|].
  intros [|c ?].
  - apply sound_bind; [apply sound_set_current|].
    intros _. apply sound_set_ended_true.
  - apply sound_set_current.
Qed.

Lemma sound_current_lexeme : sound Lexer.current_lexeme.
Proof.
  unfold Lexer.current_lexeme. apply sound_unless_ended, sound_gets.
Qed.

Create HintDb sound discriminated.
#[local] Hint Resolve sound_ret sound_gets sound_diverge sound_set_current
  sound_set_ended_true sound_set_currentLexeme sound_set_lexemesBuffer
  sound_source_tell sound_source_seek sound_source_read sound_getitem
  sound_append sound_advance sound_current_lexeme : sound.

(** Splits a goal [sound m] along the structure of [m]. *)
Ltac sound_step :=
  match goal with
  | |- sound (Lexer.bind _ _) => apply sound_bind; [|intros ?]
  | |- sound (Lexer.raise _) => apply sound_raise; discriminate
  | |- sound (if ?b then _ else _) => destruct b
  | |- sound (match ?x with _ => _ end) => destruct x
  | |- sound _ => solve [auto with sound]
  end.
Ltac sound_auto := repeat sound_step.

Lemma sound_get_context : sound Lexer.get_context.
Proof. unfold Lexer.get_context. sound_auto. Qed.

Lemma sound_raise_lexer_error (msg : LexMsg) :
  sound (Lexer.raise_lexer_error msg).
Proof.
  unfold Lexer.raise_lexer_error.
  apply sound_bind; [apply sound_get_context|]. intros [[? ?] ?]. sound_auto.
Qed.

Lemma sound_peek (k : Z) : sound (Lexer.peek k).
Proof. unfold Lexer.peek. sound_auto. Qed.

#[local] Hint Resolve sound_raise_lexer_error sound_peek : sound.

(** ** An induction principle for the tokenizer

    Whatever holds of the basic steps of [__next__] (reading a field,
    advancing, peeking, raising a lexical error, setting the current
    lexeme or the push-back stack) and is kept by sequencing holds of
    every parsing function and of [__next__] itself. *)

Section TokenizerInduction.

Variable Q : forall A : Type, Lexer.M A -> Prop.

Hypothesis Q_ret : forall A (a : A), Q A (Lexer.ret a).
Hypothesis Q_bind :
  forall A B (m : Lexer.M A) (f : A -> Lexer.M B),
    Q A m -> (forall a, Q B (f a)) -> Q B (Lexer.bind m f).
Hypothesis Q_raise :
  forall A (e : exn), e <> StopIteration -> Q A (Lexer.raise e).
Hypothesis Q_diverge : forall A, Q A Lexer.diverge.
Hypothesis Q_gets : forall A (f : Lexer.t -> A), Q A (Lexer.gets f).
Hypothesis Q_advance : Q unit Lexer.advance.
Hypothesis Q_peek : forall k, Q (option Z) (Lexer.peek k).
Hypothesis Q_raise_lexer_error :
  forall msg, Q unit (Lexer.raise_lexer_error msg).
Hypothesis Q_set_currentLexeme :
  forall l, Q unit (Lexer.modify (Lexer.set_currentLexeme l)).
Hypothesis Q_set_lexemesBuffer :
  forall l, Q unit (Lexer.modify (Lexer.set_lexemesBuffer l)).

Lemma Q_source_tell : Q Z Lexer.source_tell.
Proof. apply Q_gets. Qed.

Lemma Q_append (buffer : list Z) (x : Z) : Q _ (Lexer.append buffer x).
Proof.
  unfold Lexer.append. destruct ((0 <=? x) && (x <? 256));
    [apply Q_ret | apply Q_raise; discriminate].
Qed.

#[local] Hint Resolve Q_ret Q_diverge Q_gets Q_advance Q_peek
  Q_raise_lexer_error Q_set_currentLexeme Q_set_lexemesBuffer Q_source_tell
  Q_append : core.

Ltac tok_step :=
  match goal with
  | |- Q _ (Lexer.bind _ _) => apply Q_bind; [|intros ?]
  | |- Q _ (Lexer.raise _) => apply Q_raise; discriminate
  | |- Q _ (if ?b then _ else _) => destruct b
  | |- Q _ (match ?x with _ => _ end) => destruct x
  | |- Q _ _ => solve [auto]
  end.
Ltac tok_auto := repeat tok_step.

Lemma Q_skip_comment (fuel : nat) : Q _ (Lexer.skip_comment fuel).
Proof. induction fuel; cbn [Lexer.skip_comment]; tok_auto. Qed.

#[local] Hint Resolve Q_skip_comment : core.

Lemma Q_remove_blanks (fuel : nat) : Q _ (Lexer.remove_blanks fuel).
Proof. induction fuel; cbn [Lexer.remove_blanks]; tok_auto. Qed.

Lemma Q_octal_digits (fuel : nat) :
  forall digits, Q _ (Lexer.octal_digits fuel digits).
Proof. induction fuel; intros; cbn [Lexer.octal_digits]; tok_auto. Qed.

#[local] Hint Resolve Q_remove_blanks Q_octal_digits : core.

Lemma Q_string_loop (fuel : nat) :
  forall openParentheses buffer,
    Q _ (Lexer.string_loop fuel openParentheses buffer).
Proof. induction fuel; intros; cbn [Lexer.string_loop]; tok_auto. Qed.

Lemma Q_decode_string (buffer : list Z) : Q _ (Lexer.decode_string buffer).
Proof. unfold Lexer.decode_string. tok_auto. Qed.

#[local] Hint Resolve Q_string_loop Q_decode_string : core.

Lemma Q_parse_string_literal (fuel : nat) :
  Q _ (Lexer.parse_string_literal fuel).
Proof. unfold Lexer.parse_string_literal. tok_auto. Qed.

Lemma Q_hex_loop (fuel : nat) : forall buffer, Q _ (Lexer.hex_loop fuel buffer).
Proof. induction fuel; intros; cbn [Lexer.hex_loop]; tok_auto. Qed.

#[local] Hint Resolve Q_hex_loop : core.

Lemma Q_parse_hexadecimal_string (fuel : nat) :
  Q _ (Lexer.parse_hexadecimal_string fuel).
Proof. unfold Lexer.parse_hexadecimal_string. tok_auto. Qed.

Lemma Q_name_loop (fuel : nat) :
  forall buffer, Q _ (Lexer.name_loop fuel buffer).
Proof. induction fuel; intros; cbn [Lexer.name_loop]; tok_auto. Qed.

#[local] Hint Resolve Q_name_loop : core.

Lemma Q_parse_name (fuel : nat) : Q _ (Lexer.parse_name fuel).
Proof. unfold Lexer.parse_name. tok_auto. Qed.

Lemma Q_digits_loop (fuel : nat) :
  forall buff, Q _ (Lexer.digits_loop fuel buff).
Proof. induction fuel; intros; cbn [Lexer.digits_loop]; tok_auto. Qed.

#[local] Hint Resolve Q_digits_loop : core.

Lemma Q_parse_number (fuel : nat) : Q _ (Lexer.parse_number fuel).
Proof. unfold Lexer.parse_number. tok_auto. Qed.

Lemma Q_literal_differs (lit : list Z) :
  forall i, Q _ (Lexer.literal_differs i lit).
Proof. induction lit; intros; cbn [Lexer.literal_differs]; tok_auto. Qed.

Lemma Q_advance_times (n : nat) : Q _ (Lexer.advance_times n).
Proof. induction n; cbn [Lexer.advance_times]; tok_auto. Qed.

#[local] Hint Resolve Q_literal_differs Q_advance_times : core.

Lemma Q_parse_literal (lit : list Z) : Q _ (Lexer.parse_literal lit).
Proof. unfold Lexer.parse_literal. tok_auto. Qed.

#[local] Hint Resolve Q_parse_literal : core.

Lemma Q_match_keyword_in (keywords : list (list Z)) :
  Q _ (Lexer.match_keyword_in keywords).
Proof. induction keywords; cbn [Lexer.match_keyword_in]; tok_auto. Qed.

#[local] Hint Resolve Q_parse_string_literal Q_parse_hexadecimal_string
  Q_parse_name Q_parse_number Q_match_keyword_in : core.

Lemma Q_next (fuel : nat) : Q _ (Lexer.next fuel).
Proof. unfold Lexer.next, Lexer.match_keyword. tok_auto. Qed.

End TokenizerInduction.

(** Pulling a token keeps the frame and signals the end of the sequence
    only with the end flag set. *)
Lemma sound_next (fuel : nat) : sound (Lexer.next fuel).
Proof.
  apply (Q_next (@sound)); intros.
  - apply sound_ret.
  - now apply sound_bind.
  - now apply sound_raise.
  - apply sound_diverge.
  - apply sound_gets.
  - apply sound_advance.
  - apply sound_peek.
  - apply sound_raise_lexer_error.
  - apply sound_set_currentLexeme.
  - apply sound_set_lexemesBuffer.
Qed.

(** ** The lookahead invariant *)

Lemma keeps_ret {A} (a : A) : keeps (Lexer.ret a).
Proof. intros st H. exact H. Qed.

Lemma keeps_gets {A} (f : Lexer.t -> A) : keeps (Lexer.gets f).
Proof. intros st H. exact H. Qed.

Lemma keeps_raise {A} (e : exn) : keeps (@Lexer.raise A e).
Proof. intros st H. exact H. Qed.

Lemma keeps_diverge {A} : keeps (@Lexer.diverge A).
Proof. intros st H. exact H. Qed.

Lemma keeps_bind {A B} (m : Lexer.M A) (f : A -> Lexer.M B) :
  keeps m -> (forall a, keeps (f a)) -> keeps (Lexer.bind m f).
Proof.
  intros Hm Hf st H. unfold Lexer.bind. specialize (Hm st H).
  destruct (m st) as [[a|e|] st1]; cbn [snd] in *; auto.
  now apply Hf.
Qed.

Lemma keeps_set_currentLexeme (l : Lexeme) :
  keeps (Lexer.modify (Lexer.set_currentLexeme l)).
Proof. intros st H. exact H. Qed.

Lemma keeps_set_lexemesBuffer (l : list Lexeme) :
  keeps (Lexer.modify (Lexer.set_lexemesBuffer l)).
Proof. intros st H. exact H. Qed.

(** A well-formed lexer is a [state] over its buffer. *)
Lemma lexer_wf_state (st : Lexer.t) :
  lexer_wf st ->
  exists src p,
    0 <= p <= Py.len src
    /\ st = state src p (Lexer.current st) (Lexer.ended st)
              (Lexer.lexemesBuffer st) (Lexer.movesHistory st)
              (Lexer.contextSize st) (Lexer.currentLexeme st).
Proof.
  destruct st as [[src p len] L c lb mh cs e cl].
  intros [[Hlen Hp] HL].
  cbn [Lexer.source Lexer.length Seekable.source Seekable.pos Seekable.len] in *.
  subst L len. exists src, p. split; [exact Hp | reflexivity].
Qed.

Lemma keeps_advance : keeps Lexer.advance.
Proof.
  intros st [Hwf Hprimed].
  destruct (lexer_wf_state st Hwf) as (src & p & Hp & Hst).
  destruct st as [s L c lb mh cs e cl]. cbn [Lexer.current Lexer.ended
    Lexer.lexemesBuffer Lexer.movesHistory Lexer.contextSize
    Lexer.currentLexeme] in Hst. injection Hst as -> ->.
  destruct e.
  - rewrite advance_ended by reflexivity. split; assumption.
  - destruct (skipn (Z.to_nat p) src) as [|c' rest] eqn:Hskip.
    + rewrite (rest_nil _ _ Hp Hskip), advance_eof. split.
      * split; [split; [reflexivity | cbn; unfold Py.len; lia] | reflexivity].
      * discriminate.
    + destruct (rest_cons _ _ _ _ (proj1 Hp) Hskip) as (Hlt & Hnth & _).
      rewrite (advance_byte _ _ _ _ _ _ _ _ _ (proj1 Hp) Hskip). split.
      * split; [split; [reflexivity | cbn; lia] | reflexivity].
      * intros _. cbn [snd Lexer.source Seekable.pos Seekable.source
                       Lexer.current].
        split; [lia|]. replace (p + 1 - 1) with p by lia.
        now rewrite getitem_nth by lia.
Qed.

(** [__peek] leaves a well-formed lexer as it found it. *)
Lemma peek_restores (k : Z) (st : Lexer.t) :
  lexer_wf st -> snd (Lexer.peek k st) = st.
Proof.
  intros Hwf. destruct (lexer_wf_state st Hwf) as (src & p & Hp & ->).
  unfold Lexer.peek. lxm. unfold Seekable.tell. cbn [Seekable.pos].
  destruct (p + (k - 1) >=? Py.len src); [reflexivity|].
  set (s1 := Seekable.seek (k - 1) 1 (Seekable.mk src p (Py.len src))).
  assert (Hwf1 : Seekable.wf s1).
  { apply seek_wf. split; [reflexivity | exact Hp]. }
  destruct (read_spec 1 s1 Hwf1) as (val & Hr & _ & _).
  rewrite Hr. lxm.
  rewrite seek_abs_gen by (cbn [Seekable.len Seekable.set_pos]; exact Hp).
  cbn [Seekable.source Seekable.len Seekable.set_pos].
  unfold s1. rewrite (proj1 (seek_frame _ _ _)), (proj2 (seek_frame _ _ _)).
  cbn [Seekable.source Seekable.len].
  destruct (Py.getitem val 0); reflexivity.
Qed.

Lemma keeps_peek (k : Z) : keeps (Lexer.peek k).
Proof. intros st H. rewrite peek_restores; [exact H | apply H]. Qed.

Lemma keeps_raise_lexer_error (msg : LexMsg) :
  keeps (Lexer.raise_lexer_error msg).
Proof.
  intros st H. destruct (lexer_wf_state st (proj1 H)) as (src & p & Hp & Hst).
  rewrite Hst.
  destruct (raise_lexer_error_spec msg src p (Lexer.current st)
              (Lexer.ended st) (Lexer.lexemesBuffer st) (Lexer.movesHistory st)
              (Lexer.contextSize st) (Lexer.currentLexeme st) Hp)
    as (ctx & rel & ->).
  cbn [snd]. rewrite <- Hst. exact H.
Qed.

(** Pulling a token keeps the lookahead invariant. *)
Lemma keeps_next (fuel : nat) : keeps (Lexer.next fuel).
Proof.
  apply (Q_next (@keeps)); intros.
  - apply keeps_ret.
  - now apply keeps_bind.
  - apply keeps_raise.
  - apply keeps_diverge.
  - apply keeps_gets.
  - apply keeps_advance.
  - apply keeps_peek.
  - apply keeps_raise_lexer_error.
  - apply keeps_set_currentLexeme.
  - apply keeps_set_lexemesBuffer.
Qed.

Lemma tokenizing_primed (st : Lexer.t) :
  tokenizing st <-> primed st /\ Lexer.ended st = false.
Proof.
  unfold tokenizing, primed. split.
  - intros (Hwf & He & H). split; [split|]; auto.
  - intros ((Hwf & H) & He). split; [|split]; auto.
Qed.

(** The lexer built over a non-empty buffer is in the middle of its
    input, and so is the lexer after each pull that does not reach the end
    of the buffer. *)
Lemma tokenizing_init (c : Z) (rest : list Z) (cs : Z) :
  exists st, Lexer.init (c :: rest) cs = Ok st /\ tokenizing st.
Proof.
  rewrite init_cons. eexists. split; [reflexivity|].
  unfold tokenizing, lexer_wf, Seekable.wf.
  cbn [Lexer.source Lexer.length Lexer.ended Lexer.current Seekable.source
       Seekable.pos Seekable.len].
  assert (1 <= Py.len (c :: rest)) by (unfold Py.len; cbn [List.length]; lia).
  repeat split; try lia.
Qed.

Lemma tokenizing_next (fuel : nat) (st : Lexer.t) :
  tokenizing st ->
  Lexer.ended (snd (Lexer.next fuel st)) = false ->
  tokenizing (snd (Lexer.next fuel st)).
Proof.
  intros H He. apply tokenizing_primed. split; [|exact He].
  apply keeps_next. now apply tokenizing_primed.
Qed.

(** ** Repositioning *)

Lemma nth_error_skipn (src : list Z) (i : nat) (c : Z) :
  nth_error src i = Some c -> skipn i src = c :: skipn (S i) src.
Proof.
  revert i. induction src as [|x src IH]; intros [|i] H; cbn in *;
    try discriminate.
  - congruence.
  - now apply IH.
Qed.

(** C8 (as amended). Once a pull has raised [StopIteration] the end flag
    is set and nothing resets it: for every position [p] and every loop
    budget, [move_at_position] raises [StopIteration] again and leaves the
    lexer as it was. *)
Theorem ended_is_final (fuel : nat) (st st' : Lexer.t) :
  Lexer.next fuel st = (Raise StopIteration, st') ->
  forall (fuel' : nat) (p : Z),
    Lexer.move_at_position fuel' p st' = (Raise StopIteration, st').
Proof.
  intros H fuel' p.
  destruct (sound_next fuel st) as [_ E]. rewrite H in E. cbn [fst snd] in E.
  specialize (E eq_refl).
  destruct st' as [s' L' c' lb' mh' cs' e' cl']. cbn [Lexer.ended] in E.
  subst e'. reflexivity.
Qed.

(** [ended_is_final] on the buffer [12], after the pull that reached its
    end. *)
Lemma ended_is_final_witness :
  Lexer.move_at_position 10 0 (state (Py.b "12") 2 32 true [] [] 200 (PyInt 12))
  = (Raise StopIteration, state (Py.b "12") 2 32 true [] [] 200 (PyInt 12)).
Proof.
  apply (ended_is_final 10
           (state (Py.b "12") 2 32 true [] [] 200 (PyInt 12))).
  reflexivity.
Defined.

(** C8 (counterexample). On the buffer [12] the first pull returns the
    integer 12, the second raises [StopIteration], and a following
    [move_at_position(0)] raises [StopIteration] again, although position
    0 is where the lexeme 12 starts. *)
Lemma restart_counterexample :
  exists st0 st1 st2,
    Lexer.init (Py.b "12") 200 = Ok st0
    /\ Lexer.next 10 st0 = (Ok (PyInt 12), st1)
    /\ Lexer.next 10 st1 = (Raise StopIteration, st2)
    /\ fst (Lexer.move_at_position 10 0 st2) = Raise StopIteration
    /\ fst (Lexer.move_at_position 10 0 st2) <> Ok (PyInt 12).
Proof.
  exists (state (Py.b "12") 1 49 false [] [] 200 PyNone),
         (state (Py.b "12") 2 32 true [] [] 200 (PyInt 12)),
         (state (Py.b "12") 2 32 true [] [] 200 (PyInt 12)).
  repeat split; try reflexivity. discriminate.
Qed.

(** C2 (as amended). From a lexer in the middle of its input, if
    [move_at_position(p)] ends (with a lexeme or an exception) without the
    end of the buffer having been reached, then [move_back()] succeeds and
    gives back the lexer as it was before the move: same current lexeme,
    cursor position, lookahead byte, end flag and history; only the
    push-back stack is what the move left. *)
Theorem move_back_restores (fuel : nat) (p : Z) (st st' : Lexer.t)
  (r : outcome Lexeme) :
  tokenizing st ->
  Lexer.move_at_position fuel p st = (r, st') ->
  Lexer.ended st' = false ->
  Lexer.move_back st'
  = (Ok tt, Lexer.set_lexemesBuffer (Lexer.lexemesBuffer st') st).
Proof.
  intros ([[Hlen Hpos] HL] & He & Hp1 & Hcur) Hmove He'.
  destruct st as [[src pos len] L c lb mh cs e cl].
  cbn [Lexer.source Lexer.length Lexer.ended Lexer.current Seekable.source
       Seekable.pos Seekable.len] in *.
  subst L e len.
  revert Hmove. unfold Lexer.move_at_position, Lexer.current_lexeme. lxm.
  unfold Seekable.tell. cbn [Seekable.pos]. intros Hmove.
  set (st1 := Lexer.mk (Seekable.seek p 0 (Seekable.mk src pos (Py.len src)))
                (Py.len src) c lb ((cl, pos) :: mh) cs false cl) in Hmove.
  pose proof (sound_bind Lexer.advance (fun _ => Lexer.next fuel)
                sound_advance (fun _ => sound_next fuel) st1) as [F _].
  unfold Lexer.bind at 1 in F. rewrite Hmove in F. cbn [snd] in F.
  destruct F as (F1 & F2 & F3 & F4 & F5 & _).
  destruct st' as [[src' pos' len'] L' c' lb' mh' cs' e' cl'].
  cbn [Lexer.source Lexer.length Lexer.ended Lexer.current Seekable.source
       Seekable.pos Seekable.len Lexer.movesHistory Lexer.contextSize st1
       Seekable.seek Seekable.set_pos] in *.
  subst src' len' L' mh' cs' e'.
  unfold Lexer.move_back. lxm.
  rewrite seek_abs_gen by (cbn [Seekable.len]; lia).
  cbn [Seekable.source Seekable.len].
  rewrite getitem_nth in Hcur by lia.
  apply nth_error_skipn in Hcur.
  assert (Hp0 : 0 <= pos - 1) by lia.
  rewrite (advance_byte src lb' mh cs (pos - 1) c' c _ cl Hp0 Hcur).
  replace (pos - 1 + 1) with pos by lia. reflexivity.
Qed.

(** [move_back_restores] on [12\n34 ]: the move to offset 3 yields 34 and
    stops before the trailing blank; the move back restores the state
    reached after the first pull. *)
Lemma move_back_restores_witness :
  Lexer.move_back
    (state two_numbers_blank 6 32 false [] [(PyInt 12, 3)] 200 (PyInt 34))
  = (Ok tt, state two_numbers_blank 3 10 false [] [] 200 (PyInt 12)).
Proof.
  apply (move_back_restores 10 3
           (state two_numbers_blank 3 10 false [] [] 200 (PyInt 12))
           (state two_numbers_blank 6 32 false [] [(PyInt 12, 3)] 200
                  (PyInt 34))
           (Ok (PyInt 34))).
  - unfold tokenizing, lexer_wf, Seekable.wf. cbn. repeat split; lia.
  - reflexivity.
  - reflexivity.
Defined.

(** C2 (counterexample). On the buffer [12\n34], after the first pull has
    produced 12 (cursor at 3, lookahead the line feed, end flag clear),
    [move_at_position(3)] returns 34 and reaches the end of the buffer;
    [move_back()] then raises [StopIteration] and leaves the cursor at 2
    with the blank sentinel as lookahead. *)
Lemma move_back_counterexample :
  exists st st' st'',
    Lexer.on (Lexer.init two_numbers 200) (Lexer.next 10)
    = (Ok (PyInt 12), Some st)
    /\ tokenizing st
    /\ Lexer.move_at_position 10 3 st = (Ok (PyInt 34), st')
    /\ Lexer.move_back st' = (Raise StopIteration, st'')
    /\ Seekable.tell (Lexer.source st) = 3
    /\ Seekable.tell (Lexer.source st'') = 2
    /\ Lexer.current st = 10
    /\ Lexer.current st'' = 32.
Proof.
  exists (state two_numbers 3 10 false [] [] 200 (PyInt 12)),
         (state two_numbers 5 32 true [] [(PyInt 12, 3)] 200 (PyInt 34)),
         (state two_numbers 2 32 true [] [] 200 (PyInt 12)).
  split; [reflexivity|]. split.
  - unfold tokenizing, lexer_wf, Seekable.wf. cbn. repeat split; lia.
  - repeat split; reflexivity.
Qed.

(** ** Deferred stream readers *)

(** What [read_stream] returns and what it leaves behind, for every
    length and every origin inside the buffer. *)
Lemma read_stream_spec (src : list Z) (pos c origin L : Z) lb mh cs cl :
  0 <= pos <= Py.len src -> 0 <= origin <= Py.len src ->
  let data := Py.slice src origin
                (origin + (if L <=? 0 then Py.len src else L)) in
  let la := lookahead_after_stream
              (skipn (Z.to_nat (origin + Py.len data)) src) in
  Lexer.read_stream origin L (state src pos c false lb mh cs cl)
  = (Ok data, state src pos (fst la) (snd la) lb mh cs cl).
Proof.
  intros Hpos Horigin data la.
  unfold Lexer.read_stream. lxm. unfold Seekable.tell. cbn [Seekable.pos].
  rewrite seek_abs by exact Horigin.
  assert (Hwf : Seekable.wf (Seekable.mk src origin (Py.len src)))
    by (split; [reflexivity | exact Horigin]).
  destruct (read_spec L _ Hwf) as (val & Hr & Hval & Hle).
  unfold Seekable.set_pos in Hr.
  cbn [Seekable.source Seekable.pos Seekable.len] in *.
  rewrite Hr. fold data in Hval. subst val. lxm.
  assert (Hp1 : 0 <= origin + Py.len data <= Py.len src)
    by (unfold Py.len in *; lia).
  unfold la, lookahead_after_stream.
  destruct (skipn (Z.to_nat (origin + Py.len data)) src)
    as [|x after'] eqn:Hafter.
  - rewrite (rest_nil _ _ Hp1 Hafter), advance_eof. lx_run.
    rewrite seek_abs by exact Hpos. reflexivity.
  - destruct (rest_cons _ _ _ _ (proj1 Hp1) Hafter) as (Hlt & _ & Hnext).
    rewrite (advance_byte _ _ _ _ _ _ _ _ _ (proj1 Hp1) Hafter). lxm.
    destruct (Z.eqb_spec x LINE_FEED) as [->|Hx]; lxm.
    + destruct after' as [|y after''].
      * assert (Hp2 : 0 <= origin + Py.len data + 1 <= Py.len src) by lia.
        rewrite (rest_nil _ _ Hp2 Hnext), advance_eof. lxm.
        rewrite seek_abs by exact Hpos. reflexivity.
      * assert (Hp2 : 0 <= origin + Py.len data + 1) by lia.
        rewrite (advance_byte _ _ _ _ _ _ _ _ _ Hp2 Hnext). lxm.
        rewrite seek_abs by exact Hpos. reflexivity.
    + rewrite seek_abs by exact Hpos. reflexivity.
Qed.

(** ** Literal keywords *)

Lemma last_cons (l : list Z) : forall x c, last (x :: l) c = last l x.
Proof.
  induction l as [|y l IH]; intros x c; [reflexivity|].
  change (last (x :: y :: l) c) with (last (y :: l) c).
  rewrite (IH y c). symmetry. apply IH.
Qed.

Section Literals.

Variable src : list Z.
Variables (lb : list Lexeme) (mh : list (Lexeme * Z)) (cs : Z).

Local Abbreviation st_at p c e cl := (state src p c e lb mh cs cl).

Lemma literal_differs_match (lit : list Z) :
  forall (i p c : Z) (e : bool) (cl : Lexeme) (rest : list Z),
  0 <= p <= Py.len src -> 0 <= p + i - 1 ->
  skipn (Z.to_nat (p + i - 1)) src = lit ++ rest ->
  Lexer.literal_differs i lit (st_at p c e cl) = (Ok false, st_at p c e cl).
Proof.
  induction lit as [|l lit IH]; intros i p c e cl rest Hp Hi Hsrc;
    cbn [Lexer.literal_differs]; [reflexivity|].
  cbn [app] in Hsrc.
  destruct (rest_cons _ _ _ _ Hi Hsrc) as (_ & Hnth & Hnext).
  lxm. rewrite (peek_byte src lb mh cs p c i l e cl Hp Hi Hnth).
  rewrite Z.eqb_refl.
  apply (IH (i + 1) p c e cl rest Hp); [lia|].
  replace (p + (i + 1) - 1) with (p + i - 1 + 1) by lia. exact Hnext.
Qed.

Lemma parse_literal_mismatch (l x : Z) (lit rest : list Z) (p c : Z)
  (e : bool) (cl : Lexeme) :
  1 <= p <= Py.len src ->
  skipn (Z.to_nat (p - 1)) src = x :: rest -> l <> x ->
  Lexer.parse_literal (l :: lit) (st_at p c e cl) = (Ok false, st_at p c e cl).
Proof.
  intros Hp Hsrc Hl.
  assert (H0 : 0 <= p + 0 - 1) by lia.
  replace (p - 1) with (p + 0 - 1) in Hsrc by lia.
  destruct (rest_cons _ _ _ _ H0 Hsrc) as (_ & Hnth & _).
  unfold Lexer.parse_literal. cbn [Lexer.literal_differs]. lxm.
  rewrite (peek_byte src lb mh cs p c 0 x e cl) by (auto; lia).
  destruct (Z.eqb_spec x l); [congruence | reflexivity].
Qed.

Lemma advance_times_spec (l : list Z) :
  forall (p c : Z) (cl : Lexeme) (rest : list Z),
  0 <= p -> skipn (Z.to_nat p) src = l ++ rest ->
  Lexer.advance_times (List.length l) (st_at p c false cl)
  = (Ok tt, st_at (p + Py.len l) (last l c) false cl).
Proof.
  induction l as [|x l IH]; intros p c cl rest Hp Hsrc;
    cbn [Lexer.advance_times List.length].
  - unfold Py.len. cbn [List.length Z.of_nat last]. now rewrite Z.add_0_r.
  - cbn [app] in Hsrc.
    destruct (rest_cons _ _ _ _ Hp Hsrc) as (_ & _ & Hnext).
    lxm. rewrite (advance_byte _ _ _ _ _ _ _ _ _ Hp Hsrc).
    rewrite (IH (p + 1) x cl rest) by (lia || exact Hnext).
    rewrite last_cons. do 3 f_equal. unfold Py.len. cbn [List.length]. lia.
Qed.

(** A literal that is in the buffer at the lookahead byte, with a byte
    [e0] after it, is matched and consumed; [e0] is the new lookahead. *)
Lemma parse_literal_match (l0 : Z) (lit' rest : list Z) (p c e0 : Z)
  (cl : Lexeme) :
  1 <= p <= Py.len src ->
  skipn (Z.to_nat (p - 1)) src = (l0 :: lit') ++ e0 :: rest ->
  Lexer.parse_literal (l0 :: lit') (st_at p c false cl)
  = (Ok true, st_at (p + Py.len (l0 :: lit')) e0 false cl).
Proof.
  intros Hp Hsrc. unfold Lexer.parse_literal. lxm.
  rewrite (literal_differs_match (l0 :: lit') 0 p c false cl (e0 :: rest))
    by (try lia; replace (p + 0 - 1) with (p - 1) by lia; exact Hsrc).
  lxm.
  assert (H0 : 0 <= p - 1) by lia.
  cbn [app] in Hsrc.
  destruct (rest_cons _ _ _ _ H0 Hsrc) as (_ & _ & Hnext).
  replace (p - 1 + 1) with p in Hnext by lia.
  assert (Hl : List.length (l0 :: lit') = List.length (lit' ++ [e0]))
    by (rewrite length_app; cbn [List.length]; lia).
  rewrite Hl.
  rewrite (advance_times_spec (lit' ++ [e0]) p c cl rest)
    by (try lia; rewrite <- app_assoc; exact Hnext).
  rewrite last_last. do 3 f_equal. unfold Py.len. rewrite Hl. reflexivity.
Qed.

End Literals.

(** Replaces a literal [Py.b "..."] by the list of its bytes. *)
Ltac bytes_of t :=
  let v := eval vm_compute in t in change t with v in *.

(** The [stream] keyword followed by an end-of-line marker yields the
    closure [read_stream] with [streamPos] just after the marker. *)
Lemma next_stream (src eol rest : list Z) (k : Z) (mh : list (Lexeme * Z))
  (cs : Z) (cl : Lexeme) (fuel : nat) :
  0 <= k ->
  skipn (Z.to_nat k) src = Py.b "stream" ++ eol ++ rest ->
  eol = [LINE_FEED] \/ eol = [CARRIAGE_RETURN; LINE_FEED] ->
  (1 <= fuel)%nat ->
  Lexer.next fuel (state src (k + 1) 115 false [] mh cs cl)
  = (Ok (ReadStream (k + 6 + Py.len eol)),
     state src (k + 6 + Py.len eol) LINE_FEED false [] mh cs
           (ReadStream (k + 6 + Py.len eol))).
Proof.
  intros Hk Hsrc Heol Hfuel. destruct fuel as [|fuel]; [lia|].
  bytes_of (Py.b "stream").
  assert (Hlen : k + 1 <= Py.len src)
    by (destruct (rest_cons _ _ _ _ Hk Hsrc) as (H & _); lia).
  assert (Hp : 1 <= k + 1 <= Py.len src) by lia.
  assert (Hsrc' : skipn (Z.to_nat (k + 1 - 1)) src
                  = [115; 116; 114; 101; 97; 109] ++ eol ++ rest)
    by (replace (k + 1 - 1) with k by lia; exact Hsrc).
  unfold Lexer.next. lx. cbn [Lexer.remove_blanks]. lx_run.
  bytes_of (Py.b "true"). bytes_of (Py.b "false"). bytes_of (Py.b "stream").
  rewrite (parse_literal_mismatch src [] mh cs 116 115 _ _ (k + 1) 115 false cl
             Hp Hsrc') by discriminate. lxm.
  rewrite (parse_literal_mismatch src [] mh cs 102 115 _ _ (k + 1) 115 false cl
             Hp Hsrc') by discriminate. lxm.
  destruct Heol as [-> | ->].
  - rewrite (parse_literal_match src [] mh cs 115 [116; 114; 101; 97; 109]
               rest (k + 1) 115 LINE_FEED cl Hp Hsrc').
    lx_run. unfold Py.len. cbn [List.length Z.of_nat].
    replace (k + 1 + Z.pos (Pos.of_succ_nat 5)) with (k + 6 + Z.pos (Pos.of_succ_nat 0)) by lia.
    reflexivity.
  - rewrite (parse_literal_match src [] mh cs 115 [116; 114; 101; 97; 109]
               (LINE_FEED :: rest) (k + 1) 115 CARRIAGE_RETURN cl Hp Hsrc').
    lx_run.
    assert (Hafter : skipn (Z.to_nat (k + 1 + Py.len [115; 116; 114; 101; 97; 109]))
                       src = LINE_FEED :: rest).
    { destruct (skipn_app_after src ([115; 116; 114; 101; 97; 109]
                                      ++ [CARRIAGE_RETURN])
                  (LINE_FEED :: rest) k) as [H _].
      - lia.
      - rewrite <- app_assoc. exact Hsrc.
      - rewrite <- H. f_equal. unfold Py.len. cbn [List.length app]. lia. }
    assert (H0 : 0 <= k + 1 + Py.len [115; 116; 114; 101; 97; 109])
      by (unfold Py.len; lia).
    rewrite (advance_byte _ _ _ _ _ _ _ _ _ H0 Hafter).
    lx_run. unfold Py.len. cbn [List.length Z.of_nat].
    replace (k + 1 + Z.pos (Pos.of_succ_nat 5) + 1)
      with (k + 6 + Z.pos (Pos.of_succ_nat 1)) by lia.
    reflexivity.
Qed.

(** C1 (as amended). Where the [stream] keyword, at offset [k], is followed
    by a line feed or by a carriage return and a line feed, the pull yields
    the closure [read_stream] bound to the offset just after that marker.
    For every length [L] from 1 to the number of bytes [rest] that follow
    the marker, calling the closure on a lexer over the same buffer whose
    end flag is clear, wherever its cursor is, returns exactly the first
    [L] bytes of [rest] and leaves the cursor where it was. *)
Theorem stream_reader (src eol rest : list Z) (k L pos c : Z)
  (lb : list Lexeme) (mh mh' : list (Lexeme * Z)) (cs cs' : Z)
  (cl cl' : Lexeme) (fuel : nat) :
  0 <= k ->
  skipn (Z.to_nat k) src = Py.b "stream" ++ eol ++ rest ->
  eol = [LINE_FEED] \/ eol = [CARRIAGE_RETURN; LINE_FEED] ->
  (1 <= fuel)%nat ->
  1 <= L <= Py.len rest ->
  0 <= pos <= Py.len src ->
  let origin := k + 6 + Py.len eol in
  Lexer.next fuel (state src (k + 1) 115 false [] mh cs cl)
  = (Ok (ReadStream origin),
     state src origin LINE_FEED false [] mh cs (ReadStream origin))
  /\ (exists c' e',
        Lexer.read_stream origin L (state src pos c false lb mh' cs' cl')
        = (Ok (firstn (Z.to_nat L) rest), state src pos c' e' lb mh' cs' cl'))
  /\ Py.len (firstn (Z.to_nat L) rest) = L.
Proof.
  intros Hk Hsrc Heol Hfuel HL Hpos origin.
  split; [now apply (next_stream src eol rest)|].
  assert (Hk' : 0 <= k <= Py.len src)
    by (destruct (rest_cons _ _ _ _ Hk Hsrc) as (H & _); lia).
  rewrite app_assoc in Hsrc.
  destruct (skipn_app_after _ _ _ _ Hk' Hsrc) as [Hrest Hlen].
  assert (Ho : k + Py.len (Py.b "stream" ++ eol) = origin).
  { unfold origin, Py.len. rewrite length_app. cbn [Py.b List.length]. lia. }
  rewrite Ho in *.
  assert (Ho' : 0 <= origin <= Py.len src) by (unfold Py.len in *; lia).
  split.
  - pose proof (read_stream_spec src pos c origin L lb mh' cs' cl' Hpos Ho')
      as H. cbv zeta in H. rewrite H.
    destruct (Z.leb_spec L 0); [lia|].
    rewrite slice_from by lia. rewrite Hrest. eauto.
  - unfold Py.len in *. rewrite length_firstn. lia.
Qed.

(** [stream_reader] on the sample buffer: the reader is bound to offset 7
    and, called with 5, returns [ABCDE]. *)
Lemma stream_reader_witness :
  Lexer.next 10 (state stream_sample (0 + 1) 115 false [] [] 200 PyNone)
  = (Ok (ReadStream 7),
     state stream_sample 7 LINE_FEED false [] [] 200 (ReadStream 7))
  /\ (exists c' e',
        Lexer.read_stream 7 5
          (state stream_sample 7 10 false [] [] 200 (ReadStream 7))
        = (Ok (Py.b "ABCDE"),
           state stream_sample 7 c' e' [] [] 200 (ReadStream 7)))
  /\ Py.len (Py.b "ABCDE") = 5.
Proof.
  apply (stream_reader stream_sample [LINE_FEED]
           (Py.b "ABCDE" ++ [LINE_FEED] ++ Py.b "endstream")
           0 5 7 10 [] [] [] 200 200 PyNone (ReadStream 7) 10).
  - lia.
  - reflexivity.
  - left. reflexivity.
  - lia.
  - cbn. lia.
  - cbn. lia.
Defined.

(** C1 (counterexample). On the sample buffer the reader is bound to
    offset 7; called with length 0, or with length 100, it returns the 15
    bytes from there to the end of the buffer; called on a lexer whose end
    flag is set, it raises [StopIteration] and leaves the cursor at 12
    instead of 7. *)
Lemma stream_reader_counterexample :
  Lexer.on (Lexer.init stream_sample 200) (Lexer.next 10)
  = (Ok (ReadStream 7),
     Some (state stream_sample 7 10 false [] [] 200 (ReadStream 7)))
  /\ fst (Lexer.read_stream 7 0
            (state stream_sample 7 10 false [] [] 200 (ReadStream 7)))
     = Ok (Py.b "ABCDE" ++ [LINE_FEED] ++ Py.b "endstream")
  /\ fst (Lexer.read_stream 7 100
            (state stream_sample 7 10 false [] [] 200 (ReadStream 7)))
     = Ok (Py.b "ABCDE" ++ [LINE_FEED] ++ Py.b "endstream")
  /\ Py.len (Py.b "ABCDE" ++ [LINE_FEED] ++ Py.b "endstream") = 15
  /\ Lexer.read_stream 7 5
       (state stream_sample 7 32 true [] [] 200 (ReadStream 7))
     = (Raise StopIteration,
        state stream_sample 12 32 true [] [] 200 (ReadStream 7)).
Proof. repeat split; reflexivity. Qed.





(** ** Reverse search *)

(** Closes an equation between outcomes that differ by arithmetic only. *)
Ltac arith_eq :=
  repeat match goal with
         | |- @eq Z _ _ => lia
         | |- _ => progress f_equal
         end.

Section Rfind.

Variable src : list Z.
Variables (lb : list Lexeme) (mh : list (Lexeme * Z)) (cs : Z).

Local Abbreviation st_at p c e cl := (state src p c e lb mh cs cl).

(** One backward step: seeking to the byte before [post] and reading it. *)
Lemma read_before (pre post : list Z) (x p : Z) :
  src = pre ++ x :: post ->
  Seekable.read 1
    (Seekable.seek (Py.len src - (Py.len post + 1)) 0
       (Seekable.mk src p (Py.len src)))
  = (Ok [x], Seekable.mk src (Py.len pre + 1) (Py.len src)).
Proof.
  intros Hsrc.
  assert (Hlen : Py.len src = Py.len pre + 1 + Py.len post).
  { rewrite Hsrc. unfold Py.len. rewrite length_app. cbn [List.length]. lia. }
  assert (Hpre : 0 <= Py.len pre <= Py.len src) by (unfold Py.len in *; lia).
  replace (Py.len src - (Py.len post + 1)) with (Py.len pre) by lia.
  rewrite seek_abs by exact Hpre.
  apply (read1_byte src (Py.len pre) x post); [lia|].
  unfold Py.len. rewrite Nat2Z.id. rewrite Hsrc at 1.
  rewrite skipn_app, skipn_all, Nat.sub_diag. reflexivity.
Qed.

Lemma is_eol_mem (x : Z) :
  Py.mem x [CARRIAGE_RETURN; LINE_FEED] = is_eol x.
Proof. reflexivity. Qed.

(** The line loop, scanning a line [rev rl] that a delimiter [d] opens. *)
Lemma rfind_line_delim (rl : list Z) :
  forall (fuel : nat) (buff pre post : list Z) (lastc : option (list Z))
         (d p c : Z) (e : bool) (cl : Lexeme),
  src = pre ++ d :: rev rl ++ post ->
  is_eol d = true -> eol_free rl = true ->
  (List.length rl + 1 <= fuel)%nat ->
  Lexer.rfind_line fuel buff (Py.len post + 1) lastc (st_at p c e cl)
  = (Ok (buff ++ rl, Py.len post + Py.len rl + 2, Some [d]),
     st_at (Py.len pre + 1) c e cl).
Proof.
  induction rl as [|x rl IH];
    intros fuel buff pre post lastc d p c e cl Hsrc Hd Hrl Hfuel;
    (destruct fuel as [|fuel]; [cbn in Hfuel; lia|]);
    cbn [Lexer.rfind_line]; lxm;
    assert (Hlen : Py.len post + 1 <= Py.len src)
      by (rewrite Hsrc; unfold Py.len;
          repeat (rewrite ?length_app; cbn [List.length rev]); lia);
    (destruct (Z.leb_spec (Py.len post + 1) (Py.len src)); [|lia]).
  - cbn [rev app] in Hsrc.
    rewrite (read_before pre post d p Hsrc). lxm.
    change (Py.getitem [d] 0) with (Some d). lxm.
    rewrite is_eol_mem, Hd. lxm.
    rewrite app_nil_r. cbn [Py.len List.length Z.of_nat]. arith_eq.
  - cbn [rev] in Hsrc. rewrite <- !app_assoc in Hsrc. cbn [app] in Hsrc.
    cbn [eol_free forallb] in Hrl. apply andb_true_iff in Hrl as [Hx Hrl].
    rewrite app_comm_cons, app_assoc in Hsrc.
    rewrite (read_before _ post x p Hsrc). lxm.
    change (Py.getitem [x] 0) with (Some x). lxm.
    rewrite is_eol_mem. apply negb_true_iff in Hx. rewrite Hx. lxm.
    replace (Py.len post + 1 + 1) with (Py.len (x :: post) + 1)
      by (unfold Py.len; cbn [List.length]; lia).
    rewrite (IH fuel (buff ++ [x]) pre (x :: post) (Some [x]) d
               (Py.len ((pre ++ d :: rev rl)) + 1) c e cl);
      [ | rewrite Hsrc, <- app_assoc; reflexivity | assumption | assumption
        | cbn [List.length] in Hfuel; lia ].
    rewrite <- app_assoc. cbn [app].
    unfold Py.len. cbn [List.length]. arith_eq.
Qed.

(** The line loop, scanning the first line [rev rl] of the buffer. *)
Lemma rfind_line_start (rl : list Z) :
  forall (fuel : nat) (buff post : list Z) (lastc : option (list Z))
         (p c : Z) (e : bool) (cl : Lexeme),
  src = rev rl ++ post ->
  eol_free rl = true ->
  (List.length rl + 1 <= fuel)%nat ->
  Lexer.rfind_line fuel buff (Py.len post + 1) lastc (st_at p c e cl)
  = (Ok (buff ++ rl, Py.len src + 1,
         match rl with [] => lastc | _ :: _ => Some [last rl 0] end),
     st_at (match rl with [] => p | _ :: _ => 1 end) c e cl).
Proof.
  induction rl as [|x rl IH];
    intros fuel buff post lastc p c e cl Hsrc Hrl Hfuel;
    (destruct fuel as [|fuel]; [cbn in Hfuel; lia|]);
    cbn [Lexer.rfind_line]; lxm.
  - cbn [rev app] in Hsrc. subst post.
    destruct (Z.leb_spec (Py.len src + 1) (Py.len src)); [lia|].
    now rewrite app_nil_r.
  - assert (Hlen : Py.len post + 1 <= Py.len src)
      by (rewrite Hsrc; unfold Py.len;
          repeat (rewrite ?length_app; cbn [List.length rev]); lia).
    destruct (Z.leb_spec (Py.len post + 1) (Py.len src)); [|lia].
    cbn [rev] in Hsrc. rewrite <- !app_assoc in Hsrc. cbn [app] in Hsrc.
    cbn [eol_free forallb] in Hrl. apply andb_true_iff in Hrl as [Hx Hrl].
    rewrite (read_before _ post x p Hsrc). lxm.
    change (Py.getitem [x] 0) with (Some x). lxm.
    rewrite is_eol_mem. apply negb_true_iff in Hx. rewrite Hx. lxm.
    replace (Py.len post + 1 + 1) with (Py.len (x :: post) + 1)
      by (unfold Py.len; cbn [List.length]; lia).
    rewrite (IH fuel (buff ++ [x]) (x :: post) (Some [x])
               (Py.len (rev rl) + 1) c e cl);
      [ | exact Hsrc | assumption | cbn [List.length] in Hfuel; lia ].
    rewrite <- app_assoc. cbn [app]. rewrite last_cons.
    destruct rl as [|y rl']; [reflexivity|].
    now rewrite (last_cons rl' y x), (last_cons rl' y 0).
Qed.

End Rfind.

Lemma flatten_lines_snoc (segs : list (Z * list Z)) (d : Z) (l : list Z) :
  flatten_lines (segs ++ [(d, l)]) = flatten_lines segs ++ d :: l.
Proof.
  unfold flatten_lines. rewrite flat_map_app. cbn [flat_map fst snd].
  now rewrite app_nil_r.
Qed.

Lemma eol_free_rev (l : list Z) : eol_free l = true -> eol_free (rev l) = true.
Proof.
  unfold eol_free. rewrite !forallb_forall. intros H x Hx.
  apply H. now apply in_rev.
Qed.

(** Adds the equation between the lengths of the two sides of [H]. *)
Ltac list_len H :=
  let L := fresh "Hlength" in
  pose proof (f_equal (@List.length Z) H) as L;
  repeat (rewrite ?length_app, ?length_rev in L; cbn [List.length] in L).

Section RfindLoop.

Variable src : list Z.
Variables (lb : list Lexeme) (mh : list (Lexeme * Z)) (cs : Z).
Variable keyword : list Z.

Local Abbreviation st_at p c e cl := (state src p c e lb mh cs cl).

(** One round of the outer loop over a line opened by a delimiter. *)
Lemma rfind_loop_round (fuel : nat) (buff pre l post : list Z)
  (lastc : option (list Z)) (d p c : Z) (e : bool) (cl : Lexeme) :
  src = pre ++ d :: l ++ post ->
  is_eol d = true -> eol_free l = true ->
  buff <> rev keyword ->
  (List.length l + 1 <= S fuel)%nat ->
  Lexer.rfind_loop (S fuel) (rev keyword) buff (Py.len post + 1) lastc
    (st_at p c e cl)
  = Lexer.rfind_loop fuel (rev keyword) (rev l)
      (Py.len (d :: l ++ post) + 1) (Some [d]) (st_at (Py.len pre + 1) c e cl).
Proof.
  intros Hsrc Hd Hl Hbuff Hfuel. cbn [Lexer.rfind_loop].
  destruct (list_eq_dec Z.eq_dec buff (rev keyword)); [contradiction|]. lxm.
  rewrite (rfind_line_delim src lb mh cs (rev l) (S fuel) [] pre post lastc
             d p c e cl);
    [ | rewrite rev_involutive; exact Hsrc | assumption
      | now apply eol_free_rev | rewrite length_rev; exact Hfuel ].
  lxm. cbn [app].
  replace (Py.len post + Py.len (rev l) + 2) with (Py.len (d :: l ++ post) + 1)
    by (unfold Py.len; cbn [List.length];
        rewrite length_app, length_rev; lia).
  destruct (Py.len (d :: l ++ post) + 1 >? Py.len src); lxm.
  - change (Py.getitem [d] 0) with (Some d). lxm.
    rewrite is_eol_mem, Hd. reflexivity.
  - reflexivity.
Qed.

(** The outer loop runs through the lines that are not the keyword. *)
Lemma rfind_loop_consume (rsegs : list (Z * list Z)) :
  forall (fuel : nat) (head post buff : list Z) (lastc : option (list Z))
         (p c : Z) (e : bool) (cl : Lexeme),
  src = head ++ flatten_lines (rev rsegs) ++ post ->
  buff <> rev keyword ->
  forallb (other_line keyword) rsegs = true ->
  (List.length src + 1 <= fuel)%nat ->
  exists buff' lastc' p',
    buff' <> rev keyword
    /\ Lexer.rfind_loop (List.length rsegs + fuel) (rev keyword) buff
         (Py.len post + 1) lastc (st_at p c e cl)
       = Lexer.rfind_loop fuel (rev keyword) buff'
           (Py.len (flatten_lines (rev rsegs) ++ post) + 1) lastc'
           (st_at p' c e cl)
    /\ (rsegs = [] /\ lastc' = lastc /\ p' = p
        \/ exists d, is_eol d = true /\ lastc' = Some [d]
                     /\ p' = Py.len head + 1).
Proof.
  induction rsegs as [|[d l] rsegs IH];
    intros fuel head post buff lastc p c e cl Hsrc Hbuff Hsegs Hfuel.
  - exists buff, lastc, p. split; [assumption|]. split; [reflexivity|].
    left. auto.
  - cbn [forallb] in Hsegs. apply andb_true_iff in Hsegs as [Hs Hsegs].
    unfold other_line in Hs. cbn [fst snd] in Hs.
    apply andb_true_iff in Hs as [Hs Hne].
    apply andb_true_iff in Hs as [Hd Hl].
    destruct (list_eq_dec Z.eq_dec l keyword) as [|Hlk]; [discriminate|].
    cbn [rev] in Hsrc. rewrite flatten_lines_snoc in Hsrc.
    rewrite <- app_assoc in Hsrc. cbn [app] in Hsrc.
    assert (Hsrc' : src = (head ++ flatten_lines (rev rsegs)) ++ d :: l ++ post)
      by (rewrite Hsrc, <- app_assoc; reflexivity).
    assert (Hll : (List.length l + 1 <= S (List.length rsegs + fuel))%nat).
    { list_len Hsrc'. lia. }
    cbn [List.length Nat.add].
    rewrite (rfind_loop_round _ buff _ l post lastc d p c e cl Hsrc' Hd Hl
               Hbuff Hll).
    assert (Hrev : rev l <> rev keyword).
    { intros H. apply Hlk. rewrite <- (rev_involutive l), H.
      apply rev_involutive. }
    destruct (IH fuel head (d :: l ++ post) (rev l) (Some [d])
                (Py.len (head ++ flatten_lines (rev rsegs)) + 1) c e cl
                Hsrc Hrev Hsegs Hfuel)
      as (buff' & lastc' & p' & Hb' & Heq & Hcase).
    exists buff', lastc', p'. split; [assumption|]. split.
    + rewrite Heq. cbn [rev]. rewrite flatten_lines_snoc, <- app_assoc.
      reflexivity.
    + right. destruct Hcase as [(-> & -> & ->) | Hcase]; [|exact Hcase].
      exists d. repeat split; auto. cbn [rev flatten_lines flat_map].
      now rewrite app_nil_r.
Qed.

(** The loop ends on the last line equal to the keyword, if a delimiter
    opens it, with the cursor at the first byte of that line. *)
Lemma rfind_loop_found (pre : list Z) (d0 : Z) (segs : list (Z * list Z))
  (fuel : nat) (p c : Z) (e : bool) (cl : Lexeme) :
  src = pre ++ d0 :: keyword ++ flatten_lines segs ->
  is_eol d0 = true -> keyword <> [] -> eol_free keyword = true ->
  forallb (other_line keyword) segs = true ->
  (List.length segs + List.length src + 3 <= fuel)%nat ->
  Lexer.rfind_loop fuel (rev keyword) [] 1 None (st_at p c e cl)
  = (Ok None, st_at (Py.len pre + 1) c e cl).
Proof.
  intros Hsrc Hd Hk Hkf Hsegs Hfuel.
  assert (Hne : @nil Z <> rev keyword).
  { intros H. apply Hk. rewrite <- (rev_involutive keyword), <- H.
    reflexivity. }
  replace fuel with (List.length (rev segs)
                     + (fuel - List.length segs))%nat
    by (rewrite length_rev; lia).
  destruct (rfind_loop_consume (rev segs) (fuel - List.length segs)
              (pre ++ d0 :: keyword) [] [] None p c e cl)
    as (buff' & lastc' & p' & Hb' & Heq & _).
  - rewrite rev_involutive, app_nil_r, <- app_assoc. exact Hsrc.
  - exact Hne.
  - rewrite forallb_forall in *. intros x Hx. apply Hsegs. now apply in_rev.
  - lia.
  - change (Py.len [] + 1) with 1 in Heq. rewrite Heq.
    rewrite rev_involutive, app_nil_r.
    destruct (fuel - List.length segs)%nat as [|[|fuel']] eqn:Hf; [lia|lia|].
    assert (Hsrc' : src = pre ++ d0 :: keyword ++ flatten_lines segs ++ [])
      by (rewrite app_nil_r; exact Hsrc).
    rewrite <- (app_nil_r (flatten_lines segs)) at 1.
    rewrite (rfind_loop_round _ buff' pre keyword (flatten_lines segs ++ [])
               lastc' d0 p' c e cl Hsrc' Hd Hkf Hb').
    + cbn [Lexer.rfind_loop].
      destruct (list_eq_dec Z.eq_dec (rev keyword) (rev keyword));
        [reflexivity | contradiction].
    + list_len Hsrc. lia.
Qed.

(** The loop returns -1 when it reaches the start of the buffer on a byte
    that is not a delimiter, no line after the first being the keyword. *)
Lemma rfind_loop_not_found (l0 : list Z) (segs : list (Z * list Z))
  (fuel : nat) (p c : Z) (e : bool) (cl : Lexeme) :
  src = l0 ++ flatten_lines segs ->
  l0 <> [] -> eol_free l0 = true -> keyword <> [] ->
  forallb (other_line keyword) segs = true ->
  (List.length segs + List.length src + 3 <= fuel)%nat ->
  Lexer.rfind_loop fuel (rev keyword) [] 1 None (st_at p c e cl)
  = (Ok (Some (-1)), st_at 1 c e cl).
Proof.
  intros Hsrc Hl0 Hlf Hk Hsegs Hfuel.
  assert (Hne : @nil Z <> rev keyword).
  { intros H. apply Hk. rewrite <- (rev_involutive keyword), <- H.
    reflexivity. }
  replace fuel with (List.length (rev segs)
                     + (fuel - List.length segs))%nat
    by (rewrite length_rev; lia).
  destruct (rfind_loop_consume (rev segs) (fuel - List.length segs)
              l0 [] [] None p c e cl)
    as (buff' & lastc' & p' & Hb' & Heq & _).
  - rewrite rev_involutive, app_nil_r. exact Hsrc.
  - exact Hne.
  - rewrite forallb_forall in *. intros x Hx. apply Hsegs. now apply in_rev.
  - lia.
  - change (Py.len [] + 1) with 1 in Heq. rewrite Heq.
    rewrite rev_involutive.
    destruct (fuel - List.length segs)%nat as [|fuel'] eqn:Hf; [lia|].
    cbn [Lexer.rfind_loop].
    destruct (list_eq_dec Z.eq_dec buff' (rev keyword)); [contradiction|]. lxm.
    assert (Hsrc' : src = rev (rev l0) ++ flatten_lines segs ++ [])
      by (rewrite rev_involutive, app_nil_r; exact Hsrc).
    rewrite (rfind_line_start src lb mh cs (rev l0) (S fuel') []
               (flatten_lines segs ++ []) lastc' p' c e cl Hsrc'
               (eol_free_rev _ Hlf)).
    + destruct (rev l0) as [|x rl] eqn:Hrev.
      { exfalso. apply Hl0. rewrite <- (rev_involutive l0), Hrev.
        reflexivity. }
      lxm. destruct (Z.gtb_spec (Py.len src + 1) (Py.len src)); [|lia]. lxm.
      change (Py.getitem [last (x :: rl) 0] 0) with (Some (last (x :: rl) 0)).
      lxm. rewrite is_eol_mem.
      assert (Hin : In (last (x :: rl) 0) l0).
      { apply in_rev. rewrite Hrev.
        destruct (exists_last (l := x :: rl) ltac:(discriminate))
          as (l' & a & Hla).
        rewrite Hla, last_last. apply in_or_app. right. now left. }
      unfold eol_free in Hlf. rewrite forallb_forall in Hlf.
      apply Hlf, negb_true_iff in Hin. rewrite Hin. reflexivity.
    + rewrite length_rev. list_len Hsrc. lia.
Qed.

End RfindLoop.

(** C3 (counterexample). On the sample trailer the [startxref] line lies
    at offsets 1 to 9, so the position immediately after it is 10; the
    search returns 1. *)
Lemma rfind_anchor_counterexample :
  fst (Lexer.on (Lexer.init trailer_sample 200)
                (Lexer.seekable_rfind 40 (Py.b "startxref")))
  = Ok 1
  /\ position_after_last_line trailer_sample (Py.b "startxref") = 10
  /\ fst (Lexer.on (Lexer.init trailer_sample 200)
                   (Lexer.seekable_rfind 40 (Py.b "startxref")))
     <> Ok (position_after_last_line trailer_sample (Py.b "startxref")).
Proof. repeat split; try reflexivity. vm_compute. discriminate. Qed.

(** Two slips of the reverse search.  A keyword line that is the first
    line of the buffer is not found. *)
Lemma rfind_first_line_missed :
  fst (Lexer.on (Lexer.init (Py.b "startxref" ++ [LINE_FEED] ++ Py.b "1234") 200)
                (Lexer.seekable_rfind 40 (Py.b "startxref")))
  = Ok (-1).
Proof. reflexivity. Qed.

(** Past a delimiter at offset 0 the loop neither reads nor returns. *)
Lemma rfind_loop_stuck (src revKeyword : list Z) (d : Z) lb mh cs (fuel : nat) :
  forall (buff : list Z) (count p c : Z) (e : bool) (cl : Lexeme),
  revKeyword <> [] -> buff <> revKeyword -> is_eol d = true ->
  Py.len src < count ->
  fst (Lexer.rfind_loop fuel revKeyword buff count (Some [d])
         (state src p c e lb mh cs cl))
  = Diverge.
Proof.
  induction fuel as [|fuel IH]; intros buff count p c e cl Hk Hb Hd Hcount;
    [reflexivity|].
  cbn [Lexer.rfind_loop].
  destruct (list_eq_dec Z.eq_dec buff revKeyword); [contradiction|]. lxm.
  cbn [Lexer.rfind_line]. lxm.
  destruct (Z.leb_spec count (Py.len src)); [lia|]. lxm.
  destruct (Z.gtb_spec count (Py.len src)); [|lia]. lxm.
  change (Py.getitem [d] 0) with (Some d). lxm.
  rewrite is_eol_mem, Hd. lxm.
  apply IH; auto.
Qed.

(** On a buffer that starts with a line feed and holds no [startxref]
    line, the search does not terminate, whatever the loop budget. *)
Lemma rfind_leading_eol_diverges (fuel : nat) :
  fst (Lexer.seekable_rfind fuel (Py.b "startxref")
         (state ([LINE_FEED] ++ Py.b "abc") 1 10 false [] [] 200 PyNone))
  = Diverge.
Proof.
  unfold Lexer.seekable_rfind. lxm.
  do 6 (destruct fuel as [|fuel]; [reflexivity|]).
  set (src := [LINE_FEED] ++ Py.b "abc").
  destruct (rfind_loop_consume src [] [] 200 (Py.b "startxref")
              [(LINE_FEED, Py.b "abc")] (S (S (S (S (S fuel))))) [] [] []
              None 1 10 false PyNone)
    as (buff' & lastc' & p' & Hb' & Heq & Hcase);
    [reflexivity | discriminate | reflexivity | cbn; lia |].
  cbn [List.length Nat.add] in Heq. change (Py.len [] + 1) with 1 in Heq.
  destruct Hcase as [(H & _) | (d & Hd & -> & _)]; [discriminate|].
  pose proof (rfind_loop_stuck src (rev (Py.b "startxref")) d [] [] 200
                (S (S (S (S (S fuel))))) buff'
                (Py.len (flatten_lines (rev [(LINE_FEED, Py.b "abc")]) ++ []) + 1)
                p' 10 false PyNone) as Hstuck.
  rewrite <- Heq in Hstuck.
  destruct (Lexer.rfind_loop _ _ _ _ _ _) as [r st'].
  cbn [fst] in *. rewrite Hstuck; [reflexivity | discriminate | exact Hb'
    | exact Hd | cbn; lia].
Qed.

(** * Further properties of the lexer *)

(** ** Construction, peeking and diagnostics *)

(** Over a non-empty buffer the constructor succeeds: the length is
    measured, the cursor ends just after the first byte, which is the
    lookahead, the stacks are empty and no lexeme is current. *)
Lemma init_nonempty (c : Z) (rest : list Z) (cs : Z) :
  Lexer.init (c :: rest) cs = Ok (primed_at (c :: rest) 0 [] [] cs PyNone).
Proof. rewrite init_cons. reflexivity. Qed.

(** [__peek(k)] reads at [p + k - 1] and puts the cursor back. *)
Lemma peek_at (src : list Z) (p c k : Z) (e : bool) lb mh cs cl :
  0 <= p <= Py.len src -> 1 <= p + k ->
  Lexer.peek k (state src p c e lb mh cs cl)
  = (Ok (nth_error src (Z.to_nat (p + k - 1))), state src p c e lb mh cs cl).
Proof.
  intros Hp Hk.
  destruct (nth_error src (Z.to_nat (p + k - 1))) as [x|] eqn:Hx.
  - apply peek_byte; auto; lia.
  - apply peek_none. apply nth_error_None in Hx. unfold Py.len. lia.
Qed.

(** X1. [__peek(k)] on a well-formed lexer returns the byte [k - 1]
    places after the cursor, or [None] when that place is past the end of
    the buffer, and leaves the lexer exactly as it was. *)
Theorem peek_spec (src : list Z) (p c k : Z) (e : bool) lb mh cs cl :
  0 <= p <= Py.len src -> 1 <= p + k ->
  Lexer.peek k (state src p c e lb mh cs cl)
  = (Ok (nth_error src (Z.to_nat (p + k - 1))), state src p c e lb mh cs cl).
Proof. apply peek_at. Qed.

(** [peek_spec] on the sample buffer, inside and past the buffer. *)
Lemma peek_spec_witness :
  Lexer.peek 1 (state stream_sample 7 10 false [] [] 200 PyNone)
  = (Ok (Some 65), state stream_sample 7 10 false [] [] 200 PyNone)
  /\ Lexer.peek 16 (state stream_sample 7 10 false [] [] 200 PyNone)
     = (Ok None, state stream_sample 7 10 false [] [] 200 PyNone).
Proof.
  split.
  - apply (peek_spec stream_sample 7 10 1 false [] [] 200 PyNone); cbn; lia.
  - apply (peek_spec stream_sample 7 10 16 false [] [] 200 PyNone); cbn; lia.
Defined.

Lemma escaped_count (l : list Z) :
  fold_right Z.add 0 (map (Py.count l) STRING_ESCAPE_SEQUENCES_values)
  = Py.len (filter is_escaped l).
Proof.
  unfold STRING_ESCAPE_SEQUENCES_values, Py.count, Py.len. cbn [map fold_right].
  induction l as [|a l IH]; [reflexivity|].
  cbn [filter]. unfold is_escaped, Py.mem, STRING_ESCAPE_SEQUENCES_values.
  cbn [existsb].
  unfold LINE_FEED, CARRIAGE_RETURN, BACKSPACE, HORIZONTAL_TAB, FORM_FEED in *.
  destruct (Z.eqb_spec 10 a), (Z.eqb_spec 13 a), (Z.eqb_spec 8 a),
    (Z.eqb_spec 9 a), (Z.eqb_spec 12 a);
    try lia; destruct (Z.eqb_spec a 10), (Z.eqb_spec a 13), (Z.eqb_spec a 8),
      (Z.eqb_spec a 9), (Z.eqb_spec a 12); try lia;
    cbn [orb List.length]; unfold is_escaped, Py.mem,
      STRING_ESCAPE_SEQUENCES_values, LINE_FEED, CARRIAGE_RETURN, BACKSPACE,
      HORIZONTAL_TAB, FORM_FEED in IH; cbn [existsb] in IH; lia.
Qed.

(** X2. With a context size [cs] of at least 1, [get_context] returns the
    window of at most [cs] bytes that starts at [max (p - cs // 2) 0], the
    cursor position [p], and a caret offset equal to one plus the number
    of window bytes before the cursor ([min (cs // 2) p]) plus the number
    of those that print escaped; the lexer is left exactly as it was. *)
Theorem get_context_spec (src : list Z) (p c : Z) (e : bool) lb mh cs cl :
  0 <= p <= Py.len src -> 1 <= cs ->
  let start := Z.max (p - cs / 2) 0 in
  let side := Z.min (cs / 2) p in
  let window := Py.slice src start (start + cs) in
  Lexer.get_context (state src p c e lb mh cs cl)
  = (Ok (window, p,
         side + Py.len (filter is_escaped (Py.slice window 0 side)) + 1),
     state src p c e lb mh cs cl)
  /\ Py.len window <= cs.
Proof.
  intros Hp Hcs start side window.
  assert (Hdiv : 0 <= cs / 2) by (apply Z.div_pos; lia).
  assert (Hstart : 0 <= start <= Py.len src) by (unfold start; lia).
  split.
  - unfold Lexer.get_context. lx.
    assert (Hsel :
      (if p - cs / 2 <? 0 then (cs / 2 + (p - cs / 2), 0)
       else (cs / 2, p - cs / 2)) = (side, start)).
    { unfold side, start. destruct (Z.ltb_spec (p - cs / 2) 0);
        f_equal; lia. }
    rewrite Hsel. lx.
    rewrite seek_abs by exact Hstart.
    assert (Hwf : Seekable.wf (Seekable.mk src start (Py.len src)))
      by (split; [reflexivity | exact Hstart]).
    destruct (read_spec cs _ Hwf) as (val & Hr & Hval & Hle).
    unfold Seekable.set_pos in Hr.
    cbn [Seekable.source Seekable.pos Seekable.len] in *.
    destruct (Z.leb_spec cs 0); [lia|].
    fold window in Hval. subst val. rewrite Hr. lxm.
    rewrite seek_abs_gen by (cbn [Seekable.len]; exact Hp).
    cbn [Seekable.source Seekable.len]. rewrite escaped_count. reflexivity.
  - unfold window, Py.slice, Py.len.
    rewrite length_firstn, length_skipn.
    pose proof (slice_bound_id (Z.of_nat (List.length src)) start) as Hs.
    unfold Py.len in Hstart. rewrite Hs by lia.
    unfold Py.slice_bound.
    destruct (Z.ltb_spec (start + cs) 0); lia.
Qed.

(** [get_context_spec] on the test buffer of 39 blanks and a tilde, with
    the context size 31 that the test uses. *)
Lemma get_context_spec_witness :
  Lexer.get_context (state (repeat 32 39 ++ Py.b "~") 40 126 false [] [] 31 PyNone)
  = (Ok (repeat 32 14 ++ Py.b "~", 40, 16),
     state (repeat 32 39 ++ Py.b "~") 40 126 false [] [] 31 PyNone)
  /\ Py.len (repeat 32 14 ++ Py.b "~") <= 31.
Proof.
  apply (get_context_spec (repeat 32 39 ++ Py.b "~") 40 126 false [] [] 31
           PyNone); cbn; lia.
Defined.

(** X3. Whatever the context size, [__raise_lexer_error(msg)] on a
    well-formed lexer raises [PDFLexicalError] with that message and the
    cursor position, and leaves the lexer exactly as it was. *)
Theorem lexical_error_raised (msg : LexMsg) (st : Lexer.t) :
  lexer_wf st ->
  is_lexical_error msg (Seekable.tell (Lexer.source st))
    (fst (Lexer.raise_lexer_error msg st))
  /\ snd (Lexer.raise_lexer_error msg st) = st.
Proof.
  intros Hwf. destruct (lexer_wf_state st Hwf) as (src & p & Hp & Hst).
  rewrite Hst.
  destruct (raise_lexer_error_spec msg src p (Lexer.current st)
              (Lexer.ended st) (Lexer.lexemesBuffer st) (Lexer.movesHistory st)
              (Lexer.contextSize st) (Lexer.currentLexeme st) Hp)
    as (ctx & rel & ->).
  split; [|reflexivity]. exists ctx, rel. reflexivity.
Qed.

(** [lexical_error_raised] with a context size of zero. *)
Lemma lexical_error_raised_witness :
  is_lexical_error InvalidCharacters 3
    (fst (Lexer.raise_lexer_error InvalidCharacters
            (state (Py.b "ab~cd") 3 126 false [] [] 0 PyNone)))
  /\ snd (Lexer.raise_lexer_error InvalidCharacters
            (state (Py.b "ab~cd") 3 126 false [] [] 0 PyNone))
     = state (Py.b "ab~cd") 3 126 false [] [] 0 PyNone.
Proof.
  apply (lexical_error_raised InvalidCharacters
           (state (Py.b "ab~cd") 3 126 false [] [] 0 PyNone)).
  unfold lexer_wf, Seekable.wf. cbn. repeat split; lia.
Defined.

(** ** Push-back *)

(** X4. A lexeme put back is what the next pull returns, whatever the
    state of the cursor (even after the end of the buffer): the pull
    consumes no input and leaves the lexer as it was before [put_back],
    with the lexeme as current lexeme.  Lexemes put back twice come out
    in reverse order. *)
Theorem put_back_next (st : Lexer.t) (c1 c2 l1 l2 : Lexeme) (fuel : nat) :
  Lexer.next fuel (snd (Lexer.put_back c1 l1 st))
  = (Ok l1, Lexer.set_currentLexeme l1 st)
  /\ Lexer.bind (Lexer.put_back c1 l1)
       (fun _ => Lexer.bind (Lexer.put_back c2 l2)
       (fun _ => Lexer.bind (Lexer.next fuel)
       (fun a => Lexer.bind (Lexer.next fuel)
       (fun b => Lexer.ret (a, b))))) st
     = (Ok (l2, l1), Lexer.set_currentLexeme l1 st).
Proof.
  destruct st as [s L c lb mh cs e cl]. split; reflexivity.
Qed.

(** ** Lexers positioned on a byte *)

Section Positioned.

Variable src : list Z.
Variables (lb : list Lexeme) (mh : list (Lexeme * Z)) (cs : Z).

Local Abbreviation st_at p c e cl := (state src p c e lb mh cs cl).
Local Abbreviation at_ q cl := (primed_at src q lb mh cs cl).

Lemma primed_at_byte (q c : Z) (rest : list Z) (cl : Lexeme) :
  0 <= q -> skipn (Z.to_nat q) src = c :: rest ->
  at_ q cl = st_at (q + 1) c false cl.
Proof.
  intros Hq H. destruct (rest_cons _ _ _ _ Hq H) as (_ & Hn & _).
  unfold primed_at. now rewrite Hn.
Qed.

Lemma primed_at_end (q : Z) (cl : Lexeme) :
  Py.len src <= q -> at_ q cl = st_at (Py.len src) 32 true cl.
Proof.
  intros Hq. unfold primed_at.
  destruct (nth_error src (Z.to_nat q)) eqn:E; [|reflexivity].
  assert (Z.to_nat q < List.length src)%nat by (apply nth_error_Some; congruence).
  unfold Py.len in Hq. lia.
Qed.

(** Advancing from the cursor [p] puts the lexer on the byte at [p]. *)
Lemma advance_state (p c : Z) (cl : Lexeme) :
  0 <= p <= Py.len src ->
  Lexer.advance (st_at p c false cl) = (Ok tt, at_ p cl).
Proof.
  intros Hp. destruct (skipn (Z.to_nat p) src) as [|c' rest] eqn:Hskip.
  - rewrite (rest_nil _ _ Hp Hskip), advance_eof, primed_at_end by lia.
    reflexivity.
  - rewrite (advance_byte _ _ _ _ _ _ _ _ _ (proj1 Hp) Hskip).
    now rewrite (primed_at_byte p c' rest cl (proj1 Hp) Hskip).
Qed.

Lemma advance_primed (q : Z) (cl : Lexeme) :
  0 <= q < Py.len src ->
  Lexer.advance (at_ q cl) = (Ok tt, at_ (q + 1) cl).
Proof.
  intros Hq. unfold primed_at at 1.
  destruct (nth_error src (Z.to_nat q)) eqn:E.
  - apply advance_state. lia.
  - apply nth_error_None in E. unfold Py.len in Hq. lia.
Qed.

Lemma advance_times_primed (n : nat) :
  forall (q : Z) (cl : Lexeme),
  0 <= q -> q + Z.of_nat n <= Py.len src ->
  Lexer.advance_times n (at_ q cl) = (Ok tt, at_ (q + Z.of_nat n) cl).
Proof.
  induction n as [|n IH]; intros q cl Hq Hn; cbn [Lexer.advance_times].
  - now rewrite Z.add_0_r.
  - lxm. rewrite advance_primed by lia.
    rewrite IH by lia. do 2 f_equal. lia.
Qed.

Lemma prefixb_length (lit u : list Z) :
  prefixb lit u = true -> (List.length lit <= List.length u)%nat.
Proof.
  revert u. induction lit as [|l lit IH]; intros [|x u] H; cbn in *;
    try lia; try discriminate.
  apply andb_true_iff in H as [_ H]. apply IH in H. lia.
Qed.

(** The comparison loop of [__parse_literal] tells whether the literal
    is a prefix of the buffer from the byte before the cursor on. *)
Lemma literal_differs_spec (lit : list Z) :
  forall (i p c : Z) (e : bool) (cl : Lexeme),
  0 <= p <= Py.len src -> 0 <= p + i - 1 ->
  Lexer.literal_differs i lit (st_at p c e cl)
  = (Ok (negb (prefixb lit (skipn (Z.to_nat (p + i - 1)) src))),
     st_at p c e cl).
Proof.
  induction lit as [|l lit IH]; intros i p c e cl Hp Hi;
    cbn [Lexer.literal_differs]; [reflexivity|].
  lxm. rewrite peek_at by lia.
  destruct (skipn (Z.to_nat (p + i - 1)) src) as [|x u] eqn:Hskip.
  - assert (Hnone : nth_error src (Z.to_nat (p + i - 1)) = None).
    { apply nth_error_None. apply (f_equal (@List.length Z)) in Hskip.
      rewrite length_skipn in Hskip. cbn in Hskip. lia. }
    rewrite Hnone. reflexivity.
  - destruct (rest_cons _ _ _ _ Hi Hskip) as (_ & Hn & Hnext).
    rewrite Hn. cbn [prefixb].
    destruct (Z.eqb_spec x l); [|reflexivity].
    rewrite (IH (i + 1) p c e cl Hp) by lia.
    replace (p + (i + 1) - 1) with (p + i - 1 + 1) by lia.
    now rewrite Hnext.
Qed.

End Positioned.

(** [__parse_literal] compares, then advances over the literal. *)
Lemma parse_literal_prefix (src lit : list Z) (q : Z) lb mh cs cl :
  0 <= q < Py.len src ->
  Lexer.parse_literal lit (primed_at src q lb mh cs cl)
  = if prefixb lit (skipn (Z.to_nat q) src)
    then (Ok true, primed_at src (q + Py.len lit) lb mh cs cl)
    else (Ok false, primed_at src q lb mh cs cl).
Proof.
  intros Hq. unfold Lexer.parse_literal. lxm.
  assert (Hst : exists c, primed_at src q lb mh cs cl
                          = state src (q + 1) c false lb mh cs cl).
  { unfold primed_at. destruct (nth_error src (Z.to_nat q)) eqn:E; [eauto|].
    apply nth_error_None in E. unfold Py.len in Hq. lia. }
  destruct Hst as [c Hst]. rewrite Hst at 1.
  rewrite literal_differs_spec by lia.
  replace (q + 1 + 0 - 1) with q by lia.
  destruct (prefixb lit (skipn (Z.to_nat q) src)) eqn:Hpre; lxm.
  - rewrite <- Hst. apply prefixb_length in Hpre.
    rewrite length_skipn in Hpre.
    rewrite advance_times_primed by (unfold Py.len in *; lia).
    reflexivity.
  - now rewrite Hst.
Qed.

(** X5. On a lexer positioned on the byte at offset [q],
    [__parse_literal(lit)] returns [True] exactly when [lit] is a prefix
    of the buffer from [q] on, and then consumes exactly [len(lit)] bytes;
    otherwise it returns [False] and leaves the lexer exactly as it
    was. *)
Theorem parse_literal_spec (src lit : list Z) (q : Z) lb mh cs cl :
  0 <= q < Py.len src ->
  Lexer.parse_literal lit (primed_at src q lb mh cs cl)
  = if prefixb lit (skipn (Z.to_nat q) src)
    then (Ok true, primed_at src (q + Py.len lit) lb mh cs cl)
    else (Ok false, primed_at src q lb mh cs cl).
Proof. apply parse_literal_prefix. Qed.

(** [parse_literal_spec] on the sample trailer: [startxref] is matched at
    offset 1, [stream] is not. *)
Lemma parse_literal_spec_witness :
  Lexer.parse_literal (Py.b "startxref") (primed_at trailer_sample 1 [] [] 200 PyNone)
  = (Ok true, primed_at trailer_sample 10 [] [] 200 PyNone)
  /\ Lexer.parse_literal (Py.b "stream") (primed_at trailer_sample 1 [] [] 200 PyNone)
     = (Ok false, primed_at trailer_sample 1 [] [] 200 PyNone).
Proof.
  split.
  - apply (parse_literal_spec trailer_sample (Py.b "startxref") 1 [] [] 200
             PyNone). cbn. lia.
  - apply (parse_literal_spec trailer_sample (Py.b "stream") 1 [] [] 200
             PyNone). cbn. lia.
Defined.

(** ** Words, one-byte lexemes and unrecognised input *)

Lemma set_currentLexeme_primed_at (src : list Z) (q : Z) lb mh cs cl l :
  Lexer.set_currentLexeme l (primed_at src q lb mh cs cl)
  = primed_at src q lb mh cs l.
Proof. unfold primed_at. now destruct (nth_error src (Z.to_nat q)). Qed.

Lemma primed_lexeme (src : list Z) (q : Z) lb mh cs cl :
  Lexer.currentLexeme (primed_at src q lb mh cs cl) = cl.
Proof. unfold primed_at. now destruct (nth_error src (Z.to_nat q)). Qed.

(** [__match_keyword] takes the first keyword of the list that is a prefix
    of the input. *)
Lemma match_keyword_in_spec (src : list Z) (q : Z) lb mh cs
  (kws : list (list Z)) :
  forall cl, 0 <= q < Py.len src ->
  Lexer.match_keyword_in kws (primed_at src q lb mh cs cl)
  = match find (fun k => prefixb k (skipn (Z.to_nat q) src)) kws with
    | Some k => (Ok true, primed_at src (q + Py.len k) lb mh cs (PDFKeyword k))
    | None => (Ok false, primed_at src q lb mh cs cl)
    end.
Proof.
  induction kws as [|k kws IH]; intros cl Hq;
    cbn [Lexer.match_keyword_in find]; [reflexivity|].
  cbv beta iota delta [Lexer.bind Lexer.modify Lexer.ret].
  rewrite parse_literal_prefix by exact Hq.
  destruct (prefixb k (skipn (Z.to_nat q) src)).
  - now rewrite set_currentLexeme_primed_at.
  - now apply IH.
Qed.

Lemma keyword_lexeme (k : list Z) :
  In k KEYWORDS -> word_lexeme k = PDFKeyword k.
Proof.
  intros H. cbv [KEYWORDS In] in H.
  repeat (destruct H as [<- | H]; [reflexivity|]). destruct H.
Qed.

(** Where the input starts neither a blank, a comment nor a value and is
    not the [stream] keyword, [__next__] returns the first word that is a
    prefix of the input and falls through when there is none. *)
Lemma next_words (src : list Z) (q c : Z) (rest : list Z)
  (mh : list (Lexeme * Z)) (cs : Z) (cl : Lexeme) (fuel : nat) :
  0 <= q -> skipn (Z.to_nat q) src = c :: rest ->
  blank_or_comment c = false -> starts_value (c :: rest) = false ->
  prefixb (Py.b "stream") (c :: rest) = false ->
  Lexer.next (S fuel) (primed_at src q [] mh cs cl)
  = match find (fun k => prefixb k (c :: rest)) words with
    | Some w => (Ok (word_lexeme w),
                 primed_at src (q + Py.len w) [] mh cs (word_lexeme w))
    | None => no_word (primed_at src q [] mh cs cl)
    end.
Proof.
  intros Hq Hsrc Hb Hv Hs.
  destruct (rest_cons _ _ _ _ Hq Hsrc) as (Hlen & Hn & Hnext).
  unfold blank_or_comment in Hb. apply orb_false_iff in Hb as [Hb1 Hb2].
  cbn [starts_value] in Hv.
  apply orb_false_iff in Hv as [Hv Hv5].
  apply orb_false_iff in Hv as [Hv Hv4].
  apply orb_false_iff in Hv as [Hv Hv3].
  apply orb_false_iff in Hv as [Hv1 Hv2].
  rewrite (primed_at_byte src [] mh cs q c rest cl Hq Hsrc) at 1.
  unfold Lexer.next. lx. cbn [Lexer.remove_blanks]. lx.
  rewrite Hb1, Hb2, Hv1.
  assert (Hhex :
    (if c =? OPEN_ANGLE_BRACKET
     then Lexer.bind (Lexer.peek 1) (fun p =>
            Lexer.ret match p with
                      | Some x => negb (x =? OPEN_ANGLE_BRACKET)
                      | None => true
                      end)
     else Lexer.ret false) (state src (q + 1) c false [] mh cs cl)
    = (Ok false, state src (q + 1) c false [] mh cs cl)).
  { destruct (c =? OPEN_ANGLE_BRACKET); [|reflexivity].
    lxm. rewrite peek_at by lia.
    replace (q + 1 + 1 - 1) with (q + 1) by lia.
    cbn [andb] in Hv2. destruct rest as [|x rest]; [discriminate|].
    assert (Hq1 : 0 <= q + 1) by lia.
    destruct (rest_cons _ _ _ _ Hq1 Hnext) as (_ & -> & _).
    destruct (x =? OPEN_ANGLE_BRACKET); [reflexivity | discriminate]. }
  revert Hhex. lx. intros ->. rewrite Hv3, Hv4, Hv5.
  rewrite <- (primed_at_byte src [] mh cs q c rest cl Hq Hsrc).
  rewrite parse_literal_prefix by lia. rewrite Hsrc.
  cbn [words app find].
  destruct (prefixb (Py.b "true") (c :: rest)).
  { lxm. unfold primed_at.
    now destruct (nth_error src (Z.to_nat (q + Py.len (Py.b "true")))). }
  lxm. rewrite parse_literal_prefix by lia. rewrite Hsrc.
  destruct (prefixb (Py.b "false") (c :: rest)).
  { lxm. unfold primed_at.
    now destruct (nth_error src (Z.to_nat (q + Py.len (Py.b "false")))). }
  lxm. rewrite parse_literal_prefix by lia. rewrite Hsrc, Hs.
  lxm. unfold Lexer.match_keyword.
  rewrite match_keyword_in_spec by lia. rewrite Hsrc.
  destruct (find (fun k => prefixb k (c :: rest)) KEYWORDS) as [k|] eqn:Hfind.
  - apply find_some in Hfind as [Hin _].
    rewrite (keyword_lexeme k Hin). lxm.
    unfold primed_at. now destruct (nth_error src (Z.to_nat (q + Py.len k))).
  - unfold no_word. lxm. reflexivity.
Qed.

Lemma no_literal_no_word (u : list Z) :
  starts_literal u = false ->
  find (fun k => prefixb k u) words = None
  /\ prefixb (Py.b "stream") u = false.
Proof.
  unfold starts_literal, literals, words, KEYWORDS.
  cbn [existsb find app]. intros H.
  repeat (apply orb_false_iff in H; destruct H as [?H H]).
  repeat match goal with E : prefixb _ u = false |- _ => rewrite E; clear E end.
  split; reflexivity.
Qed.

Lemma singleton_plain (c : Z) :
  Py.mem c SINGLETONS = true ->
  blank_or_comment c = false
  /\ forall rest, starts_value (c :: rest) = false.
Proof.
  unfold Py.mem, SINGLETONS. cbn [existsb]. intros H.
  repeat (apply orb_true_iff in H; destruct H as [H|H]);
    try discriminate; apply Z.eqb_eq in H; subst c; split; reflexivity.
Qed.

(** A word at the lexer's position is returned, whatever follows it. *)
Lemma next_word (src w tail : list Z) (q : Z)
  (mh : list (Lexeme * Z)) (cs : Z) (cl : Lexeme) (fuel : nat) :
  In w words -> 0 <= q -> skipn (Z.to_nat q) src = w ++ tail ->
  (1 <= fuel)%nat ->
  Lexer.next fuel (primed_at src q [] mh cs cl)
  = (Ok (word_lexeme w),
     primed_at src (q + Py.len w) [] mh cs (word_lexeme w)).
Proof.
  intros Hin Hq Hsrc Hfuel. destruct fuel as [|fuel]; [lia|].
  cbv [words KEYWORDS In app] in Hin.
  repeat (destruct Hin as [<- | Hin];
    [ match type of Hsrc with _ = ?w ++ _ =>
        let v := eval vm_compute in w in
        change (w ++ tail) with (v ++ tail) in Hsrc
      end;
      cbn [app] in Hsrc;
      rewrite (next_words src q _ _ mh cs cl fuel Hq Hsrc)
        by (vm_compute; reflexivity);
      match goal with |- context [find ?f ?l] =>
        let r := fresh "r" in
        set (r := find f l); vm_compute in r; subst r
      end;
      reflexivity |]).
  destruct Hin.
Qed.

(** X6. Words are matched as prefixes, whatever follows them: where the
    input at the lexer's position starts with [true], [false] or one of
    [KEYWORDS], the pull returns that word's lexeme and consumes exactly
    the word's bytes, so that the next byte, even a letter, starts the
    next lexeme. *)
Theorem word_prefix_match (src w tail : list Z) (q : Z)
  (mh : list (Lexeme * Z)) (cs : Z) (cl : Lexeme) (fuel : nat) :
  In w words -> 0 <= q -> skipn (Z.to_nat q) src = w ++ tail ->
  (1 <= fuel)%nat ->
  Lexer.next fuel (primed_at src q [] mh cs cl)
  = (Ok (word_lexeme w),
     primed_at src (q + Py.len w) [] mh cs (word_lexeme w)).
Proof. intros. now apply (next_word src w tail). Qed.

(** [word_prefix_match] on [objx]: the keyword [obj] is returned and the
    lexer is left on the [x]. *)
Lemma word_prefix_match_witness :
  Lexer.next 1 (primed_at (Py.b "objx") 0 [] [] 200 PyNone)
  = (Ok (word_lexeme (Py.b "obj")),
     primed_at (Py.b "objx") (0 + Py.len (Py.b "obj")) [] [] 200
               (word_lexeme (Py.b "obj"))).
Proof.
  apply (word_prefix_match (Py.b "objx") (Py.b "obj") (Py.b "x") 0 [] 200
           PyNone 1).
  - vm_compute. tauto.
  - lia.
  - reflexivity.
  - lia.
Defined.

(** X7. A byte of [SINGLETONS] at the lexer's position that does not
    start a literal ([n] of [null], [f] of [false]) is returned as a
    one-byte lexeme, and exactly that byte is consumed. *)
Theorem singleton_lexeme (src : list Z) (q c : Z) (rest : list Z)
  (mh : list (Lexeme * Z)) (cs : Z) (cl : Lexeme) (fuel : nat) :
  0 <= q -> skipn (Z.to_nat q) src = c :: rest ->
  Py.mem c SINGLETONS = true -> starts_literal (c :: rest) = false ->
  (1 <= fuel)%nat ->
  Lexer.next fuel (primed_at src q [] mh cs cl)
  = (Ok (PDFSingleton c), primed_at src (q + 1) [] mh cs (PDFSingleton c)).
Proof.
  intros Hq Hsrc Hmem Hlit Hfuel. destruct fuel as [|fuel]; [lia|].
  destruct (singleton_plain c Hmem) as [Hb Hv].
  destruct (no_literal_no_word _ Hlit) as [Hfind Hs].
  rewrite (next_words src q c rest mh cs cl fuel Hq Hsrc Hb (Hv rest) Hs).
  rewrite Hfind. unfold no_word.
  rewrite (primed_at_byte src [] mh cs q c rest cl Hq Hsrc).
  destruct (rest_cons _ _ _ _ Hq Hsrc) as (Hlen & _).
  lx. rewrite Hmem. lx.
  rewrite advance_state by lia.
  fold (Lexer.currentLexeme (primed_at src (q + 1) [] mh cs (PDFSingleton c))).
  now rewrite primed_lexeme.
Qed.

(** [singleton_lexeme] on [nul]: not the keyword [null], so the [n] is a
    lexeme of its own. *)
Lemma singleton_lexeme_witness :
  Lexer.next 1 (primed_at (Py.b "nul") 0 [] [] 200 PyNone)
  = (Ok (PDFSingleton 110),
     primed_at (Py.b "nul") (0 + 1) [] [] 200 (PDFSingleton 110)).
Proof.
  apply (singleton_lexeme (Py.b "nul") 0 110 (Py.b "ul") [] 200 PyNone 1);
    try reflexivity; lia.
Defined.

(** X8. A byte at the lexer's position that is no blank, starts no
    comment, no value and no literal and is no singleton makes the pull
    raise [PDFLexicalError] at the cursor, one past that byte; the lexer is
    left exactly as it was, so every further pull raises the same error. *)
Theorem unrecognised_byte (src : list Z) (q c : Z) (rest : list Z)
  (mh : list (Lexeme * Z)) (cs : Z) (cl : Lexeme) (fuel : nat) :
  0 <= q -> skipn (Z.to_nat q) src = c :: rest ->
  blank_or_comment c = false -> starts_value (c :: rest) = false ->
  starts_literal (c :: rest) = false -> Py.mem c SINGLETONS = false ->
  (1 <= fuel)%nat ->
  is_lexical_error InvalidCharacters (q + 1)
    (fst (Lexer.next fuel (primed_at src q [] mh cs cl)))
  /\ snd (Lexer.next fuel (primed_at src q [] mh cs cl))
     = primed_at src q [] mh cs cl.
Proof.
  intros Hq Hsrc Hb Hv Hlit Hmem Hfuel. destruct fuel as [|fuel]; [lia|].
  destruct (no_literal_no_word _ Hlit) as [Hfind Hs].
  rewrite (next_words src q c rest mh cs cl fuel Hq Hsrc Hb Hv Hs).
  rewrite Hfind. unfold no_word.
  rewrite (primed_at_byte src [] mh cs q c rest cl Hq Hsrc).
  destruct (rest_cons _ _ _ _ Hq Hsrc) as (Hlen & _).
  assert (Hp : 0 <= q + 1 <= Py.len src) by lia.
  destruct (raise_lexer_error_spec InvalidCharacters src (q + 1) c false
              [] mh cs cl Hp) as (context & rel & Herr).
  lx. rewrite Hmem. revert Herr. lx. intros ->.
  split; [exists context, rel|]; reflexivity.
Qed.

(** [unrecognised_byte] on [obx]. *)
Lemma unrecognised_byte_witness :
  is_lexical_error InvalidCharacters (0 + 1)
    (fst (Lexer.next 1 (primed_at (Py.b "obx") 0 [] [] 200 PyNone)))
  /\ snd (Lexer.next 1 (primed_at (Py.b "obx") 0 [] [] 200 PyNone))
     = primed_at (Py.b "obx") 0 [] [] 200 PyNone.
Proof.
  apply (unrecognised_byte (Py.b "obx") 0 111 (Py.b "bx") [] 200 PyNone 1);
    try reflexivity; lia.
Defined.

(** ** Leading blanks and comments *)

Lemma after_blanks_length (l : list Z) :
  forall b, (List.length (after_blanks b l) <= List.length l)%nat.
Proof.
  induction l as [|c r IH]; intros b; cbn [after_blanks List.length]; [lia|].
  destruct b; [specialize (IH (negb (c =? LINE_FEED))); lia|].
  destruct (Py.mem c BLANKS); [specialize (IH false); lia|].
  destruct (c =? PERCENTAGE); [specialize (IH true); lia|].
  cbn [List.length]. lia.
Qed.

Lemma after_blanks_suffix (l : list Z) :
  forall b,
  skipn (List.length l - List.length (after_blanks b l)) l = after_blanks b l.
Proof.
  induction l as [|c r IH]; intros b; [reflexivity|].
  assert (Hrec : forall b',
    skipn (List.length (c :: r) - List.length (after_blanks b' r)) (c :: r)
    = after_blanks b' r).
  { intros b'. pose proof (after_blanks_length r b').
    cbn [List.length].
    replace (S (List.length r) - List.length (after_blanks b' r))%nat
      with (S (List.length r - List.length (after_blanks b' r)))%nat by lia.
    cbn [skipn]. apply IH. }
  cbn [after_blanks].
  destruct b; [apply Hrec|].
  destruct (Py.mem c BLANKS); [apply Hrec|].
  destruct (c =? PERCENTAGE); [apply Hrec|].
  now rewrite Nat.sub_diag.
Qed.

Lemma after_blanks_idem (l : list Z) :
  forall b, after_blanks false (after_blanks b l) = after_blanks b l.
Proof.
  induction l as [|c r IH]; intros b; [reflexivity|].
  cbn [after_blanks].
  destruct b; [apply IH|].
  destruct (Py.mem c BLANKS) eqn:Hb; [apply IH|].
  destruct (c =? PERCENTAGE) eqn:Hp; [apply IH|].
  cbn [after_blanks]. now rewrite Hb, Hp.
Qed.

Section Blanks.

Variable src : list Z.
Variables (lb : list Lexeme) (mh : list (Lexeme * Z)) (cs : Z).

Local Abbreviation st_at p c e cl := (state src p c e lb mh cs cl).

(** The comment loop stops on the line feed that closes the comment when
    something other than blanks and comments follows. *)
Lemma skip_comment_after (rest : list Z) :
  forall (p c : Z) (cl : Lexeme) (fuel : nat),
  0 <= p <= Py.len src -> skipn (Z.to_nat p) src = rest ->
  after_blanks true (c :: rest) <> [] ->
  (List.length rest + 2 <= fuel)%nat ->
  exists p' rest',
    0 <= p' <= Py.len src /\ skipn (Z.to_nat p') src = rest'
    /\ (List.length rest' <= List.length rest)%nat
    /\ Lexer.skip_comment fuel (st_at p c false cl)
       = (Ok tt, st_at p' LINE_FEED false cl)
    /\ after_blanks true (c :: rest) = after_blanks false rest'.
Proof.
  induction rest as [|c' rest' IH]; intros p c cl fuel Hp Hrest Hne Hfuel;
    (destruct fuel as [|fuel]; [cbn in Hfuel; lia|]);
    cbn [Lexer.skip_comment]; lx; cbn [after_blanks] in Hne |- *;
    destruct (Z.eqb_spec c LINE_FEED) as [->|Hc]; lx.
  - exists p, []. repeat split; auto; lia.
  - now contradiction Hne.
  - exists p, (c' :: rest'). repeat split; auto; lia.
  - destruct (rest_cons _ _ _ _ (proj1 Hp) Hrest) as (Hlt & _ & Hnext).
    rewrite (advance_byte _ _ _ _ _ _ _ _ _ (proj1 Hp) Hrest).
    destruct (IH (p + 1) c' cl fuel) as (p' & r' & Hp' & Hr' & Hl & E & B);
      [lia | exact Hnext | exact Hne | cbn [List.length] in Hfuel; lia |].
    exists p', r'. rewrite E.
    repeat split; auto; try lia. cbn [List.length]. lia.
Qed.

(** The blank-skipping loop stops on the first byte that is neither a
    blank nor part of a comment. *)
Lemma remove_blanks_skip (n : nat) :
  forall (rest : list Z) (p c : Z) (cl : Lexeme) (fuel : nat)
         (c' : Z) (rest' : list Z),
  (List.length rest <= n)%nat ->
  0 <= p <= Py.len src -> skipn (Z.to_nat p) src = rest ->
  after_blanks false (c :: rest) = c' :: rest' ->
  (n + 2 <= fuel)%nat ->
  Lexer.remove_blanks fuel (st_at p c false cl)
  = (Ok tt, st_at (Py.len src - Py.len rest') c' false cl).
Proof.
  induction n as [|n IH]; intros rest p c cl fuel c' rest' Hn Hp Hrest Ha Hfuel;
    (destruct fuel as [|fuel]; [lia|]);
    cbn [Lexer.remove_blanks]; lx; cbn [after_blanks] in Ha;
    destruct (Py.mem c BLANKS) eqn:Hblank.
  - destruct rest; [discriminate | cbn in Hn; lia].
  - destruct (Z.eqb_spec c PERCENTAGE) as [->|].
    + destruct rest; [discriminate | cbn in Hn; lia].
    + injection Ha as <- <-. lx. do 3 f_equal.
      apply (f_equal (@List.length Z)) in Hrest.
      rewrite length_skipn in Hrest. unfold Py.len in *. lia.
  - destruct rest as [|c2 rest2]; [discriminate|].
    destruct (rest_cons _ _ _ _ (proj1 Hp) Hrest) as (Hlt & _ & Hnext).
    rewrite (advance_byte _ _ _ _ _ _ _ _ _ (proj1 Hp) Hrest).
    apply (IH rest2); auto; try lia. cbn [List.length] in Hn. lia.
  - destruct (Z.eqb_spec c PERCENTAGE) as [->|].
    + destruct rest as [|c2 rest2]; [discriminate|].
      assert (Hne : after_blanks true (PERCENTAGE :: c2 :: rest2) <> [])
        by (change (after_blanks true (PERCENTAGE :: c2 :: rest2))
              with (after_blanks true (c2 :: rest2)); congruence).
      destruct (skip_comment_after (c2 :: rest2) p PERCENTAGE cl (S fuel)
                  Hp Hrest Hne)
        as (p' & r' & Hp' & Hr' & Hl & E & B); [cbn [List.length] in *; lia|].
      fold Lexer.skip_comment. rewrite E.
      change (after_blanks true (PERCENTAGE :: c2 :: rest2))
        with (after_blanks true (c2 :: rest2)) in B.
      rewrite B in Ha.
      destruct r' as [|c3 r3]; [discriminate|].
      destruct (rest_cons _ _ _ _ (proj1 Hp') Hr') as (Hlt & _ & Hnext).
      rewrite (advance_byte _ _ _ _ _ _ _ _ _ (proj1 Hp') Hr').
      apply (IH r3); auto; try lia. cbn [List.length] in *. lia.
    + injection Ha as <- <-. lx. do 3 f_equal.
      apply (f_equal (@List.length Z)) in Hrest.
      rewrite length_skipn in Hrest. unfold Py.len in *. lia.
Qed.

End Blanks.

(** A pull skips the leading blanks and comments first. *)
Lemma next_after_blanks (src : list Z) (q c' : Z) (rest' : list Z)
  (mh : list (Lexeme * Z)) (cs : Z) (cl : Lexeme) (fuel : nat) :
  0 <= q ->
  after_blanks false (skipn (Z.to_nat q) src) = c' :: rest' ->
  (List.length src + 2 <= fuel)%nat ->
  Lexer.next fuel (primed_at src q [] mh cs cl)
  = Lexer.next fuel
      (primed_at src (Py.len src - Py.len (c' :: rest')) [] mh cs cl).
Proof.
  intros Hq Ha Hfuel.
  destruct (skipn (Z.to_nat q) src) as [|c rest] eqn:Hsrc; [discriminate|].
  destruct (rest_cons _ _ _ _ Hq Hsrc) as (Hlt & _ & Hnext).
  pose proof (after_blanks_length (c :: rest) false) as Hle.
  pose proof (after_blanks_suffix (c :: rest) false) as Hsuf.
  pose proof (after_blanks_idem (c :: rest) false) as Hid.
  rewrite Ha in Hle, Hsuf, Hid.
  assert (Hlen : List.length (c :: rest) = (List.length src - Z.to_nat q)%nat)
    by (rewrite <- Hsrc; apply length_skipn).
  set (q' := Py.len src - Py.len (c' :: rest')).
  assert (Hq' : 0 <= q' < Py.len src)
    by (unfold q', Py.len; cbn [List.length] in *; lia).
  assert (Hsrc' : skipn (Z.to_nat q') src = c' :: rest').
  { rewrite <- Hsuf, <- Hsrc, skipn_skipn. f_equal.
    unfold q', Py.len. rewrite length_skipn. cbn [List.length] in *. lia. }
  destruct (rest_cons _ _ _ _ (proj1 Hq') Hsrc') as (_ & _ & Hnext').
  rewrite (primed_at_byte src [] mh cs q c rest cl Hq Hsrc).
  rewrite (primed_at_byte src [] mh cs q' c' rest' cl (proj1 Hq') Hsrc').
  unfold Lexer.next. lx.
  rewrite (remove_blanks_skip src [] mh cs (List.length src) rest (q + 1) c
             cl fuel c' rest');
    [| cbn [List.length] in Hlen; lia | lia | exact Hnext | exact Ha
     | exact Hfuel].
  rewrite (remove_blanks_skip src [] mh cs (List.length src) rest' (q' + 1) c'
             cl fuel c' rest');
    [| cbn [List.length] in Hle, Hlen; lia | lia | exact Hnext' | exact Hid
     | exact Hfuel].
  reflexivity.
Qed.

(** X9. Leading blanks and comments are transparent: where the input
    from the lexer's position on, once its leading blanks and [%]-comments
    are skipped, starts with the byte [c'], a pull returns the same outcome
    and leaves the lexer in the same state as a pull by a lexer positioned
    on that byte. *)
Theorem blanks_transparent (src : list Z) (q c' : Z) (rest' : list Z)
  (mh : list (Lexeme * Z)) (cs : Z) (cl : Lexeme) (fuel : nat) :
  0 <= q ->
  after_blanks false (skipn (Z.to_nat q) src) = c' :: rest' ->
  (List.length src + 2 <= fuel)%nat ->
  Lexer.next fuel (primed_at src q [] mh cs cl)
  = Lexer.next fuel
      (primed_at src (Py.len src - Py.len (c' :: rest')) [] mh cs cl).
Proof. intros. now apply next_after_blanks. Qed.

(** [blanks_transparent] on a comment line and blanks before [12]. *)
Lemma blanks_transparent_witness :
  Lexer.next 20 (primed_at (Py.b "%a" ++ [LINE_FEED] ++ Py.b "  12") 0 [] [] 200 PyNone)
  = Lexer.next 20
      (primed_at (Py.b "%a" ++ [LINE_FEED] ++ Py.b "  12")
         (Py.len (Py.b "%a" ++ [LINE_FEED] ++ Py.b "  12")
          - Py.len (49 :: [50])) [] [] 200 PyNone).
Proof.
  apply (blanks_transparent (Py.b "%a" ++ [LINE_FEED] ++ Py.b "  12") 0 49
           [50] [] 200 PyNone 20).
  - lia.
  - reflexivity.
  - cbn. lia.
Defined.

(** ** Numbers *)

Ltac lxb :=
  cbv beta iota zeta delta
    [Lexer.bind Lexer.gets Lexer.ret Lexer.raise Lexer.modify deliver].

Lemma primed_current (src : list Z) (q : Z) (u : list Z) lb mh cs cl :
  0 <= q -> skipn (Z.to_nat q) src = u ->
  Lexer.current (primed_at src q lb mh cs cl)
  = match u with c :: _ => c | [] => 32 end.
Proof.
  intros Hq Hu. destruct u as [|c rest].
  - unfold primed_at.
    destruct (nth_error src (Z.to_nat q)) eqn:E; [|reflexivity].
    apply nth_error_skipn in E. congruence.
  - now rewrite (primed_at_byte src lb mh cs q c rest cl Hq Hu).
Qed.

Lemma append_byte (buff : list Z) (c : Z) :
  0 <= c < 256 -> Lexer.append buff c = Lexer.ret (buff ++ [c]).
Proof.
  intros H. unfold Lexer.append.
  destruct (Z.leb_spec 0 c); [|lia]. destruct (Z.ltb_spec c 256); [|lia].
  reflexivity.
Qed.

Lemma deliver_primed (src : list Z) (q : Z) lb mh cs cl l :
  deliver l (primed_at src q lb mh cs cl)
  = (Ok l, primed_at src q lb mh cs l).
Proof.
  lxb. now rewrite set_currentLexeme_primed_at, primed_lexeme.
Qed.

(** The digit loop of [__parse_number] appends the run of digits at the
    lexer's position and stops on the byte after it. *)
Lemma digits_loop_spec (src : list Z) lb mh cs cl (ds tail : list Z) :
  forall (q : Z) (buff : list Z) (fuel : nat),
  0 <= q -> skipn (Z.to_nat q) src = ds ++ tail ->
  forallb is_digit ds = true -> stops_before is_digit tail = true ->
  (List.length ds + 1 <= fuel)%nat ->
  Lexer.digits_loop fuel buff (primed_at src q lb mh cs cl)
  = (Ok (buff ++ ds), primed_at src (q + Py.len ds) lb mh cs cl).
Proof.
  induction ds as [|d ds IH]; intros q buff fuel Hq Hsrc Hds Htail Hfuel;
    (destruct fuel as [|fuel]; [cbn in Hfuel; lia|]);
    cbn [Lexer.digits_loop]; lxb;
    rewrite (primed_current src q _ lb mh cs cl Hq Hsrc); cbn [app].
  - assert (Hc : is_digit match tail with c :: _ => c | [] => 32 end = false).
    { destruct tail as [|t tail]; [reflexivity|].
      cbn [stops_before] in Htail. now apply negb_true_iff in Htail. }
    rewrite Hc, app_nil_r. unfold Py.len. cbn [List.length Z.of_nat].
    now rewrite Z.add_0_r.
  - cbn [forallb] in Hds. apply andb_true_iff in Hds as [Hd Hds].
    rewrite Hd. rewrite append_byte by (unfold is_digit in Hd; lia). lxb.
    cbn [app] in Hsrc.
    destruct (rest_cons _ _ _ _ Hq Hsrc) as (Hlt & _ & Hnext).
    rewrite advance_primed by lia.
    rewrite (IH (q + 1) (buff ++ [d]) fuel) by
      (auto; try lia; cbn [List.length] in Hfuel; lia).
    rewrite <- app_assoc. cbn [app]. do 2 f_equal.
    unfold Py.len. cbn [List.length]. lia.
Qed.

Lemma int_of_signed (sign ds : list Z) :
  is_sign sign = true -> forallb is_digit ds = true ->
  Codecs.int_of_text (sign ++ ds)
  = match ds with [] => None | _ => Some (signed_value sign ds) end.
Proof.
  intros Hs Hds. unfold Codecs.int_of_text, signed_value.
  destruct sign as [|s [|s' sign]]; try discriminate; cbn [app is_sign] in *.
  - destruct ds as [|d ds]; [reflexivity|].
    cbn [forallb] in Hds. apply andb_true_iff in Hds as [Hd Hds].
    assert ((d =? PLUS) = false) as -> by (unfold is_digit, PLUS in *; lia).
    assert ((d =? MINUS) = false) as -> by (unfold is_digit, MINUS in *; lia).
    cbn [forallb]. now rewrite Hd, Hds.
  - destruct (s =? PLUS) eqn:Hp.
    + assert ((s =? MINUS) = false) as -> by (unfold PLUS, MINUS in *; lia).
      destruct ds; [reflexivity | now rewrite Hds].
    + cbn [orb] in Hs. rewrite Hs.
      destruct ds; [reflexivity | now rewrite Hds].
Qed.

(** [__next__] on a digit, a sign or a point hands over to
    [__parse_number]. *)
Lemma next_number_head (src : list Z) (q c : Z) (rest : list Z)
  (mh : list (Lexeme * Z)) (cs : Z) (cl : Lexeme) (fuel : nat) :
  0 <= q -> skipn (Z.to_nat q) src = c :: rest ->
  is_digit c || Py.mem c [PLUS; MINUS; POINT] = true ->
  Lexer.next (S fuel) (primed_at src q [] mh cs cl)
  = Lexer.bind (Lexer.parse_number (S fuel)) deliver
      (primed_at src q [] mh cs cl).
Proof.
  intros Hq Hsrc Hc.
  rewrite (primed_at_byte src [] mh cs q c rest cl Hq Hsrc).
  assert (Hb : Py.mem c BLANKS = false)
    by (unfold is_digit, Py.mem, BLANKS, PLUS, MINUS, POINT in *;
        cbn [existsb] in *; lia).
  assert (H1 : (c =? PERCENTAGE) = false)
    by (unfold is_digit, Py.mem, PERCENTAGE, PLUS, MINUS, POINT in *;
        cbn [existsb] in *; lia).
  assert (H2 : (c =? OPEN_PARENTHESIS) = false)
    by (unfold is_digit, Py.mem, OPEN_PARENTHESIS, PLUS, MINUS, POINT in *;
        cbn [existsb] in *; lia).
  assert (H3 : (c =? OPEN_ANGLE_BRACKET) = false)
    by (unfold is_digit, Py.mem, OPEN_ANGLE_BRACKET, PLUS, MINUS, POINT in *;
        cbn [existsb] in *; lia).
  assert (H4 : (c =? FORWARD_SLASH) = false)
    by (unfold is_digit, Py.mem, FORWARD_SLASH, PLUS, MINUS, POINT in *;
        cbn [existsb] in *; lia).
  unfold Lexer.next, deliver. lx. cbn [Lexer.remove_blanks]. lx.
  rewrite Hb, H1, H2, H3, H4. lx.
  apply orb_true_iff in Hc.
  assert (Hnum : (if is_digit c then true
                  else Py.mem c [PLUS; MINUS; POINT]) = true)
    by (destruct (is_digit c); [reflexivity | destruct Hc; congruence]).
  rewrite Hnum.
  destruct (Lexer.parse_number (S fuel) _) as [[l|e|] st']; reflexivity.
Qed.

Lemma skipn_after (src l1 l2 : list Z) (q : Z) :
  0 <= q -> skipn (Z.to_nat q) src = l1 ++ l2 ->
  skipn (Z.to_nat (q + Py.len l1)) src = l2.
Proof.
  intros Hq H. unfold Py.len.
  replace (Z.to_nat (q + Z.of_nat (List.length l1)))
    with (List.length l1 + Z.to_nat q)%nat by lia.
  rewrite <- skipn_skipn, H, skipn_app, skipn_all, Nat.sub_diag. reflexivity.
Qed.

(** The optional sign of [__parse_number]. *)
Lemma sign_step (src : list Z) lb mh cs cl (sign u : list Z) (q : Z) :
  0 <= q -> skipn (Z.to_nat q) src = sign ++ u ->
  is_sign sign = true ->
  (sign = [] ->
   stops_before (fun t => (t =? PLUS) || (t =? MINUS)) u = true) ->
  Lexer.bind (Lexer.gets Lexer.current) (fun c =>
    if (c =? PLUS) || (c =? MINUS)
    then Lexer.bind (Lexer.append [] c) (fun buff =>
           Lexer.bind Lexer.advance (fun _ => Lexer.ret buff))
    else Lexer.ret []) (primed_at src q lb mh cs cl)
  = (Ok sign, primed_at src (q + Py.len sign) lb mh cs cl).
Proof.
  intros Hq Hsrc Hsign Hu. lxb.
  rewrite (primed_current src q _ lb mh cs cl Hq Hsrc).
  destruct sign as [|s [|s' sign]]; try discriminate; cbn [app is_sign] in *.
  - specialize (Hu eq_refl).
    assert (Hc : (match u with c :: _ => c | [] => 32 end =? PLUS)
                 || (match u with c :: _ => c | [] => 32 end =? MINUS)
                 = false).
    { destruct u as [|t u]; [reflexivity|].
      cbn [stops_before] in Hu. now apply negb_true_iff in Hu. }
    rewrite Hc. unfold Py.len. cbn [List.length Z.of_nat].
    now rewrite Z.add_0_r.
  - rewrite Hsign.
    rewrite append_byte by (unfold PLUS, MINUS in Hsign; lia). lxb.
    destruct (rest_cons _ _ _ _ Hq Hsrc) as (Hlt & _ & _).
    rewrite advance_primed by lia. reflexivity.
Qed.

Lemma digit_no_sign (ds tail : list Z) :
  forallb is_digit ds = true -> ds <> [] ->
  stops_before (fun t => (t =? PLUS) || (t =? MINUS)) (ds ++ tail) = true.
Proof.
  destruct ds as [|d ds]; [congruence|]. cbn [forallb app stops_before].
  intros H _. apply andb_true_iff in H as [H _].
  unfold is_digit, PLUS, MINUS in *. lia.
Qed.

(** [__parse_number] on a sign and a run of digits that no point
    follows. *)
Lemma parse_number_int (src : list Z) lb mh cs cl (sign ds tail : list Z)
  (q : Z) (fuel : nat) :
  0 <= q -> skipn (Z.to_nat q) src = sign ++ ds ++ tail ->
  is_sign sign = true -> forallb is_digit ds = true ->
  (sign = [] -> ds <> []) ->
  stops_before (fun t => is_digit t || (t =? POINT)) tail = true ->
  (List.length ds + 1 <= fuel)%nat ->
  Lexer.parse_number fuel (primed_at src q lb mh cs cl)
  = match ds with
    | [] => (Raise ValueError, primed_at src (q + Py.len sign) lb mh cs cl)
    | _ => (Ok (PyInt (signed_value sign ds)),
            primed_at src (q + Py.len sign + Py.len ds) lb mh cs cl)
    end.
Proof.
  intros Hq Hsrc Hsign Hds Hne Htail Hfuel.
  assert (Hstop : stops_before is_digit tail = true
                  /\ (match tail with c :: _ => c | [] => 32 end =? POINT)
                     = false).
  { destruct tail as [|t tail]; [split; reflexivity|].
    cbn [stops_before] in *. apply negb_true_iff in Htail.
    apply orb_false_iff in Htail as [-> ->]. split; reflexivity. }
  destruct Hstop as [Hstop Hpoint].
  pose proof (sign_step src lb mh cs cl sign (ds ++ tail) q Hq Hsrc Hsign)
    as Hstep.
  unfold Lexer.parse_number. revert Hstep. lxb. intros ->.
  2:{ intros ->. apply digit_no_sign; auto. }
  assert (Hq1 : 0 <= q + Py.len sign) by (unfold Py.len; lia).
  pose proof (skipn_after src sign (ds ++ tail) q Hq Hsrc) as Hsrc1.
  rewrite (digits_loop_spec src lb mh cs cl ds tail (q + Py.len sign) sign
             fuel Hq1 Hsrc1 Hds Hstop Hfuel).
  pose proof (skipn_after src ds tail _ Hq1 Hsrc1) as Hsrc2.
  assert (Hq2 : 0 <= q + Py.len sign + Py.len ds) by (unfold Py.len in *; lia).
  rewrite (primed_current src _ _ lb mh cs cl Hq2 Hsrc2).
  rewrite Hpoint, (int_of_signed sign ds Hsign Hds).
  destruct ds; [|reflexivity].
  unfold Py.len at 2. cbn [List.length Z.of_nat]. now rewrite Z.add_0_r.
Qed.

(** [__parse_number] on a sign, a run of digits, a point and a second run
    of digits. *)
Lemma parse_number_real (src : list Z) lb mh cs cl
  (sign ds ds2 tail : list Z) (q : Z) (fuel : nat) :
  0 <= q -> skipn (Z.to_nat q) src = sign ++ ds ++ [POINT] ++ ds2 ++ tail ->
  is_sign sign = true ->
  forallb is_digit ds = true -> forallb is_digit ds2 = true ->
  stops_before is_digit tail = true ->
  (List.length ds + List.length ds2 + 1 <= fuel)%nat ->
  Lexer.parse_number fuel (primed_at src q lb mh cs cl)
  = (match ds ++ ds2 with
     | [] => Raise ValueError
     | _ => Ok (PyFloat (sign ++ ds ++ [POINT] ++ ds2))
     end,
     primed_at src (q + Py.len (sign ++ ds ++ [POINT] ++ ds2)) lb mh cs cl).
Proof.
  intros Hq Hsrc Hsign Hds Hds2 Htail Hfuel.
  pose proof (sign_step src lb mh cs cl sign
                (ds ++ [POINT] ++ ds2 ++ tail) q Hq Hsrc Hsign) as Hstep.
  unfold Lexer.parse_number. revert Hstep. lxb. intros ->.
  2:{ intros _. destruct ds as [|d ds'].
      - reflexivity.
      - apply digit_no_sign; [exact Hds | discriminate]. }
  assert (Hq1 : 0 <= q + Py.len sign) by (unfold Py.len; lia).
  pose proof (skipn_after src sign _ q Hq Hsrc) as Hsrc1.
  rewrite (digits_loop_spec src lb mh cs cl ds ([POINT] ++ ds2 ++ tail)
             (q + Py.len sign) sign fuel Hq1 Hsrc1 Hds eq_refl)
    by lia.
  assert (Hq2 : 0 <= q + Py.len sign + Py.len ds) by (unfold Py.len in *; lia).
  pose proof (skipn_after src ds _ _ Hq1 Hsrc1) as Hsrc2.
  rewrite (primed_current src _ _ lb mh cs cl Hq2 Hsrc2).
  cbn [app]. change (POINT =? POINT) with true. cbv iota.
  rewrite append_byte by (unfold POINT; lia). lxb.
  destruct (rest_cons _ _ _ _ Hq2 Hsrc2) as (Hlt & _ & Hsrc3).
  rewrite advance_primed by lia.
  assert (Hq3 : 0 <= q + Py.len sign + Py.len ds + 1) by lia.
  rewrite (digits_loop_spec src lb mh cs cl ds2 tail
             (q + Py.len sign + Py.len ds + 1) ((sign ++ ds) ++ [POINT])
             fuel Hq3 Hsrc3 Hds2 Htail) by lia.
  replace (((sign ++ ds) ++ [POINT]) ++ ds2)
    with (sign ++ ds ++ POINT :: ds2)
    by (now rewrite <- !app_assoc).
  replace (q + Py.len sign + Py.len ds + 1 + Py.len ds2)
    with (q + Py.len (sign ++ ds ++ POINT :: ds2))
    by (unfold Py.len; rewrite !length_app; cbn [List.length]; lia).
  assert (Hok : Codecs.float_text_ok (sign ++ ds ++ POINT :: ds2)
                = match ds ++ ds2 with [] => false | _ => true end).
  { unfold Codecs.float_text_ok. rewrite !existsb_app. cbn [existsb].
    assert (Hs : existsb is_digit sign = false).
    { destruct sign as [|s [|]]; try discriminate; [reflexivity|].
      cbn [is_sign existsb] in *. unfold is_digit, PLUS, MINUS in *. lia. }
    rewrite Hs. change (is_digit POINT) with false. cbn [orb].
    destruct ds as [|d ds']; cbn [app existsb forallb] in *.
    - destruct ds2 as [|d2 ds2']; [reflexivity|].
      cbn [existsb forallb] in *. apply andb_true_iff in Hds2 as [-> _].
      reflexivity.
    - apply andb_true_iff in Hds as [-> _]. reflexivity. }
  rewrite Hok. destruct (ds ++ ds2); reflexivity.
Qed.

Lemma number_head (sign ds rest : list Z) :
  is_sign sign = true -> forallb is_digit ds = true ->
  forall c u, sign ++ ds ++ rest = c :: u ->
  sign ++ ds <> [] ->
  is_digit c || Py.mem c [PLUS; MINUS; POINT] = true.
Proof.
  intros Hsign Hds c u H Hne.
  destruct sign as [|s [|s' sign]]; try discriminate; cbn [app is_sign] in *.
  - destruct ds as [|d ds]; [congruence|]. cbn [app forallb] in *.
    injection H as <- _. apply andb_true_iff in Hds as [-> _]. reflexivity.
  - injection H as <- _. unfold Py.mem. cbn [existsb].
    destruct (s =? PLUS), (s =? MINUS), (is_digit s); try reflexivity;
      discriminate.
Qed.

(** A pull on a sign and digits returns the integer they write. *)
Lemma next_integer (src sign ds tail : list Z) (q : Z)
  (mh : list (Lexeme * Z)) (cs : Z) (cl : Lexeme) (fuel : nat) :
  0 <= q -> skipn (Z.to_nat q) src = sign ++ ds ++ tail ->
  is_sign sign = true -> forallb is_digit ds = true -> ds <> [] ->
  stops_before (fun t => is_digit t || (t =? POINT)) tail = true ->
  (List.length ds + 1 <= fuel)%nat ->
  Lexer.next fuel (primed_at src q [] mh cs cl)
  = (Ok (PyInt (signed_value sign ds)),
     primed_at src (q + Py.len sign + Py.len ds) [] mh cs
               (PyInt (signed_value sign ds))).
Proof.
  intros Hq Hsrc Hsign Hds Hne Htail Hfuel.
  destruct fuel as [|fuel]; [lia|].
  destruct (sign ++ ds ++ tail) as [|c u] eqn:Hu.
  { destruct sign, ds; try discriminate; congruence. }
  assert (Hc : is_digit c || Py.mem c [PLUS; MINUS; POINT] = true).
  { apply (number_head sign ds tail Hsign Hds c u Hu).
    destruct sign, ds; try discriminate; congruence. }
  rewrite (next_number_head src q c u mh cs cl fuel Hq Hsrc Hc).
  rewrite <- Hu in Hsrc. unfold Lexer.bind.
  rewrite (parse_number_int src [] mh cs cl sign ds tail q (S fuel)
             Hq Hsrc Hsign Hds (fun _ => Hne) Htail Hfuel).
  destruct ds; [congruence|]. apply deliver_primed.
Qed.

(** X10. An optional sign and a non-empty run of decimal digits, followed
    by the end of the input or by a byte that is neither a digit nor a
    point, yield the integer they write in base ten, negated after a minus
    sign; exactly the sign and the digits are consumed.  Any other byte
    ends the number: no delimiter is asked for.  The text is taken to be
    of at most 4300 bytes, the length up to which every Python version
    converts a decimal text to an integer. *)
Theorem integer_lexeme (src sign ds tail : list Z) (q : Z)
  (mh : list (Lexeme * Z)) (cs : Z) (cl : Lexeme) (fuel : nat) :
  0 <= q -> skipn (Z.to_nat q) src = sign ++ ds ++ tail ->
  is_sign sign = true -> forallb is_digit ds = true -> ds <> [] ->
  (List.length (sign ++ ds) <= 4300)%nat ->
  stops_before (fun t => is_digit t || (t =? POINT)) tail = true ->
  (List.length ds + 1 <= fuel)%nat ->
  Lexer.next fuel (primed_at src q [] mh cs cl)
  = (Ok (PyInt (signed_value sign ds)),
     primed_at src (q + Py.len sign + Py.len ds) [] mh cs
               (PyInt (signed_value sign ds))).
Proof.
  intros Hq Hsrc Hsign Hds Hne _ Htail Hfuel.
  now apply (next_integer src sign ds tail).
Qed.

(** [integer_lexeme] on [-12obj]. *)
Lemma integer_lexeme_witness :
  Lexer.next 3 (primed_at (Py.b "-12obj") 0 [] [] 200 PyNone)
  = (Ok (PyInt (signed_value (Py.b "-") (Py.b "12"))),
     primed_at (Py.b "-12obj") (0 + Py.len (Py.b "-") + Py.len (Py.b "12"))
               [] [] 200 (PyInt (signed_value (Py.b "-") (Py.b "12")))).
Proof.
  apply (integer_lexeme (Py.b "-12obj") (Py.b "-") (Py.b "12") (Py.b "obj") 0
           [] 200 PyNone 3); try reflexivity; try (cbn; lia).
  discriminate.
Defined.

(** X11. An optional sign, a run of digits, a point and a second run of
    digits, of which at least one digit in all, followed by the end of the
    input or by a byte that is no digit, yield a real number whose text is
    exactly those bytes; the integer part or the fraction may be empty
    ([4.], [.5]), and a second point ends the number. *)
Theorem real_lexeme (src sign ds ds2 tail : list Z) (q : Z)
  (mh : list (Lexeme * Z)) (cs : Z) (cl : Lexeme) (fuel : nat) :
  0 <= q -> skipn (Z.to_nat q) src = sign ++ ds ++ [POINT] ++ ds2 ++ tail ->
  is_sign sign = true ->
  forallb is_digit ds = true -> forallb is_digit ds2 = true ->
  ds ++ ds2 <> [] ->
  stops_before is_digit tail = true ->
  (List.length ds + List.length ds2 + 1 <= fuel)%nat ->
  Lexer.next fuel (primed_at src q [] mh cs cl)
  = (Ok (PyFloat (sign ++ ds ++ [POINT] ++ ds2)),
     primed_at src (q + Py.len (sign ++ ds ++ [POINT] ++ ds2)) [] mh cs
               (PyFloat (sign ++ ds ++ [POINT] ++ ds2))).
Proof.
  intros Hq Hsrc Hsign Hds Hds2 Hne Htail Hfuel.
  destruct fuel as [|fuel]; [lia|].
  destruct (sign ++ ds ++ [POINT] ++ ds2 ++ tail) as [|c u] eqn:Hu.
  { destruct sign, ds; discriminate. }
  assert (Hc : is_digit c || Py.mem c [PLUS; MINUS; POINT] = true).
  { destruct sign as [|s sign].
    - destruct ds as [|d ds].
      + cbn [app] in Hu. injection Hu as <- _. reflexivity.
      + apply (number_head [] (d :: ds) _ Hsign Hds c u Hu). discriminate.
    - apply (number_head (s :: sign) ds _ Hsign Hds c u Hu). discriminate. }
  rewrite (next_number_head src q c u mh cs cl fuel Hq Hsrc Hc).
  rewrite <- Hu in Hsrc. unfold Lexer.bind.
  rewrite (parse_number_real src [] mh cs cl sign ds ds2 tail q (S fuel)
             Hq Hsrc Hsign Hds Hds2 Htail Hfuel).
  destruct (ds ++ ds2); [congruence|]. apply deliver_primed.
Qed.

(** [real_lexeme] on [+.5.2]: the real [+.5], then [.2] is left. *)
Lemma real_lexeme_witness :
  Lexer.next 2 (primed_at (Py.b "+.5.2") 0 [] [] 200 PyNone)
  = (Ok (PyFloat (Py.b "+" ++ [] ++ [POINT] ++ Py.b "5")),
     primed_at (Py.b "+.5.2")
               (0 + Py.len (Py.b "+" ++ [] ++ [POINT] ++ Py.b "5")) [] [] 200
               (PyFloat (Py.b "+" ++ [] ++ [POINT] ++ Py.b "5"))).
Proof.
  apply (real_lexeme (Py.b "+.5.2") (Py.b "+") [] (Py.b "5") (Py.b ".2") 0
           [] 200 PyNone 2); try reflexivity; try lia.
  discriminate.
Defined.

(** X12. A sign, a point, or a sign and a point, not followed by a digit
    (nor, for a lone sign, by a point) make the pull raise [ValueError], the
    exception of Python's [int] and [float], not [PDFLexicalError]; the sign
    and the point have been consumed and the current lexeme is the one of
    before. *)
Theorem number_without_digits (src sign point tail : list Z) (q : Z)
  (mh : list (Lexeme * Z)) (cs : Z) (cl : Lexeme) (fuel : nat) :
  0 <= q -> skipn (Z.to_nat q) src = sign ++ point ++ tail ->
  is_sign sign = true -> point = [] \/ point = [POINT] ->
  sign ++ point <> [] ->
  stops_before (fun t => is_digit t || (t =? POINT)) tail = true ->
  (1 <= fuel)%nat ->
  Lexer.next fuel (primed_at src q [] mh cs cl)
  = (Raise ValueError,
     primed_at src (q + Py.len (sign ++ point)) [] mh cs cl).
Proof.
  intros Hq Hsrc Hsign Hpoint Hne Htail Hfuel.
  destruct fuel as [|fuel]; [lia|].
  destruct (sign ++ point ++ tail) as [|c u] eqn:Hu.
  { destruct sign, point; try discriminate. now contradiction Hne. }
  destruct Hpoint as [-> | ->].
  - assert (Hc : is_digit c || Py.mem c [PLUS; MINUS; POINT] = true).
    { apply (number_head sign [] tail Hsign eq_refl c u Hu).
      now rewrite app_nil_r in Hne |- *. }
    rewrite (next_number_head src q c u mh cs cl fuel Hq Hsrc Hc).
    rewrite <- Hu in Hsrc. unfold Lexer.bind.
    rewrite (parse_number_int src [] mh cs cl sign [] tail q (S fuel)
               Hq Hsrc Hsign eq_refl) by
      (auto; try (cbn; lia); intros ->; now contradiction Hne).
    now rewrite app_nil_r.
  - assert (Hc : is_digit c || Py.mem c [PLUS; MINUS; POINT] = true).
    { destruct sign as [|s sign].
      - cbn [app] in Hu. injection Hu as <- _. reflexivity.
      - apply (number_head (s :: sign) [] _ Hsign eq_refl c u Hu).
        discriminate. }
    rewrite (next_number_head src q c u mh cs cl fuel Hq Hsrc Hc).
    rewrite <- Hu in Hsrc. unfold Lexer.bind.
    assert (Hstop : stops_before is_digit tail = true).
    { destruct tail as [|t tail]; [reflexivity|].
      cbn [stops_before] in *. apply negb_true_iff in Htail.
      apply orb_false_iff in Htail as [-> _]. reflexivity. }
    rewrite (parse_number_real src [] mh cs cl sign [] [] tail q (S fuel)
               Hq Hsrc Hsign eq_refl eq_refl Hstop) by (cbn; lia).
    reflexivity.
Qed.

(** [number_without_digits] on [-.] followed by a blank. *)
Lemma number_without_digits_witness :
  Lexer.next 1 (primed_at (Py.b "-. ") 0 [] [] 200 PyNone)
  = (Raise ValueError,
     primed_at (Py.b "-. ") (0 + Py.len (Py.b "-" ++ [POINT])) [] [] 200
               PyNone).
Proof.
  apply (number_without_digits (Py.b "-. ") (Py.b "-") [POINT] (Py.b " ") 0
           [] 200 PyNone 1); try reflexivity; try lia.
  - now right.
  - discriminate.
Defined.

(** ** Names *)

Lemma hex_to_number_digit (h : Z) :
  is_hex_digit h = true ->
  hex_to_number h = Some (hex_value h) /\ 0 <= hex_value h < 16.
Proof.
  unfold hex_value, hex_to_number, is_hex_digit. intros H.
  destruct ((48 <=? h) && (h <? 58)) eqn:E1; [split; [reflexivity | lia]|].
  destruct ((65 <=? h) && (h <? 71)) eqn:E2; [split; [reflexivity | lia]|].
  destruct ((97 <=? h) && (h <? 103)) eqn:E3; [split; [reflexivity | lia]|].
  discriminate.
Qed.

Lemma hex_to_number_other (h : Z) :
  is_hex_digit h = false -> hex_to_number h = None.
Proof.
  unfold hex_to_number, is_hex_digit. intros H.
  apply orb_false_iff in H as [H ->]. apply orb_false_iff in H as [-> ->].
  reflexivity.
Qed.

Lemma item_value_byte (it : NameItem) :
  item_ok it = true -> 0 <= item_value it < 256.
Proof.
  destruct it as [c | h1 h2]; cbn [item_ok item_value]; intros H.
  - unfold name_byte in H. lia.
  - apply andb_true_iff in H as [H1 H2].
    apply hex_to_number_digit in H1 as [_ H1].
    apply hex_to_number_digit in H2 as [_ H2]. lia.
Qed.

Lemma ascii_decode_spec (l : list Z) :
  Forall (fun v => 0 <= v) l ->
  Codecs.ascii_decode l
  = if forallb (fun v => v <? 128) l then Some l else None.
Proof.
  induction 1 as [|v l Hv _ IH]; [reflexivity|].
  cbn [Codecs.ascii_decode forallb]. unfold Codecs.in_range.
  destruct (Z.ltb_spec v 128).
  - replace ((0 <=? v) && (v <=? 127)) with true by lia.
    rewrite IH. cbn [andb]. now destruct (forallb _ l).
  - replace ((0 <=? v) && (v <=? 127)) with false by lia. reflexivity.
Qed.

(** The loop of [__parse_name] takes the items of a name one by one. *)
Lemma name_loop_items (src : list Z) lb mh cs cl (items : list NameItem)
  (rest : list Z) :
  forall (q : Z) (buffer : list Z) (fuel : nat),
  0 <= q -> skipn (Z.to_nat q) src = name_bytes items ++ rest ->
  forallb item_ok items = true ->
  Lexer.name_loop (List.length items + fuel) buffer
    (primed_at src q lb mh cs cl)
  = Lexer.name_loop fuel (buffer ++ name_text items)
      (primed_at src (q + Py.len (name_bytes items)) lb mh cs cl).
Proof.
  induction items as [|it items IH]; intros q buffer fuel Hq Hsrc Hok.
  - cbn [name_text map name_bytes flat_map List.length Nat.add].
    rewrite app_nil_r. unfold Py.len. cbn [List.length Z.of_nat].
    now rewrite Z.add_0_r.
  - cbn [List.length Nat.add Lexer.name_loop]. lxb.
    rewrite (primed_current src q _ lb mh cs cl Hq Hsrc).
    cbn [name_bytes flat_map name_text map app forallb] in Hsrc, Hok |- *.
    fold (name_bytes items) in Hsrc |- *. fold (name_text items).
    apply andb_true_iff in Hok as [Hit Hok].
    pose proof (item_value_byte it Hit) as Hbyte.
    destruct it as [c | h1 h2]; cbn [item_bytes item_ok item_value app] in *.
    + apply andb_true_iff in Hit as [Hc Hn]. apply negb_true_iff in Hn.
      unfold name_byte in Hc. rewrite Hc, Hn.
      rewrite append_byte by exact Hbyte. lxb.
      destruct (rest_cons _ _ _ _ Hq Hsrc) as (Hlt & _ & Hnext).
      rewrite advance_primed by lia.
      rewrite (IH (q + 1) (buffer ++ [c]) fuel) by (auto; lia).
      rewrite <- app_assoc. cbn [app]. do 2 f_equal.
      unfold Py.len. cbn [List.length]. lia.
    + apply andb_true_iff in Hit as [Hh1 Hh2].
      change ((33 <=? NUMBER_SIGN) && (NUMBER_SIGN <=? 126)) with true.
      change (NUMBER_SIGN =? NUMBER_SIGN) with true. cbv iota.
      destruct (rest_cons _ _ _ _ Hq Hsrc) as (Hlt & _ & Hsrc1).
      rewrite advance_primed by lia.
      assert (Hq1 : 0 <= q + 1) by lia.
      rewrite (primed_current src _ _ lb mh cs cl Hq1 Hsrc1).
      rewrite (proj1 (hex_to_number_digit h1 Hh1)).
      destruct (rest_cons _ _ _ _ Hq1 Hsrc1) as (Hlt1 & _ & Hsrc2).
      rewrite advance_primed by lia.
      assert (Hq2 : 0 <= q + 1 + 1) by lia.
      rewrite (primed_current src _ _ lb mh cs cl Hq2 Hsrc2).
      rewrite (proj1 (hex_to_number_digit h2 Hh2)).
      rewrite Z.shiftl_mul_pow2 by lia.
      change (2 ^ 4) with 16.
      rewrite append_byte by lia. lxb.
      destruct (rest_cons _ _ _ _ Hq2 Hsrc2) as (Hlt2 & _ & Hsrc3).
      rewrite advance_primed by lia.
      rewrite (IH (q + 1 + 1 + 1)
                 (buffer ++ [hex_value h1 * 16 + hex_value h2]) fuel)
        by (auto; lia).
      rewrite <- app_assoc. cbn [app].
      replace (hex_value h1 * 16) with (16 * hex_value h1) by lia.
      do 2 f_equal. unfold Py.len. cbn [List.length]. lia.
Qed.

(** It stops on the first byte outside [!]..[~]. *)
Lemma name_loop_spec (src : list Z) lb mh cs cl (items : list NameItem)
  (tail : list Z) (q : Z) (buffer : list Z) (fuel : nat) :
  0 <= q -> skipn (Z.to_nat q) src = name_bytes items ++ tail ->
  forallb item_ok items = true -> stops_before name_byte tail = true ->
  (List.length items + 1 <= fuel)%nat ->
  Lexer.name_loop fuel buffer (primed_at src q lb mh cs cl)
  = (Ok (buffer ++ name_text items),
     primed_at src (q + Py.len (name_bytes items)) lb mh cs cl).
Proof.
  intros Hq Hsrc Hok Htail Hfuel.
  replace fuel with (List.length items + S (fuel - List.length items - 1))%nat
    by lia.
  rewrite (name_loop_items src lb mh cs cl items tail q buffer _ Hq Hsrc Hok).
  cbn [Lexer.name_loop]. lxb.
  assert (Hq1 : 0 <= q + Py.len (name_bytes items)) by (unfold Py.len; lia).
  rewrite (primed_current src _ _ lb mh cs cl Hq1
             (skipn_after src _ _ q Hq Hsrc)).
  assert (Hc : (33 <=? match tail with c :: _ => c | [] => 32 end)
               && (match tail with c :: _ => c | [] => 32 end <=? 126)
               = false).
  { destruct tail as [|t tail]; [reflexivity|].
    cbn [stops_before] in Htail. now apply negb_true_iff in Htail. }
  now rewrite Hc.
Qed.

(** [__next__] on a solidus hands over to [__parse_name]. *)
Lemma next_name_head (src : list Z) (q : Z) (rest : list Z)
  (mh : list (Lexeme * Z)) (cs : Z) (cl : Lexeme) (fuel : nat) :
  0 <= q -> skipn (Z.to_nat q) src = FORWARD_SLASH :: rest ->
  Lexer.next (S fuel) (primed_at src q [] mh cs cl)
  = Lexer.bind (Lexer.parse_name (S fuel)) deliver
      (primed_at src q [] mh cs cl).
Proof.
  intros Hq Hsrc.
  rewrite (primed_at_byte src [] mh cs q _ rest cl Hq Hsrc).
  unfold Lexer.next, deliver. lx. cbn [Lexer.remove_blanks]. lx_run.
  destruct (Lexer.parse_name (S fuel) _) as [[l|e|] st']; reflexivity.
Qed.

(** X13. A solidus followed by plain bytes from [!] to [~] and
    [#]-escapes of two hexadecimal digits, up to the end of the input or a
    byte outside [!]..[~], yields the name whose characters are the plain
    bytes and the values of the escapes; the pull raises
    [UnicodeDecodeError] instead when an escape has a value of 128 or more.
    All of the written name is consumed either way.  A second solidus, a
    bracket or a parenthesis does not end the name. *)
Theorem name_lexeme (src : list Z) (items : list NameItem) (tail : list Z)
  (q : Z) (mh : list (Lexeme * Z)) (cs : Z) (cl : Lexeme) (fuel : nat) :
  0 <= q ->
  skipn (Z.to_nat q) src = [FORWARD_SLASH] ++ name_bytes items ++ tail ->
  forallb item_ok items = true -> stops_before name_byte tail = true ->
  (List.length items + 1 <= fuel)%nat ->
  Lexer.next fuel (primed_at src q [] mh cs cl)
  = if forallb (fun v => v <? 128) (name_text items)
    then (Ok (PDFName (name_text items)),
          primed_at src (q + 1 + Py.len (name_bytes items)) [] mh cs
                    (PDFName (name_text items)))
    else (Raise UnicodeDecodeError,
          primed_at src (q + 1 + Py.len (name_bytes items)) [] mh cs cl).
Proof.
  intros Hq Hsrc Hok Htail Hfuel. destruct fuel as [|fuel]; [lia|].
  cbn [app] in Hsrc.
  rewrite (next_name_head src q _ mh cs cl fuel Hq Hsrc).
  destruct (rest_cons _ _ _ _ Hq Hsrc) as (Hlt & _ & Hsrc1).
  unfold Lexer.parse_name. lxb.
  rewrite advance_primed by lia.
  assert (Hq1 : 0 <= q + 1) by lia.
  rewrite (name_loop_spec src [] mh cs cl items tail (q + 1) [] (S fuel)
             Hq1 Hsrc1 Hok Htail Hfuel).
  cbn [app]. rewrite ascii_decode_spec.
  - destruct (forallb (fun v => v <? 128) (name_text items)); [|reflexivity].
    now rewrite set_currentLexeme_primed_at, primed_lexeme.
  - unfold name_text. apply Forall_map, Forall_forall. intros it Hin.
    rewrite forallb_forall in Hok.
    pose proof (item_value_byte it (Hok it Hin)). lia.
Qed.

(** [name_lexeme] on [/A#20b/C] followed by a blank: the one name
    [A b/C]. *)
Lemma name_lexeme_witness :
  Lexer.next 6
    (primed_at (Py.b "/A#20b/C ") 0 [] [] 200 PyNone)
  = (Ok (PDFName (Py.b "A b/C")),
     primed_at (Py.b "/A#20b/C ") 8 [] [] 200 (PDFName (Py.b "A b/C"))).
Proof.
  apply (name_lexeme (Py.b "/A#20b/C ")
           [NChar 65; NEsc 50 48; NChar 98; NChar 47; NChar 67] (Py.b " ") 0
           [] 200 PyNone 6); try reflexivity; cbn; lia.
Defined.

Lemma raise_lexer_error_primed (msg : LexMsg) (src : list Z) (q : Z)
  lb mh cs cl :
  0 <= q ->
  is_lexical_error msg
    (Seekable.tell (Lexer.source (primed_at src q lb mh cs cl)))
    (fst (Lexer.raise_lexer_error msg (primed_at src q lb mh cs cl)))
  /\ snd (Lexer.raise_lexer_error msg (primed_at src q lb mh cs cl))
     = primed_at src q lb mh cs cl.
Proof.
  intros Hq. unfold primed_at.
  destruct (nth_error src (Z.to_nat q)) as [c|] eqn:E.
  - assert (Hlt : (Z.to_nat q < List.length src)%nat)
      by (apply nth_error_Some; congruence).
    assert (Hp : 0 <= q + 1 <= Py.len src) by (unfold Py.len; lia).
    destruct (raise_lexer_error_spec msg src (q + 1) c false lb mh cs cl Hp)
      as (context & rel & ->).
    split; [exists context, rel|]; reflexivity.
  - assert (Hp : 0 <= Py.len src <= Py.len src) by (unfold Py.len; lia).
    destruct (raise_lexer_error_spec msg src (Py.len src) 32 true lb mh cs cl
                Hp) as (context & rel & ->).
    split; [exists context, rel|]; reflexivity.
Qed.

(** X14. In a name, a number sign that is not followed by two hexadecimal
    digits makes the pull raise [PDFLexicalError]: the message names the
    first byte that is no hexadecimal digit (the blank sentinel at the end
    of the input), the error position is the cursor just after that byte,
    and the lexer stays on it. *)
Theorem name_bad_escape (src : list Z) (items : list NameItem)
  (hs tail : list Z) (q : Z) (mh : list (Lexeme * Z)) (cs : Z) (cl : Lexeme)
  (fuel : nat) :
  0 <= q ->
  skipn (Z.to_nat q) src
  = [FORWARD_SLASH] ++ name_bytes items ++ [NUMBER_SIGN] ++ hs ++ tail ->
  forallb item_ok items = true ->
  forallb is_hex_digit hs = true -> (List.length hs <= 1)%nat ->
  stops_before is_hex_digit tail = true ->
  (List.length items + 1 <= fuel)%nat ->
  let st' := primed_at src (q + 1 + Py.len (name_bytes items) + 1 + Py.len hs)
               [] mh cs cl in
  is_lexical_error (NotHexDigit (Lexer.current st'))
    (Seekable.tell (Lexer.source st'))
    (fst (Lexer.next fuel (primed_at src q [] mh cs cl)))
  /\ snd (Lexer.next fuel (primed_at src q [] mh cs cl)) = st'.
Proof.
  intros Hq Hsrc Hok Hhs Hlen Htail Hfuel st'.
  destruct fuel as [|fuel]; [lia|]. cbn [app] in Hsrc.
  rewrite (next_name_head src q _ mh cs cl fuel Hq Hsrc).
  destruct (rest_cons _ _ _ _ Hq Hsrc) as (Hlt & _ & Hsrc1).
  unfold Lexer.parse_name. lxb.
  rewrite advance_primed by lia.
  assert (Hq1 : 0 <= q + 1) by lia.
  replace (S fuel) with (List.length items + S (fuel - List.length items))%nat
    by lia.
  rewrite (name_loop_items src [] mh cs cl items _ (q + 1) [] _ Hq1 Hsrc1 Hok).
  pose proof (skipn_after src _ _ (q + 1) Hq1 Hsrc1) as Hsrc2.
  set (q2 := q + 1 + Py.len (name_bytes items)) in *.
  assert (Hq2 : 0 <= q2) by (unfold q2, Py.len; lia).
  cbn [Lexer.name_loop]. lxb.
  rewrite (primed_current src _ _ [] mh cs cl Hq2 Hsrc2).
  change ((33 <=? NUMBER_SIGN) && (NUMBER_SIGN <=? 126)) with true.
  change (NUMBER_SIGN =? NUMBER_SIGN) with true. cbv iota.
  destruct (rest_cons _ _ _ _ Hq2 Hsrc2) as (Hlt2 & _ & Hsrc3).
  rewrite advance_primed by lia.
  assert (Hq3 : 0 <= q2 + 1) by lia.
  assert (Hbad : forall p, 0 <= p -> skipn (Z.to_nat p) src = tail ->
            hex_to_number (Lexer.current (primed_at src p [] mh cs cl))
            = None).
  { intros p Hp Hskip. rewrite (primed_current src p _ [] mh cs cl Hp Hskip).
    apply hex_to_number_other. destruct tail as [|t tail']; [reflexivity|].
    cbn [stops_before] in Htail. now apply negb_true_iff in Htail. }
  destruct hs as [|h [|h' hs]]; [| |cbn [List.length] in Hlen; lia];
    cbn [app] in Hsrc3; unfold Py.len in st'; cbn [List.length Z.of_nat] in st'.
  - assert (Est : st' = primed_at src (q2 + 1) [] mh cs cl)
      by (unfold st'; f_equal; lia).
    rewrite Est. rewrite (Hbad (q2 + 1) Hq3 Hsrc3).
    destruct (raise_lexer_error_primed
                (NotHexDigit (Lexer.current (primed_at src (q2 + 1) [] mh cs cl)))
                src (q2 + 1) [] mh cs cl Hq3) as [(context & rel & E1) E2].
    destruct (Lexer.raise_lexer_error _ _) as [r s]. cbn [fst snd] in E1, E2.
    subst r s. split; [exists context, rel|]; reflexivity.
  - cbn [forallb] in Hhs. apply andb_true_iff in Hhs as [Hh _].
    rewrite (primed_current src _ _ [] mh cs cl Hq3 Hsrc3).
    rewrite (proj1 (hex_to_number_digit h Hh)).
    destruct (rest_cons _ _ _ _ Hq3 Hsrc3) as (Hlt3 & _ & Hsrc4).
    rewrite advance_primed by lia.
    assert (Hq4 : 0 <= q2 + 1 + 1) by lia.
    assert (Est : st' = primed_at src (q2 + 1 + 1) [] mh cs cl)
      by (unfold st'; f_equal; lia).
    rewrite Est. rewrite (Hbad (q2 + 1 + 1) Hq4 Hsrc4).
    destruct (raise_lexer_error_primed
                (NotHexDigit
                   (Lexer.current (primed_at src (q2 + 1 + 1) [] mh cs cl)))
                src (q2 + 1 + 1) [] mh cs cl Hq4) as [(context & rel & E1) E2].
    destruct (Lexer.raise_lexer_error _ _) as [r s]. cbn [fst snd] in E1, E2.
    subst r s. split; [exists context, rel|]; reflexivity.
Qed.

(** [name_bad_escape] on [/A#4x]: the error names the byte [x]. *)
Lemma name_bad_escape_witness :
  is_lexical_error
    (NotHexDigit
       (Lexer.current
          (primed_at (Py.b "/A#4x")
             (0 + 1 + Py.len (name_bytes [NChar 65]) + 1 + Py.len [52])
             [] [] 200 PyNone)))
    (Seekable.tell
       (Lexer.source
          (primed_at (Py.b "/A#4x")
             (0 + 1 + Py.len (name_bytes [NChar 65]) + 1 + Py.len [52])
             [] [] 200 PyNone)))
    (fst (Lexer.next 2 (primed_at (Py.b "/A#4x") 0 [] [] 200 PyNone)))
  /\ snd (Lexer.next 2 (primed_at (Py.b "/A#4x") 0 [] [] 200 PyNone))
     = primed_at (Py.b "/A#4x")
         (0 + 1 + Py.len (name_bytes [NChar 65]) + 1 + Py.len [52])
         [] [] 200 PyNone.
Proof.
  apply (name_bad_escape (Py.b "/A#4x") [NChar 65] [52] (Py.b "x") 0 [] 200
           PyNone 2); try reflexivity; cbn; lia.
Defined.

(** ** String literals *)

(** The character code of an octal escape is its digits read in base
    eight. *)
Lemma charCode_from_horner (ds : list Z) :
  forall (acc i : Z),
  0 <= i ->
  acc * 2 ^ (3 * Py.len ds)
  + Lexer.charCode_from (i + Py.len ds) i ds
  = fold_left (fun a d => 8 * a + (d - 48)) ds acc.
Proof.
  induction ds as [|x r IH]; intros acc i Hi;
    cbn [Lexer.charCode_from fold_left].
  - unfold Py.len. cbn [List.length Z.of_nat]. cbn. lia.
  - rewrite <- (IH (8 * acc + (x - 48)) (i + 1)) by lia.
    assert (Hlen : Py.len (x :: r) = Py.len r + 1)
      by (unfold Py.len; cbn [List.length]; lia).
    assert (Hr : 0 <= Py.len r) by (unfold Py.len; lia).
    rewrite Hlen.
    replace (i + (Py.len r + 1) - i - 1) with (Py.len r) by lia.
    replace (i + 1 + Py.len r) with (i + (Py.len r + 1)) by lia.
    rewrite Z.shiftl_mul_pow2 by lia.
    replace (3 * (Py.len r + 1)) with (3 + 3 * Py.len r) by lia.
    rewrite Z.pow_add_r by lia. change (2 ^ 3) with 8. ring.
Qed.

Lemma charCode_octal (ds : list Z) : Lexer.charCode ds = octal_value ds.
Proof.
  unfold Lexer.charCode, octal_value.
  rewrite <- (charCode_from_horner ds 0 0) by lia. cbn [Z.add Z.mul].
  reflexivity.
Qed.

(** The digit loop of an octal escape takes at most three digits. *)
Lemma octal_digits_spec (src : list Z) lb mh cs cl (ds rest : list Z) :
  forall (q : Z) (digits : list Z) (fuel : nat),
  0 <= q -> skipn (Z.to_nat q) src = ds ++ rest ->
  forallb is_digit ds = true ->
  Py.len digits + Py.len ds <= 3 ->
  (Py.len digits + Py.len ds =? 3) || stops_before is_digit rest = true ->
  (List.length ds + 1 <= fuel)%nat ->
  Lexer.octal_digits fuel digits (primed_at src q lb mh cs cl)
  = (Ok (digits ++ ds), primed_at src (q + Py.len ds) lb mh cs cl).
Proof.
  induction ds as [|d ds IH]; intros q digits fuel Hq Hsrc Hds Hlen Hend Hfuel;
    (destruct fuel as [|fuel]; [cbn in Hfuel; lia|]);
    cbn [Lexer.octal_digits]; lxb;
    rewrite (primed_current src q _ lb mh cs cl Hq Hsrc); cbn [app].
  - assert (Hc : is_digit match rest with c :: _ => c | [] => 32 end
                 && (Py.len digits <? 3) = false).
    { apply orb_true_iff in Hend as [Hend|Hend].
      - unfold Py.len in *. cbn [List.length Z.of_nat] in Hend.
        apply andb_false_iff. right. lia.
      - destruct rest as [|t rest']; [reflexivity|].
        cbn [stops_before] in Hend. apply negb_true_iff in Hend.
        now rewrite Hend. }
    rewrite Hc, app_nil_r. unfold Py.len. cbn [List.length Z.of_nat].
    now rewrite Z.add_0_r.
  - cbn [forallb] in Hds. apply andb_true_iff in Hds as [Hd Hds].
    assert (Hlen' : Py.len (d :: ds) = Py.len ds + 1)
      by (unfold Py.len; cbn [List.length]; lia).
    assert (Hnn : 0 <= Py.len ds) by (unfold Py.len; lia).
    rewrite Hd. replace (Py.len digits <? 3) with true by lia. cbn [andb].
    rewrite append_byte by (unfold is_digit in Hd; lia). lxb.
    cbn [app] in Hsrc.
    destruct (rest_cons _ _ _ _ Hq Hsrc) as (Hlt & _ & Hnext).
    rewrite advance_primed by lia.
    assert (Hl2 : Py.len (digits ++ [d]) = Py.len digits + 1)
      by (unfold Py.len; rewrite length_app; cbn [List.length]; lia).
    rewrite (IH (q + 1) (digits ++ [d]) fuel);
      [ | lia | exact Hnext | exact Hds | lia
        | replace (Py.len (digits ++ [d]) + Py.len ds)
            with (Py.len digits + Py.len (d :: ds)) by lia; exact Hend
        | cbn [List.length] in Hfuel; lia ].
    rewrite <- app_assoc. cbn [app]. do 2 f_equal. lia.
Qed.

Lemma octal_value_from (ds : list Z) :
  forall acc, 0 <= acc -> forallb is_digit ds = true ->
  0 <= fold_left (fun a d => 8 * a + (d - 48)) ds acc.
Proof.
  induction ds as [|d ds IH]; intros acc Hacc Hds; cbn [fold_left]; [lia|].
  cbn [forallb] in Hds. apply andb_true_iff in Hds as [Hd Hds].
  apply IH; [unfold is_digit in Hd; lia | exact Hds].
Qed.

Lemma escape_value_byte (c : Z) :
  is_byte c = true -> 0 <= STRING_ESCAPE_SEQUENCES_get c < 256.
Proof.
  unfold is_byte, STRING_ESCAPE_SEQUENCES_get, LINE_FEED, CARRIAGE_RETURN,
    BACKSPACE, HORIZONTAL_TAB, FORM_FEED. intros H.
  repeat match goal with |- context [if ?b then _ else _] => destruct b end;
    lia.
Qed.

Lemma str_bytes_cons (it : StrItem) (items : list StrItem) :
  str_bytes (it :: items) = str_item_bytes it ++ str_bytes items.
Proof. reflexivity. Qed.

(** The loop of [__parse_string_literal] takes the items of a literal one
    by one. *)
Lemma string_loop_items (src : list Z) lb mh cs cl (items : list StrItem)
  (tail : list Z) :
  forall (q d : Z) (buffer : list Z) (fuel : nat),
  0 <= q -> skipn (Z.to_nat q) src = str_bytes items ++ tail ->
  str_ok d items tail = true -> 0 < d -> (3 <= fuel)%nat ->
  Lexer.string_loop (List.length items + fuel) d buffer
    (primed_at src q lb mh cs cl)
  = Lexer.string_loop fuel (str_depth d items) (buffer ++ str_text items)
      (primed_at src (q + Py.len (str_bytes items)) lb mh cs cl).
Proof.
  induction items as [|it items IH]; intros q d buffer fuel Hq Hsrc Hok Hd Hfuel.
  - cbn [str_text map str_bytes flat_map List.length Nat.add str_depth
         fold_left].
    rewrite app_nil_r. unfold Py.len. cbn [List.length Z.of_nat].
    now rewrite Z.add_0_r.
  - cbn [List.length Nat.add Lexer.string_loop]. lxb.
    replace (d >? 0) with true by lia. cbv iota.
    rewrite (primed_current src q _ lb mh cs cl Hq Hsrc).
    rewrite str_bytes_cons in Hsrc |- *. rewrite <- app_assoc in Hsrc.
    cbn [str_ok] in Hok.
    apply andb_true_iff in Hok as [Hok Hrest].
    apply andb_true_iff in Hok as [Hit Hd'].
    assert (Hlen : Py.len (str_item_bytes it ++ str_bytes items)
                   = Py.len (str_item_bytes it) + Py.len (str_bytes items))
      by (unfold Py.len; rewrite length_app; lia).
    assert (Hstep : forall q' buffer',
      0 <= q' -> skipn (Z.to_nat q') src = str_bytes items ++ tail ->
      q' = q + Py.len (str_item_bytes it) ->
      buffer' = buffer ++ [str_item_value it] ->
      Lexer.string_loop (List.length items + fuel) (d + str_item_depth it)
        buffer' (primed_at src q' lb mh cs cl)
      = Lexer.string_loop fuel (str_depth d (it :: items))
          (buffer ++ str_text (it :: items))
          (primed_at src (q + Py.len (str_item_bytes it ++ str_bytes items))
             lb mh cs cl)).
    { intros q' buffer' Hq' Hsrc' -> ->.
      rewrite (IH _ (d + str_item_depth it) _ fuel Hq' Hsrc' Hrest)
        by (auto; lia).
      cbn [str_text map str_depth fold_left].
      rewrite <- app_assoc. cbn [app]. do 2 f_equal. lia. }
    destruct it as [c | | | c | ds];
      cbn [str_item_bytes str_item_ok str_item_value str_item_depth app] in *.
    + apply andb_true_iff in Hit as [Hbyte Hplain].
      apply negb_true_iff in Hplain.
      assert (H1 : (c =? OPEN_PARENTHESIS) = false)
        by (unfold Py.mem, OPEN_PARENTHESIS, CLOSE_PARENTHESIS, BACK_SLASH in *;
            cbn [existsb] in Hplain; lia).
      assert (H2 : (c =? CLOSE_PARENTHESIS) = false)
        by (unfold Py.mem, OPEN_PARENTHESIS, CLOSE_PARENTHESIS, BACK_SLASH in *;
            cbn [existsb] in Hplain; lia).
      assert (H3 : (c =? BACK_SLASH) = false)
        by (unfold Py.mem, OPEN_PARENTHESIS, CLOSE_PARENTHESIS, BACK_SLASH in *;
            cbn [existsb] in Hplain; lia).
      rewrite H1, H2, H3.
      rewrite append_byte by (unfold is_byte in Hbyte; lia). lxb.
      destruct (rest_cons _ _ _ _ Hq Hsrc) as (Hlt & _ & Hnext).
      rewrite advance_primed by lia.
      replace d with (d + 0) at 1 by lia.
      apply Hstep; auto; try lia; unfold Py.len; cbn [List.length]; lia.
    + change (OPEN_PARENTHESIS =? OPEN_PARENTHESIS) with true. cbv iota.
      rewrite append_byte by (unfold OPEN_PARENTHESIS; lia). lxb.
      destruct (rest_cons _ _ _ _ Hq Hsrc) as (Hlt & _ & Hnext).
      rewrite advance_primed by lia.
      apply Hstep; auto; try lia; unfold Py.len; cbn [List.length]; lia.
    + change (CLOSE_PARENTHESIS =? OPEN_PARENTHESIS) with false.
      change (CLOSE_PARENTHESIS =? CLOSE_PARENTHESIS) with true. cbv iota.
      rewrite append_byte by (unfold CLOSE_PARENTHESIS; lia). lxb.
      destruct (rest_cons _ _ _ _ Hq Hsrc) as (Hlt & _ & Hnext).
      rewrite advance_primed by lia.
      replace (d - 1) with (d + -1) by lia.
      apply Hstep; auto; try lia; unfold Py.len; cbn [List.length]; lia.
    + apply andb_true_iff in Hit as [Hbyte Hnd].
      change (BACK_SLASH =? OPEN_PARENTHESIS) with false.
      change (BACK_SLASH =? CLOSE_PARENTHESIS) with false.
      change (BACK_SLASH =? BACK_SLASH) with true. cbv iota.
      destruct (rest_cons _ _ _ _ Hq Hsrc) as (Hlt & _ & Hsrc1).
      rewrite advance_primed by lia.
      assert (Hq1 : 0 <= q + 1) by lia.
      rewrite (primed_current src _ _ lb mh cs cl Hq1 Hsrc1).
      rewrite Hnd. cbv beta iota.
      rewrite append_byte by (apply escape_value_byte; exact Hbyte). lxb.
      destruct (rest_cons _ _ _ _ Hq1 Hsrc1) as (Hlt1 & _ & Hsrc2).
      rewrite advance_primed by lia.
      replace d with (d + 0) at 1 by lia.
      apply Hstep; auto; try lia; unfold Py.len; cbn [List.length]; lia.
    + apply andb_true_iff in Hit as [Hit Hval].
      apply andb_true_iff in Hit as [Hit Hfollow].
      apply andb_true_iff in Hit as [Hit Hds].
      apply andb_true_iff in Hit as [Hne Hle].
      apply negb_true_iff in Hne.
      change (BACK_SLASH =? OPEN_PARENTHESIS) with false.
      change (BACK_SLASH =? CLOSE_PARENTHESIS) with false.
      change (BACK_SLASH =? BACK_SLASH) with true. cbv iota.
      destruct (rest_cons _ _ _ _ Hq Hsrc) as (Hlt & _ & Hsrc1).
      rewrite advance_primed by lia.
      assert (Hq1 : 0 <= q + 1) by lia.
      rewrite (primed_current src _ _ lb mh cs cl Hq1 Hsrc1).
      assert (Hhead : is_digit match ds ++ str_bytes items ++ tail with
                               | c :: _ => c
                               | [] => 32
                               end = true).
      { destruct ds as [|d0 ds0]; [discriminate|].
        cbn [forallb app] in *. now apply andb_true_iff in Hds as [? _]. }
      rewrite Hhead. cbn [negb]. cbv beta iota.
      rewrite (octal_digits_spec src lb mh cs cl ds (str_bytes items ++ tail)
                 (q + 1) [] _ Hq1 Hsrc1 Hds);
        [ | unfold Py.len in *; cbn [List.length Z.of_nat] in *; lia
          | exact Hfollow
          | unfold Py.len in Hle; lia ].
      cbn [app]. rewrite charCode_octal.
      rewrite append_byte
        by (split; [apply (octal_value_from ds 0); [lia | exact Hds] | lia]).
      lxb.
      replace d with (d + 0) at 1 by lia.
      apply Hstep;
        [ unfold Py.len; lia
        | apply (skipn_after src ds _ (q + 1) Hq1 Hsrc1)
        | unfold Py.len; cbn [List.length]; lia
        | reflexivity ].
Qed.

Lemma str_ok_depth (items : list StrItem) (tail : list Z) :
  forall d, str_ok d items tail = true -> 0 < d -> 0 < str_depth d items.
Proof.
  induction items as [|it items IH]; intros d Hok Hd;
    cbn [str_ok str_depth fold_left] in *; [exact Hd|].
  apply andb_true_iff in Hok as [Hok Hrest].
  apply andb_true_iff in Hok as [_ Hd'].
  apply (IH _ Hrest). lia.
Qed.

(** [__next__] on an opening parenthesis hands over to
    [__parse_string_literal]. *)
Lemma next_string_head (src : list Z) (q : Z) (rest : list Z)
  (mh : list (Lexeme * Z)) (cs : Z) (cl : Lexeme) (fuel : nat) :
  0 <= q -> skipn (Z.to_nat q) src = OPEN_PARENTHESIS :: rest ->
  Lexer.next (S fuel) (primed_at src q [] mh cs cl)
  = Lexer.bind (Lexer.parse_string_literal (S fuel)) deliver
      (primed_at src q [] mh cs cl).
Proof.
  intros Hq Hsrc.
  rewrite (primed_at_byte src [] mh cs q _ rest cl Hq Hsrc).
  unfold Lexer.next, deliver. lx. cbn [Lexer.remove_blanks]. lx_run.
  destruct (Lexer.parse_string_literal (S fuel) _) as [[l|e|] st'];
    reflexivity.
Qed.

(** X15. A string literal is read up to the parenthesis that balances
    its first one.  Its bytes are the plain bytes and the nested
    parentheses as written, the byte after a backslash (line feed,
    carriage return, backspace, tab and form feed for [n], [r], [b], [t]
    and [f]), and for a backslash and up to three digits their value in
    base eight; they are decoded as UTF-8, else as cp1252, and the pull
    raises [UnicodeDecodeError] when both fail.  The lexer is left just
    after the closing parenthesis. *)
Theorem string_lexeme (src : list Z) (items : list StrItem) (tail : list Z)
  (q : Z) (mh : list (Lexeme * Z)) (cs : Z) (cl : Lexeme) (fuel : nat) :
  0 <= q ->
  skipn (Z.to_nat q) src
  = [OPEN_PARENTHESIS] ++ str_bytes items ++ [CLOSE_PARENTHESIS] ++ tail ->
  str_ok 1 items ([CLOSE_PARENTHESIS] ++ tail) = true ->
  str_depth 1 items = 1 ->
  (List.length items + 5 <= fuel)%nat ->
  Lexer.next fuel (primed_at src q [] mh cs cl)
  = match str_decode (str_text items) with
    | Some s =>
        (Ok (PyStr s),
         primed_at src (q + 1 + Py.len (str_bytes items) + 1) [] mh cs
                   (PyStr s))
    | None =>
        (Raise UnicodeDecodeError,
         primed_at src (q + 1 + Py.len (str_bytes items) + 1) [] mh cs cl)
    end.
Proof.
  intros Hq Hsrc Hok Hdepth Hfuel. destruct fuel as [|fuel]; [lia|].
  cbn [app] in Hsrc.
  rewrite (next_string_head src q _ mh cs cl fuel Hq Hsrc).
  destruct (rest_cons _ _ _ _ Hq Hsrc) as (Hlt & _ & Hsrc1).
  unfold Lexer.parse_string_literal. lxb.
  rewrite advance_primed by lia.
  assert (Hq1 : 0 <= q + 1) by lia.
  replace (S fuel)
    with (List.length items + S (S (S (fuel - List.length items - 2))))%nat
    by lia.
  rewrite (string_loop_items src [] mh cs cl items _ (q + 1) 1 [] _
             Hq1 Hsrc1 Hok) by lia.
  rewrite Hdepth. cbn [app].
  pose proof (skipn_after src _ _ (q + 1) Hq1 Hsrc1) as Hsrc2.
  set (q2 := q + 1 + Py.len (str_bytes items)) in *.
  assert (Hq2 : 0 <= q2) by (unfold q2, Py.len; lia).
  cbn [Lexer.string_loop]. lxb.
  change (1 >? 0) with true. lxb.
  rewrite (primed_current src _ _ [] mh cs cl Hq2 Hsrc2).
  change (CLOSE_PARENTHESIS =? OPEN_PARENTHESIS) with false.
  change (CLOSE_PARENTHESIS =? CLOSE_PARENTHESIS) with true. lxb.
  rewrite append_byte by (unfold CLOSE_PARENTHESIS; lia). lxb.
  destruct (rest_cons _ _ _ _ Hq2 Hsrc2) as (Hlt2 & _ & Hsrc3).
  rewrite advance_primed by lia.
  change (1 - 1 >? 0) with false. lxb.
  rewrite rev_app_distr. cbn [rev app]. rewrite rev_involutive.
  unfold Lexer.decode_string, str_decode.
  destruct (Codecs.utf8_decode (str_text items)) as [s|].
  - lxb. now rewrite set_currentLexeme_primed_at, primed_lexeme.
  - destruct (Codecs.cp1252_decode (str_text items)) as [s|]; lxb.
    + now rewrite set_currentLexeme_primed_at, primed_lexeme.
    + reflexivity.
Qed.

(** [string_lexeme] on [(a(b)\n\0519)] followed by a blank: the text
    [a(b)], a line feed, the byte 41 and [9]. *)
Lemma string_lexeme_witness :
  Lexer.next 20
    (primed_at (Py.b "(a(b)\n\0519) ") 0 [] [] 200 PyNone)
  = match str_decode
            (str_text [SChar 97; SOpen; SChar 98; SClose; SEsc 110;
                       SOct [48; 53; 49]; SChar 57]) with
    | Some s =>
        (Ok (PyStr s),
         primed_at (Py.b "(a(b)\n\0519) ")
           (0 + 1
            + Py.len (str_bytes [SChar 97; SOpen; SChar 98; SClose; SEsc 110;
                                 SOct [48; 53; 49]; SChar 57]) + 1)
           [] [] 200 (PyStr s))
    | None =>
        (Raise UnicodeDecodeError,
         primed_at (Py.b "(a(b)\n\0519) ")
           (0 + 1
            + Py.len (str_bytes [SChar 97; SOpen; SChar 98; SClose; SEsc 110;
                                 SOct [48; 53; 49]; SChar 57]) + 1)
           [] [] 200 PyNone)
    end.
Proof.
  apply (string_lexeme (Py.b "(a(b)\n\0519) ")
           [SChar 97; SOpen; SChar 98; SClose; SEsc 110; SOct [48; 53; 49];
            SChar 57] (Py.b " ") 0 [] 200 PyNone 20);
    try reflexivity; cbn; lia.
Defined.

(** X16. A string literal that the input ends before the parenthesis
    balancing its first one, and in which every backslash followed by
    digits has a value below 256 in base eight, makes the pull raise
    [StopIteration], the end-of-input signal, and not a lexical error; the
    lexer has reached the end of the buffer.  The input may end after any
    item of the literal or after a lone backslash.  (An escape of 256 or
    more raises [ValueError] before the end is reached.) *)
Theorem string_unterminated (src : list Z) (items : list StrItem)
  (dangling : list Z) (q : Z) (mh : list (Lexeme * Z)) (cs : Z) (cl : Lexeme)
  (fuel : nat) :
  0 <= q ->
  skipn (Z.to_nat q) src = [OPEN_PARENTHESIS] ++ str_bytes items ++ dangling ->
  dangling = [] \/ dangling = [BACK_SLASH] ->
  str_ok 1 items dangling = true ->
  (List.length items + 5 <= fuel)%nat ->
  Lexer.next fuel (primed_at src q [] mh cs cl)
  = (Raise StopIteration, state src (Py.len src) 32 true [] mh cs cl).
Proof.
  intros Hq Hsrc Hdangling Hok Hfuel. destruct fuel as [|fuel]; [lia|].
  cbn [app] in Hsrc.
  rewrite (next_string_head src q _ mh cs cl fuel Hq Hsrc).
  destruct (rest_cons _ _ _ _ Hq Hsrc) as (Hlt & _ & Hsrc1).
  unfold Lexer.parse_string_literal. lxb.
  rewrite advance_primed by lia.
  assert (Hq1 : 0 <= q + 1) by lia.
  replace (S fuel)
    with (List.length items + S (S (S (fuel - List.length items - 2))))%nat
    by lia.
  rewrite (string_loop_items src [] mh cs cl items _ (q + 1) 1 [] _
             Hq1 Hsrc1 Hok) by lia.
  assert (H1 : 0 < 1) by lia.
  pose proof (str_ok_depth items _ 1 Hok H1) as Hdepth.
  pose proof (skipn_after src _ _ (q + 1) Hq1 Hsrc1) as Hsrc2.
  set (q2 := q + 1 + Py.len (str_bytes items)) in *.
  assert (Hq2 : 0 <= q2) by (unfold q2, Py.len; lia).
  cbn [Lexer.string_loop app]. lxb.
  replace (str_depth 1 items >? 0) with true by lia. lxb.
  rewrite (primed_current src _ _ [] mh cs cl Hq2 Hsrc2).
  destruct Hdangling as [-> | ->].
  - assert (Hend : Py.len src <= q2).
    { apply (f_equal (@List.length Z)) in Hsrc2.
      rewrite length_skipn in Hsrc2. cbn [List.length] in Hsrc2.
      unfold Py.len in *. lia. }
    change (32 =? OPEN_PARENTHESIS) with false.
    change (32 =? CLOSE_PARENTHESIS) with false.
    change (32 =? BACK_SLASH) with false. lxb.
    rewrite append_byte by lia. lxb.
    rewrite (primed_at_end src [] mh cs q2 cl Hend).
    rewrite advance_ended by reflexivity. reflexivity.
  - destruct (rest_cons _ _ _ _ Hq2 Hsrc2) as (Hlt2 & _ & Hsrc3).
    assert (Hend : Py.len src <= q2 + 1).
    { apply (f_equal (@List.length Z)) in Hsrc3.
      rewrite length_skipn in Hsrc3. cbn [List.length] in Hsrc3.
      unfold Py.len in *. lia. }
    change (BACK_SLASH =? OPEN_PARENTHESIS) with false.
    change (BACK_SLASH =? CLOSE_PARENTHESIS) with false.
    change (BACK_SLASH =? BACK_SLASH) with true. lxb.
    rewrite advance_primed by lia.
    assert (Hq3 : 0 <= q2 + 1) by lia.
    rewrite (primed_current src _ _ [] mh cs cl Hq3 Hsrc3).
    change (negb (is_digit 32)) with true. lxb.
    rewrite append_byte
      by (change (STRING_ESCAPE_SEQUENCES_get 32) with 32; lia).
    lxb.
    rewrite (primed_at_end src [] mh cs (q2 + 1) cl Hend).
    rewrite advance_ended by reflexivity. reflexivity.
Qed.

(** [string_unterminated] on [(ab(c)] followed by a lone backslash. *)
Lemma string_unterminated_witness :
  Lexer.next 20
    (primed_at (Py.b "(ab(c)" ++ [BACK_SLASH]) 0 [] [] 200 PyNone)
  = (Raise StopIteration,
     state (Py.b "(ab(c)" ++ [BACK_SLASH])
           (Py.len (Py.b "(ab(c)" ++ [BACK_SLASH])) 32 true [] [] 200 PyNone).
Proof.
  apply (string_unterminated (Py.b "(ab(c)" ++ [BACK_SLASH])
           [SChar 97; SChar 98; SOpen; SChar 99; SClose] [BACK_SLASH] 0 []
           200 PyNone 20);
    try reflexivity; try (cbn; lia).
  now right.
Defined.

(** X17. In a string literal, a backslash and three digits whose value
    in base eight is 256 or more (the digits 8 and 9 are taken too) make
    the pull raise [ValueError], not [PDFLexicalError]; the lexer is left
    just after the three digits. *)
Theorem string_octal_overflow (src : list Z) (items : list StrItem)
  (ds tail : list Z) (q : Z) (mh : list (Lexeme * Z)) (cs : Z) (cl : Lexeme)
  (fuel : nat) :
  0 <= q ->
  skipn (Z.to_nat q) src
  = [OPEN_PARENTHESIS] ++ str_bytes items ++ [BACK_SLASH] ++ ds ++ tail ->
  str_ok 1 items ([BACK_SLASH] ++ ds ++ tail) = true ->
  List.length ds = 3%nat -> forallb is_digit ds = true ->
  256 <= octal_value ds ->
  (List.length items + 5 <= fuel)%nat ->
  Lexer.next fuel (primed_at src q [] mh cs cl)
  = (Raise ValueError,
     primed_at src (q + 1 + Py.len (str_bytes items) + 1 + 3) [] mh cs cl).
Proof.
  intros Hq Hsrc Hok Hlen Hds Hval Hfuel. destruct fuel as [|fuel]; [lia|].
  cbn [app] in Hsrc.
  rewrite (next_string_head src q _ mh cs cl fuel Hq Hsrc).
  destruct (rest_cons _ _ _ _ Hq Hsrc) as (Hlt & _ & Hsrc1).
  unfold Lexer.parse_string_literal. lxb.
  rewrite advance_primed by lia.
  assert (Hq1 : 0 <= q + 1) by lia.
  replace (S fuel)
    with (List.length items + S (S (S (S (fuel - List.length items - 3)))))%nat
    by lia.
  rewrite (string_loop_items src [] mh cs cl items _ (q + 1) 1 [] _
             Hq1 Hsrc1 Hok) by lia.
  pose proof (str_ok_depth items _ 1 Hok ltac:(lia)) as Hdepth.
  pose proof (skipn_after src _ _ (q + 1) Hq1 Hsrc1) as Hsrc2.
  set (q2 := q + 1 + Py.len (str_bytes items)) in *.
  assert (Hq2 : 0 <= q2) by (unfold q2, Py.len; lia).
  cbn [Lexer.string_loop app]. lxb.
  replace (str_depth 1 items >? 0) with true by lia. lxb.
  rewrite (primed_current src _ _ [] mh cs cl Hq2 Hsrc2).
  change (BACK_SLASH =? OPEN_PARENTHESIS) with false.
  change (BACK_SLASH =? CLOSE_PARENTHESIS) with false.
  change (BACK_SLASH =? BACK_SLASH) with true. lxb.
  destruct (rest_cons _ _ _ _ Hq2 Hsrc2) as (Hlt2 & _ & Hsrc3).
  rewrite advance_primed by lia.
  assert (Hq3 : 0 <= q2 + 1) by lia.
  rewrite (primed_current src _ _ [] mh cs cl Hq3 Hsrc3).
  assert (Hhead : is_digit match ds ++ tail with
                           | c :: _ => c
                           | [] => 32
                           end = true).
  { destruct ds as [|d0 ds0]; [discriminate|].
    cbn [forallb app] in *. now apply andb_true_iff in Hds as [? _]. }
  rewrite Hhead. cbn [negb]. cbv beta iota.
  assert (Hl3 : Py.len ds = 3) by (unfold Py.len; lia).
  rewrite (octal_digits_spec src [] mh cs cl ds tail (q2 + 1) [] _
             Hq3 Hsrc3 Hds);
    [ | unfold Py.len in *; cbn [List.length Z.of_nat]; lia
      | unfold Py.len in *; cbn [List.length Z.of_nat]; rewrite Hl3;
        reflexivity
      | lia ].
  cbn [app]. rewrite charCode_octal. unfold Lexer.append.
  replace ((0 <=? octal_value ds) && (octal_value ds <? 256)) with false
    by lia.
  lxb. rewrite Hl3. reflexivity.
Qed.

(** [string_octal_overflow] on [(a\400)]. *)
Lemma string_octal_overflow_witness :
  Lexer.next 20 (primed_at (Py.b "(a\400)") 0 [] [] 200 PyNone)
  = (Raise ValueError,
     primed_at (Py.b "(a\400)")
       (0 + 1 + Py.len (str_bytes [SChar 97]) + 1 + 3) [] [] 200 PyNone).
Proof.
  apply (string_octal_overflow (Py.b "(a\400)") [SChar 97] (Py.b "400")
           (Py.b ")") 0 [] 200 PyNone 20);
    try reflexivity; cbn; lia.
Defined.

(** * Invariants of the public operations *)

Lemma calm_sound {A} (m : Lexer.M A) : sound m -> calm m.
Proof.
  intros H st. destruct (H st) as [(F1 & F2 & F3 & _ & F5 & F6) E].
  split; [unfold unchanged; tauto | exact E].
Qed.

Lemma calm_bind {A B} (m : Lexer.M A) (f : A -> Lexer.M B) :
  calm m -> (forall a, calm (f a)) -> calm (Lexer.bind m f).
Proof.
  intros Hm Hf st. unfold Lexer.bind. specialize (Hm st).
  destruct (m st) as [[a|e|] st1]; cbn [fst snd] in *.
  - destruct (Hf a st1) as [F E]. split; [|exact E].
    destruct Hm as [(H1 & H2 & H3 & H4 & H5) _].
    destruct F as (G1 & G2 & G3 & G4 & G5).
    unfold unchanged. repeat split; try congruence. auto.
  - destruct Hm as [F E]. split; [exact F|].
    intros H. apply E. congruence.
  - split; [apply Hm | discriminate].
Qed.

Lemma calm_set_movesHistory (h : Lexer.t -> list (Lexeme * Z)) :
  calm (Lexer.modify (fun st => Lexer.set_movesHistory (h st) st)).
Proof. intros st. split; [unfold unchanged; cbn; tauto | discriminate]. Qed.

Lemma sound_rfind_line (fuel : nat) :
  forall buff count c, sound (Lexer.rfind_line fuel buff count c).
Proof. induction fuel; intros; cbn [Lexer.rfind_line]; sound_auto. Qed.

Lemma sound_rfind_loop (fuel : nat) :
  forall revKeyword buff count c,
    sound (Lexer.rfind_loop fuel revKeyword buff count c).
Proof.
  induction fuel; intros; cbn [Lexer.rfind_loop]; [apply sound_diverge|].
  destruct (negb _); [|apply sound_ret].
  apply sound_bind; [apply sound_rfind_line|]. intros [[buff' count'] c'].
  sound_auto.
Qed.

Lemma sound_seekable_rfind (fuel : nat) (keyword : list Z) :
  sound (Lexer.seekable_rfind fuel keyword).
Proof.
  unfold Lexer.seekable_rfind.
  apply sound_bind; [apply sound_rfind_loop|]. intros [r|]; [apply sound_ret|].
  apply sound_bind; [apply sound_source_tell|]. intros pos.
  apply sound_bind; [apply sound_advance|]. intros _.
  apply sound_bind; [apply sound_next|]. intros _. apply sound_ret.
Qed.

Lemma sound_read_stream (streamPos length : Z) :
  sound (Lexer.read_stream streamPos length).
Proof. unfold Lexer.read_stream. sound_auto. Qed.

Lemma sound_put_back (current lexeme : Lexeme) :
  sound (Lexer.put_back current lexeme).
Proof.
  unfold Lexer.put_back. apply sound_bind; [|intros _; sound_auto].
  intros st. split; [unfold frame; cbn; tauto | discriminate].
Qed.

Lemma calm_move_at_position (fuel : nat) (pos : Z) :
  calm (Lexer.move_at_position fuel pos).
Proof.
  unfold Lexer.move_at_position.
  apply calm_bind; [apply calm_sound, sound_current_lexeme|]. intros l.
  apply calm_bind; [apply calm_sound, sound_source_tell|]. intros p.
  apply calm_bind; [apply (calm_set_movesHistory
                             (fun st => (l, p) :: Lexer.movesHistory st))|].
  intros _.
  apply calm_bind; [apply calm_sound, sound_source_seek|]. intros _.
  apply calm_bind; [apply calm_sound, sound_advance|]. intros _.
  apply calm_sound, sound_next.
Qed.

Lemma calm_move_back : calm Lexer.move_back.
Proof.
  unfold Lexer.move_back.
  apply calm_bind; [apply calm_sound, sound_gets|]. intros [|[l p] rest].
  - apply calm_sound, sound_raise. discriminate.
  - apply calm_bind; [apply (calm_set_movesHistory (fun _ => rest))|].
    intros _.
    apply calm_bind; [apply calm_sound, sound_set_currentLexeme|]. intros _.
    apply calm_bind; [apply calm_sound, sound_source_seek|]. intros _.
    apply calm_sound, sound_advance.
Qed.

(** X18. No operation of the lexer changes the bytes or the length of
    the buffer, the length measured at construction or the context size,
    and none clears the end flag once it is set; an operation raises
    [StopIteration] only with the end flag set.  This holds of pulling a
    token, of [move_at_position], [move_back], [put_back],
    [seekable_rfind], the property [current_lexeme] and the closure
    [read_stream], from every state. *)
Theorem operations_keep_buffer (fuel : nat) :
  calm (Lexer.next fuel)
  /\ (forall pos, calm (Lexer.move_at_position fuel pos))
  /\ calm Lexer.move_back
  /\ (forall current lexeme, calm (Lexer.put_back current lexeme))
  /\ (forall keyword, calm (Lexer.seekable_rfind fuel keyword))
  /\ calm Lexer.current_lexeme
  /\ (forall streamPos length, calm (Lexer.read_stream streamPos length)).
Proof.
  split; [apply calm_sound, sound_next|].
  split; [apply calm_move_at_position|].
  split; [apply calm_move_back|].
  split; [intros; apply calm_sound, sound_put_back|].
  split; [intros; apply calm_sound, sound_seekable_rfind|].
  split; [apply calm_sound, sound_current_lexeme|].
  intros. apply calm_sound, sound_read_stream.
Qed.

(** ** The lookahead invariant across moves *)

Lemma primed_wf (st : Lexer.t) : primed st -> lexer_wf st.
Proof. now intros [H _]. Qed.

(** [__advance] establishes the lookahead invariant on any well-formed
    lexer. *)
Lemma advance_primes (st : Lexer.t) :
  lexer_wf st -> primed (snd (Lexer.advance st)).
Proof.
  intros Hwf. destruct (Lexer.ended st) eqn:He.
  - rewrite advance_ended by exact He. cbn [snd].
    split; [exact Hwf|]. congruence.
  - destruct (lexer_wf_state st Hwf) as (src & p & Hp & Hst).
    rewrite He in Hst. rewrite Hst.
    destruct (skipn (Z.to_nat p) src) as [|c' rest] eqn:Hskip.
    + rewrite (rest_nil _ _ Hp Hskip), advance_eof. split.
      * split; [split; [reflexivity | cbn; unfold Py.len; lia] | reflexivity].
      * discriminate.
    + destruct (rest_cons _ _ _ _ (proj1 Hp) Hskip) as (Hlt & Hnth & _).
      rewrite (advance_byte _ _ _ _ _ _ _ _ _ (proj1 Hp) Hskip). split.
      * split; [split; [reflexivity | cbn; lia] | reflexivity].
      * intros _. cbn [snd Lexer.source Seekable.pos Seekable.source
                       Lexer.current].
        split; [lia|]. replace (p + 1 - 1) with p by lia.
        now rewrite getitem_nth by lia.
Qed.

Lemma seek_lexer_wf (off whence : Z) (st : Lexer.t) :
  lexer_wf st ->
  lexer_wf (Lexer.set_source (Seekable.seek off whence (Lexer.source st)) st).
Proof.
  intros [Hwf HL]. split; cbn [Lexer.set_source Lexer.source Lexer.length].
  - now apply seek_wf.
  - exact HL.
Qed.

Lemma primed_move_at_position (fuel : nat) (pos : Z) (st : Lexer.t) :
  primed st -> primed (snd (Lexer.move_at_position fuel pos st)).
Proof.
  intros H. destruct st as [s L c lb mh cs e cl].
  unfold Lexer.move_at_position, Lexer.current_lexeme. lxm.
  destruct e; [exact H|]. lxm.
  set (st1 := Lexer.mk _ _ _ _ _ _ _ _).
  assert (Hwf1 : lexer_wf st1).
  { apply (seek_lexer_wf pos 0
             (Lexer.mk s L c lb ((cl, Seekable.tell s) :: mh) cs false cl)).
    exact (primed_wf _ H). }
  pose proof (advance_primes st1 Hwf1) as Hadv.
  destruct (Lexer.advance st1) as [[[]|e|] st2]; cbn [snd] in *;
    [|exact Hadv..].
  now apply keeps_next.
Qed.

Lemma primed_move_back (st : Lexer.t) :
  primed st -> primed (snd (Lexer.move_back st)).
Proof.
  intros H. unfold Lexer.move_back. lxm.
  destruct st as [s L c lb mh cs e cl].
  cbn [Lexer.movesHistory].
  destruct mh as [|[prevLex prevPos] rest]; [exact H|]. lxm.
  apply advance_primes.
  apply (seek_lexer_wf (prevPos - 1) 0 (Lexer.mk s L c lb rest cs e prevLex)).
  exact (primed_wf _ H).
Qed.

Lemma primed_after (o : Op) (st : Lexer.t) : primed st -> primed (after st o).
Proof.
  intros H. destruct o as [fuel | fuel pos | | current lexeme];
    cbn [after].
  - now apply keeps_next.
  - now apply primed_move_at_position.
  - now apply primed_move_back.
  - exact H.
Qed.

(** X19. The lookahead invariant holds throughout the use of a lexer:
    after the construction over a non-empty buffer and any sequence of
    pulls, [move_at_position], [move_back] and [put_back] calls, whatever
    they return or raise, the cursor lies within the buffer, the measured
    length is the buffer's length and, unless the end flag is set, the
    lookahead is the byte just before the cursor. *)
Theorem lookahead_invariant (c : Z) (rest : list Z) (cs : Z) (ops : list Op) :
  exists st0,
    Lexer.init (c :: rest) cs = Ok st0
    /\ primed (fold_left after ops st0).
Proof.
  destruct (tokenizing_init c rest cs) as (st0 & Hinit & Htok).
  exists st0. split; [exact Hinit|].
  assert (H0 : primed st0) by (apply tokenizing_primed in Htok; tauto).
  clear Hinit Htok. revert st0 H0.
  induction ops as [|o ops IH]; intros st0 H0; cbn [fold_left]; [exact H0|].
  apply IH. now apply primed_after.
Qed.

(** ** The end of the sequence *)

(** With nothing pushed back, [__next__] is built from the operations of
    the tokenizer other than those on the push-back stack. *)
Section NothingPushedBack.

Variable Q : forall A : Type, Lexer.M A -> Prop.

Hypothesis Q_ret : forall A (a : A), Q A (Lexer.ret a).
Hypothesis Q_bind :
  forall A B (m : Lexer.M A) (f : A -> Lexer.M B),
    Q A m -> (forall a, Q B (f a)) -> Q B (Lexer.bind m f).
Hypothesis Q_raise :
  forall A (e : exn), e <> StopIteration -> Q A (Lexer.raise e).
Hypothesis Q_diverge : forall A, Q A Lexer.diverge.
Hypothesis Q_gets : forall A (f : Lexer.t -> A), Q A (Lexer.gets f).
Hypothesis Q_advance : Q unit Lexer.advance.
Hypothesis Q_peek : forall k, Q (option Z) (Lexer.peek k).
Hypothesis Q_raise_lexer_error :
  forall msg, Q unit (Lexer.raise_lexer_error msg).
Hypothesis Q_set_currentLexeme :
  forall l, Q unit (Lexer.modify (Lexer.set_currentLexeme l)).

Lemma next_nothing_pushed_back (fuel : nat) (st : Lexer.t) :
  Lexer.lexemesBuffer st = [] ->
  exists m : Lexer.M Lexeme, Q _ m /\ Lexer.next fuel st = m st.
Proof.
  intros H. unfold Lexer.next.
  unfold Lexer.bind at 1. unfold Lexer.gets at 1. rewrite H.
  eexists. split; [|reflexivity]. cbv zeta. unfold Lexer.match_keyword.
  pose proof (Q_remove_blanks Q Q_ret Q_bind Q_diverge Q_gets Q_advance).
  pose proof (Q_parse_string_literal Q Q_ret Q_bind Q_raise Q_diverge Q_gets
                Q_advance).
  pose proof (Q_parse_hexadecimal_string Q Q_ret Q_bind Q_raise Q_diverge
                Q_gets Q_advance Q_raise_lexer_error).
  pose proof (Q_parse_name Q Q_ret Q_bind Q_raise Q_diverge Q_gets Q_advance
                Q_raise_lexer_error).
  pose proof (Q_parse_number Q Q_ret Q_bind Q_raise Q_diverge Q_gets
                Q_advance).
  pose proof (Q_parse_literal Q Q_ret Q_bind Q_advance Q_peek).
  pose proof (Q_match_keyword_in Q Q_ret Q_bind Q_advance Q_peek
                Q_set_currentLexeme).
  repeat match goal with
         | |- Q _ (Lexer.bind _ _) => apply Q_bind; [|intros ?]
         | |- Q _ (Lexer.raise _) => apply Q_raise; discriminate
         | |- Q _ (if ?b then _ else _) => destruct b
         | |- Q _ (match ?x with _ => _ end) => destruct x
         | |- Q _ Lexer.source_tell => apply Q_gets
         | |- Q _ _ => solve [auto]
         end.
Qed.

End NothingPushedBack.

(** An operation that keeps the push-back stack empty and the sentinel in
    place. *)
Lemma settled_bind {A B} (m : Lexer.M A) (f : A -> Lexer.M B) :
  (forall st, settled st -> settled (snd (m st))) ->
  (forall a st, settled st -> settled (snd (f a st))) ->
  forall st, settled st -> settled (snd (Lexer.bind m f st)).
Proof.
  intros Hm Hf st H. unfold Lexer.bind. specialize (Hm st H).
  destruct (m st) as [[a|e|] st1]; cbn [snd] in *; auto.
Qed.

Lemma settled_advance (st : Lexer.t) :
  settled st -> settled (snd (Lexer.advance st)).
Proof.
  intros [Hb Hs]. destruct st as [s L c lb mh cs e cl].
  cbn [Lexer.lexemesBuffer Lexer.ended Lexer.current] in *.
  unfold Lexer.advance. lxm. destruct e; [split; assumption|].
  destruct (Seekable.read 1 s) as [[[|c' v]|ex|] s'];
    split; cbn; auto; discriminate.
Qed.

Lemma peek_touches_source (k : Z) (st : Lexer.t) :
  exists s, snd (Lexer.peek k st) = Lexer.set_source s st.
Proof.
  destruct st as [s L c lb mh cs e cl]. unfold Lexer.peek. lxm.
  destruct (_ >=? _); [eexists; reflexivity|]. lxm.
  destruct (Seekable.read 1 _) as [[v|ex|] s']; lxm;
    [destruct (Py.getitem v 0)|..]; eexists; reflexivity.
Qed.

Lemma raise_lexer_error_touches_source (msg : LexMsg) (st : Lexer.t) :
  exists s, snd (Lexer.raise_lexer_error msg st) = Lexer.set_source s st.
Proof.
  destruct st as [s L c lb mh cs e cl].
  unfold Lexer.raise_lexer_error, Lexer.get_context. lxm.
  destruct (_ <? 0); lxm;
    destruct (Seekable.read cs _) as [[v|ex|] s']; eexists; reflexivity.
Qed.

Lemma settled_set_source (s : Seekable.t) (st : Lexer.t) :
  settled st -> settled (Lexer.set_source s st).
Proof. destruct st. exact (fun H => H). Qed.

Lemma settled_next (fuel : nat) (st : Lexer.t) :
  settled st -> settled (snd (Lexer.next fuel st)).
Proof.
  intros H.
  destruct (next_nothing_pushed_back
              (fun A m => forall st, settled st -> settled (snd (m st))))
    with (fuel := fuel) (st := st) as (m & Hm & ->);
    [..| exact (proj1 H) | now apply Hm]; try (intros; assumption).
  - intros A B m f Hm Hf. apply settled_bind; [exact Hm|].
    intros a. apply Hf.
  - apply settled_advance.
  - intros k st0 H0. destruct (peek_touches_source k st0) as [s ->].
    now apply settled_set_source.
  - intros msg st0 H0.
    destruct (raise_lexer_error_touches_source msg st0) as [s ->].
    now apply settled_set_source.
Qed.

(** X20. Once exhausted, the lexer stays exhausted: on a lexer built
    over a buffer and only pulled from since, a pull that raises
    [StopIteration] leaves a lexer on which every further pull raises
    [StopIteration] again and changes nothing. *)
Theorem exhausted_stays_exhausted (buf : list Z) (cs : Z) (st0 : Lexer.t)
  (n fuel fuel' : nat) :
  Lexer.init buf cs = Ok st0 ->
  let st := Nat.iter n (fun st => snd (Lexer.next fuel st)) st0 in
  fst (Lexer.next fuel st) = Raise StopIteration ->
  (1 <= fuel')%nat ->
  Lexer.next fuel' (snd (Lexer.next fuel st))
  = (Raise StopIteration, snd (Lexer.next fuel st)).
Proof.
  intros Hinit st Hstop Hfuel.
  assert (H0 : settled st0).
  { destruct buf as [|c rest]; [discriminate|].
    rewrite init_cons in Hinit. injection Hinit as <-.
    split; [reflexivity | discriminate]. }
  assert (Hst : settled st).
  { unfold st. clear Hstop. induction n as [|n IH]; cbn [Nat.iter];
      [exact H0 | now apply settled_next]. }
  pose proof (settled_next fuel st Hst) as [Hb Hs].
  destruct (sound_next fuel st) as [_ He]. specialize (He Hstop).
  specialize (Hs He).
  destruct (snd (Lexer.next fuel st)) as [s L c lb mh cs' e cl].
  cbn [Lexer.lexemesBuffer Lexer.ended Lexer.current] in *. subst lb e c.
  destruct fuel' as [|fuel']; [lia|].
  unfold Lexer.next. lx. cbn [Lexer.remove_blanks]. lx_run.
  unfold Lexer.advance. lx. reflexivity.
Qed.

(** [exhausted_stays_exhausted] on the buffer [1] and a blank, after the
    pull that returned the integer. *)
Lemma exhausted_stays_exhausted_witness :
  Lexer.next 1
    (snd (Lexer.next 5
            (Nat.iter 1 (fun st => snd (Lexer.next 5 st))
               (state (Py.b "1 ") 1 49 false [] [] 200 PyNone))))
  = (Raise StopIteration,
     snd (Lexer.next 5
            (Nat.iter 1 (fun st => snd (Lexer.next 5 st))
               (state (Py.b "1 ") 1 49 false [] [] 200 PyNone)))).
Proof.
  apply (exhausted_stays_exhausted (Py.b "1 ") 200
           (state (Py.b "1 ") 1 49 false [] [] 200 PyNone) 1 5 1).
  - reflexivity.
  - vm_compute. reflexivity.
  - lia.
Defined.

(** ** The [stream] keyword and the byte after it *)

(** [__next__] on the [stream] keyword, up to the test for a carriage
    return. *)
Lemma next_stream_head (src tail : list Z) (q : Z)
  (mh : list (Lexeme * Z)) (cs : Z) (cl : Lexeme) (fuel : nat) :
  0 <= q -> skipn (Z.to_nat q) src = Py.b "stream" ++ tail ->
  Lexer.next (S fuel) (primed_at src q [] mh cs cl)
  = Lexer.bind
      (Lexer.bind (Lexer.gets Lexer.current) (fun c =>
         if c =? CARRIAGE_RETURN
         then Lexer.bind Lexer.advance (fun _ =>
                Lexer.bind (Lexer.gets Lexer.current) (fun c =>
                  if negb (c =? LINE_FEED)
                  then Lexer.raise_lexer_error CRNotFollowedByLF
                  else Lexer.ret tt))
         else Lexer.ret tt))
      (fun _ => Lexer.bind Lexer.source_tell (fun streamPos =>
                  deliver (ReadStream streamPos)))
      (primed_at src (q + 6) [] mh cs cl).
Proof.
  intros Hq Hsrc.
  assert (Hsrc' : skipn (Z.to_nat q) src
                  = 115 :: ([116; 114; 101; 97; 109] ++ tail)) by exact Hsrc.
  destruct (rest_cons _ _ _ _ Hq Hsrc') as (Hlt & _ & _).
  rewrite (primed_at_byte src [] mh cs q _ _ cl Hq Hsrc') at 1.
  unfold Lexer.next, deliver. lx. cbn [Lexer.remove_blanks]. lx_run.
  rewrite <- (primed_at_byte src [] mh cs q _ _ cl Hq Hsrc').
  rewrite parse_literal_prefix by lia. rewrite Hsrc.
  change (prefixb (Py.b "true") (Py.b "stream" ++ tail)) with false. lxm.
  rewrite parse_literal_prefix by lia. rewrite Hsrc.
  change (prefixb (Py.b "false") (Py.b "stream" ++ tail)) with false. lxm.
  rewrite parse_literal_prefix by lia. rewrite Hsrc.
  change (prefixb (Py.b "stream") (Py.b "stream" ++ tail)) with true. lxm.
  change (Py.len (Py.b "stream")) with 6.
  destruct (primed_at src (q + 6) [] mh cs cl) as [s L c lb mh' cs' e cl'].
  lxm. destruct (c =? CARRIAGE_RETURN); [|reflexivity].
  destruct (Lexer.advance _) as [[[]|ex|] st1]; try reflexivity.
  destruct st1 as [s1 L1 c1 lb1 mh1 cs1 e1 cl1]. lxm.
  destruct (c1 =? LINE_FEED); [reflexivity|].
  destruct (Lexer.raise_lexer_error _ _) as [[[]|ex|] st2]; reflexivity.
Qed.

(** X21. After the [stream] keyword, a byte that is no carriage return is
    taken for the end-of-line marker without being looked at: the pull
    yields the closure [read_stream] bound to the position just after that
    byte and leaves the lexer on it.  At the end of the input the closure is
    bound to the end of the buffer. *)
Theorem stream_marker_unchecked (src tail : list Z) (q : Z)
  (mh : list (Lexeme * Z)) (cs : Z) (cl : Lexeme) (fuel : nat) :
  0 <= q -> skipn (Z.to_nat q) src = Py.b "stream" ++ tail ->
  stops_before (fun t => t =? CARRIAGE_RETURN) tail = true ->
  (1 <= fuel)%nat ->
  let streamPos := Z.min (q + 7) (Py.len src) in
  Lexer.next fuel (primed_at src q [] mh cs cl)
  = (Ok (ReadStream streamPos),
     primed_at src (q + 6) [] mh cs (ReadStream streamPos)).
Proof.
  intros Hq Hsrc Htail Hfuel streamPos. destruct fuel as [|fuel]; [lia|].
  rewrite (next_stream_head src tail q mh cs cl fuel Hq Hsrc).
  assert (Hq6 : 0 <= q + 6) by lia.
  pose proof (skipn_after src (Py.b "stream") tail q Hq Hsrc) as Hsrc6.
  change (Py.len (Py.b "stream")) with 6 in Hsrc6.
  lxb. rewrite (primed_current src _ _ [] mh cs cl Hq6 Hsrc6).
  assert (Hc : (match tail with c :: _ => c | [] => 32 end =? CARRIAGE_RETURN)
               = false).
  { destruct tail as [|t tail']; [reflexivity|].
    cbn [stops_before] in Htail. now apply negb_true_iff in Htail. }
  rewrite Hc. unfold Lexer.source_tell. lxb.
  rewrite set_currentLexeme_primed_at, primed_lexeme.
  assert (Htell : Seekable.tell (Lexer.source (primed_at src (q + 6) [] mh cs cl))
                  = streamPos).
  { unfold streamPos. destruct tail as [|t tail'].
    - assert (Hend : Py.len src <= q + 6).
      { apply (f_equal (@List.length Z)) in Hsrc6.
        rewrite length_skipn in Hsrc6. cbn [List.length] in Hsrc6.
        unfold Py.len. lia. }
      rewrite primed_at_end by exact Hend.
      cbn [Lexer.source Seekable.tell Seekable.pos]. lia.
    - destruct (rest_cons _ _ _ _ Hq6 Hsrc6) as (Hlt & _ & _).
      rewrite (primed_at_byte src [] mh cs (q + 6) t tail' cl Hq6 Hsrc6).
      cbn [Lexer.source Seekable.tell Seekable.pos]. lia. }
  rewrite Htell. reflexivity.
Qed.

(** [stream_marker_unchecked] on [streamXdata]: the closure is bound to
    offset 7, just after the [X]. *)
Lemma stream_marker_unchecked_witness :
  Lexer.next 1 (primed_at (Py.b "streamXdata") 0 [] [] 200 PyNone)
  = (Ok (ReadStream (Z.min (0 + 7) (Py.len (Py.b "streamXdata")))),
     primed_at (Py.b "streamXdata") (0 + 6) [] [] 200
       (ReadStream (Z.min (0 + 7) (Py.len (Py.b "streamXdata"))))).
Proof.
  apply (stream_marker_unchecked (Py.b "streamXdata") (Py.b "Xdata") 0 [] 200
           PyNone 1); try reflexivity; lia.
Defined.

(** X22. After the [stream] keyword, a carriage return that is not
    followed by a line feed makes the pull raise [PDFLexicalError]; the
    error position is the cursor, just after the byte that should have been
    the line feed, and the lexer stays on that byte. *)
Theorem stream_bad_marker (src tail : list Z) (q : Z)
  (mh : list (Lexeme * Z)) (cs : Z) (cl : Lexeme) (fuel : nat) :
  0 <= q ->
  skipn (Z.to_nat q) src = Py.b "stream" ++ [CARRIAGE_RETURN] ++ tail ->
  stops_before (fun t => t =? LINE_FEED) tail = true ->
  (1 <= fuel)%nat ->
  let st' := primed_at src (q + 7) [] mh cs cl in
  is_lexical_error CRNotFollowedByLF (Seekable.tell (Lexer.source st'))
    (fst (Lexer.next fuel (primed_at src q [] mh cs cl)))
  /\ snd (Lexer.next fuel (primed_at src q [] mh cs cl)) = st'.
Proof.
  intros Hq Hsrc Htail Hfuel st'. destruct fuel as [|fuel]; [lia|].
  rewrite (next_stream_head src _ q mh cs cl fuel Hq Hsrc).
  assert (Hq6 : 0 <= q + 6) by lia.
  pose proof (skipn_after src (Py.b "stream") _ q Hq Hsrc) as Hsrc6.
  change (Py.len (Py.b "stream")) with 6 in Hsrc6. cbn [app] in Hsrc6.
  lxb. rewrite (primed_current src _ _ [] mh cs cl Hq6 Hsrc6).
  change (CARRIAGE_RETURN =? CARRIAGE_RETURN) with true. lxb.
  destruct (rest_cons _ _ _ _ Hq6 Hsrc6) as (Hlt & _ & Hsrc7).
  rewrite advance_primed by lia.
  replace (q + 6 + 1) with (q + 7) in * by lia.
  assert (Hq7 : 0 <= q + 7) by lia.
  rewrite (primed_current src _ _ [] mh cs cl Hq7 Hsrc7).
  assert (Hc : (match tail with c :: _ => c | [] => 32 end =? LINE_FEED)
               = false).
  { destruct tail as [|t tail']; [reflexivity|].
    cbn [stops_before] in Htail. now apply negb_true_iff in Htail. }
  rewrite Hc. cbn [negb]. lxb.
  destruct (raise_lexer_error_primed CRNotFollowedByLF src (q + 7) [] mh cs cl
              Hq7) as [(context & rel & E1) E2].
  fold st' in E1, E2 |- *.
  destruct (Lexer.raise_lexer_error CRNotFollowedByLF st') as [r s].
  cbn [fst snd] in E1, E2. subst r s.
  split; [exists context, rel|]; reflexivity.
Qed.

(** [stream_bad_marker] on [stream], a carriage return and [X]. *)
Lemma stream_bad_marker_witness :
  is_lexical_error CRNotFollowedByLF
    (Seekable.tell
       (Lexer.source
          (primed_at (Py.b "stream" ++ [CARRIAGE_RETURN] ++ Py.b "X") (0 + 7)
             [] [] 200 PyNone)))
    (fst (Lexer.next 1
            (primed_at (Py.b "stream" ++ [CARRIAGE_RETURN] ++ Py.b "X") 0
               [] [] 200 PyNone)))
  /\ snd (Lexer.next 1
            (primed_at (Py.b "stream" ++ [CARRIAGE_RETURN] ++ Py.b "X") 0
               [] [] 200 PyNone))
     = primed_at (Py.b "stream" ++ [CARRIAGE_RETURN] ++ Py.b "X") (0 + 7)
         [] [] 200 PyNone.
Proof.
  apply (stream_bad_marker (Py.b "stream" ++ [CARRIAGE_RETURN] ++ Py.b "X")
           (Py.b "X") 0 [] 200 PyNone 1); try reflexivity; lia.
Defined.

(** ** Decoding the bytes of a string literal *)

Lemma cp1252_char_mapped (x : Z) :
  is_byte x = true -> Py.mem x cp1252_unmapped = false ->
  exists c, Codecs.cp1252_char x = Some c.
Proof.
  intros Hb Hm. unfold Codecs.cp1252_char, Codecs.in_range.
  destruct ((0 <=? x) && (x <=? 127) || (160 <=? x) && (x <=? 255)) eqn:E1;
    [eauto|].
  unfold is_byte in Hb.
  replace ((128 <=? x) && (x <=? 159)) with true by lia.
  assert (Hk : exists k : nat, x = 128 + Z.of_nat k /\ (k < 32)%nat)
    by (exists (Z.to_nat (x - 128)); lia).
  destruct Hk as (k & -> & Hk).
  replace (128 + Z.of_nat k - 128) with (Z.of_nat k) by lia.
  rewrite Nat2Z.id.
  do 32 (destruct k as [|k];
         [first [discriminate Hm | cbn; eauto]|]).
  lia.
Qed.

Lemma cp1252_decode_mapped (buffer : list Z) :
  forallb is_byte buffer = true ->
  forallb (fun x => negb (Py.mem x cp1252_unmapped)) buffer = true ->
  exists s, Codecs.cp1252_decode buffer = Some s.
Proof.
  induction buffer as [|x r IH]; intros Hb Hm; [exists []; reflexivity|].
  cbn [forallb] in Hb, Hm.
  apply andb_true_iff in Hb as [Hx Hb]. apply andb_true_iff in Hm as [Hmx Hm].
  apply negb_true_iff in Hmx.
  destruct (cp1252_char_mapped x Hx Hmx) as [c Hc].
  destruct (IH Hb Hm) as [s Hs].
  exists (c :: s). cbn [Codecs.cp1252_decode]. now rewrite Hc, Hs.
Qed.

Lemma utf8_decode_ascii (buffer : list Z) :
  forallb is_byte buffer = true ->
  forallb (fun x => x <? 128) buffer = true ->
  Codecs.utf8_decode buffer = Some buffer.
Proof.
  induction buffer as [|x r IH]; intros Hb Ha; [reflexivity|].
  cbn [forallb] in Hb, Ha.
  apply andb_true_iff in Hb as [Hx Hb]. apply andb_true_iff in Ha as [Hax Ha].
  cbn [Codecs.utf8_decode]. unfold Codecs.in_range at 1.
  unfold is_byte in Hx.
  replace ((0 <=? x) && (x <=? 127)) with true by lia.
  now rewrite (IH Hb Ha).
Qed.

(** X23. Decoding the bytes of a string literal never fails on a buffer
    that holds none of the five bytes the cp1252 codec leaves unmapped
    (0x81, 0x8D, 0x8F, 0x90, 0x9D), and a buffer of ASCII bytes decodes to
    itself. *)
Theorem decode_string_outcome (buffer : list Z) (st : Lexer.t) :
  forallb is_byte buffer = true ->
  (forallb (fun x => negb (Py.mem x cp1252_unmapped)) buffer = true ->
   exists s, Lexer.decode_string buffer st = (Ok (PyStr s), st))
  /\ (forallb (fun x => x <? 128) buffer = true ->
      Lexer.decode_string buffer st = (Ok (PyStr buffer), st)).
Proof.
  intros Hb. unfold Lexer.decode_string. split.
  - intros Hm. destruct (Codecs.utf8_decode buffer) as [s|];
      [exists s; reflexivity|].
    destruct (cp1252_decode_mapped buffer Hb Hm) as [s ->].
    exists s. reflexivity.
  - intros Ha. now rewrite (utf8_decode_ascii buffer Hb Ha).
Qed.

(** [decode_string_outcome] on the bytes [a], 0xE9, [b]: not UTF-8, but
    mapped by cp1252. *)
Lemma decode_string_outcome_witness :
  (forallb (fun x => negb (Py.mem x cp1252_unmapped)) [97; 233; 98] = true ->
   exists s,
     Lexer.decode_string [97; 233; 98]
       (state (Py.b "x") 1 120 false [] [] 200 PyNone)
     = (Ok (PyStr s), state (Py.b "x") 1 120 false [] [] 200 PyNone))
  /\ (forallb (fun x => x <? 128) [97; 233; 98] = true ->
      Lexer.decode_string [97; 233; 98]
        (state (Py.b "x") 1 120 false [] [] 200 PyNone)
      = (Ok (PyStr [97; 233; 98]),
         state (Py.b "x") 1 120 false [] [] 200 PyNone)).
Proof.
  apply (decode_string_outcome [97; 233; 98]
           (state (Py.b "x") 1 120 false [] [] 200 PyNone)).
  reflexivity.
Defined.

(** ** Hexadecimal digits *)

(** X24. [hex_to_number] accepts exactly the bytes that [is_hex_digit]
    accepts; the value it gives lies between 0 and 15, and an upper-case
    letter has the value of its lower-case form. *)
Theorem hex_digit_value (x : Z) :
  (is_hex_digit x = true <->
   exists v, hex_to_number x = Some v /\ 0 <= v < 16)
  /\ (is_hex_digit x = false <-> hex_to_number x = None)
  /\ (65 <= x < 71 -> hex_to_number (x + 32) = hex_to_number x).
Proof.
  split; [|split].
  - split.
    + intros H. exists (hex_value x). now apply hex_to_number_digit.
    + intros (v & Hv & _). destruct (is_hex_digit x) eqn:E; [reflexivity|].
      rewrite (hex_to_number_other x E) in Hv. discriminate.
  - split; [apply hex_to_number_other|].
    intros H. destruct (is_hex_digit x) eqn:E; [|reflexivity].
    rewrite (proj1 (hex_to_number_digit x E)) in H. discriminate.
  - intros H. unfold hex_to_number.
    replace ((48 <=? x + 32) && (x + 32 <? 58)) with false by lia.
    replace ((65 <=? x + 32) && (x + 32 <? 71)) with false by lia.
    replace ((97 <=? x + 32) && (x + 32 <? 103)) with true by lia.
    replace ((48 <=? x) && (x <? 58)) with false by lia.
    replace ((65 <=? x) && (x <? 71)) with true by lia.
    f_equal. lia.
Qed.

(** ** Moving and reading chunks *)

Lemma seek_abs_clamped (src : list Z) (pos p : Z) :
  Seekable.seek pos 0 (Seekable.mk src p (Py.len src))
  = Seekable.mk src (Z.max 0 (Z.min pos (Py.len src))) (Py.len src).
Proof.
  assert (Hlen : 0 <= Py.len src) by (unfold Py.len; lia).
  unfold Seekable.seek, Seekable.set_pos.
  cbn [Seekable.pos Seekable.len Seekable.source Z.eqb].
  destruct (Z.ltb_spec pos 0).
  - destruct (Z.gtb_spec 0 (Py.len src)); [lia|]. f_equal. lia.
  - destruct (Z.gtb_spec pos (Py.len src)); f_equal; lia.
Qed.

(** X25. On a lexer that has not reached the end, [move_at_position(pos)]
    records the current lexeme and the cursor on the history and then
    pulls exactly as a lexer positioned on the byte at [pos] would, a
    negative position counting as 0 and a position past the end of the
    buffer as its end.  A position at or past the end is therefore not
    refused as such: with nothing pushed back the call raises
    [StopIteration], the history entry having been recorded, the cursor
    being at the end of the buffer and the end flag set. *)
Theorem move_at_position_pulls (src : list Z) (pos p c : Z)
  (lb : list Lexeme) (mh : list (Lexeme * Z)) (cs : Z) (cl : Lexeme)
  (fuel : nat) :
  Lexer.move_at_position fuel pos (state src p c false lb mh cs cl)
  = Lexer.next fuel
      (primed_at src (Z.max 0 (Z.min pos (Py.len src))) lb ((cl, p) :: mh)
                 cs cl)
  /\ (Py.len src <= pos -> lb = [] -> (1 <= fuel)%nat ->
      Lexer.move_at_position fuel pos (state src p c false lb mh cs cl)
      = (Raise StopIteration,
         state src (Py.len src) 32 true [] ((cl, p) :: mh) cs cl)).
Proof.
  assert (Hlen : 0 <= Py.len src) by (unfold Py.len; lia).
  assert (Heq :
    Lexer.move_at_position fuel pos (state src p c false lb mh cs cl)
    = Lexer.next fuel
        (primed_at src (Z.max 0 (Z.min pos (Py.len src))) lb ((cl, p) :: mh)
                   cs cl)).
  { unfold Lexer.move_at_position, Lexer.current_lexeme. lxm.
    unfold Seekable.tell. cbn [Seekable.pos].
    rewrite seek_abs_clamped.
    rewrite (advance_state src lb ((cl, p) :: mh) cs _ c cl) by lia.
    reflexivity. }
  split; [exact Heq|].
  intros Hpos -> Hfuel. rewrite Heq.
  replace (Z.max 0 (Z.min pos (Py.len src))) with (Py.len src) by lia.
  rewrite primed_at_end by lia.
  destruct fuel as [|fuel]; [lia|].
  unfold Lexer.next. lx. cbn [Lexer.remove_blanks]. lx_run.
  rewrite advance_ended by reflexivity. reflexivity.
Qed.

(** [move_at_position_pulls] on the buffer [12 34]: a move past the end
    raises [StopIteration]. *)
Lemma move_at_position_pulls_witness :
  Lexer.move_at_position 5 9
    (state (Py.b "12 34") 3 32 false [] [] 200 (PyInt 12))
  = (Raise StopIteration,
     state (Py.b "12 34") (Py.len (Py.b "12 34")) 32 true []
           [(PyInt 12, 3)] 200 (PyInt 12)).
Proof.
  apply (proj2 (move_at_position_pulls (Py.b "12 34") 9 3 32 [] [] 200
                  (PyInt 12) 5)).
  - cbn. lia.
  - reflexivity.
  - lia.
Defined.

(** X26. [__read_chunk(size)], for a positive size on a lexer that has
    not reached the end, is all or nothing: when [size] bytes are left
    from the cursor on it returns exactly these and moves the cursor past
    them, and otherwise it returns [None] and moves nothing.  The lookahead
    byte is not refreshed. *)
Theorem read_chunk_all_or_nothing (src : list Z) (p size c : Z)
  (lb : list Lexeme) (mh : list (Lexeme * Z)) (cs : Z) (cl : Lexeme) :
  0 <= p <= Py.len src -> 1 <= size ->
  let chunk := firstn (Z.to_nat size) (skipn (Z.to_nat p) src) in
  Lexer.read_chunk size (state src p c false lb mh cs cl)
  = (if p + size <=? Py.len src
     then (Ok (Some chunk), state src (p + size) c false lb mh cs cl)
     else (Ok None, state src p c false lb mh cs cl))
  /\ (p + size <= Py.len src -> Py.len chunk = size).
Proof.
  intros Hp Hsize chunk.
  assert (Hchunk : p + size <= Py.len src -> Py.len chunk = size).
  { intros H. unfold chunk, Py.len in *.
    rewrite length_firstn, length_skipn. lia. }
  split; [|exact Hchunk].
  unfold Lexer.read_chunk. lx.
  destruct (Z.leb_spec (p + size) (Py.len src)) as [Hle|Hgt]; [|reflexivity].
  assert (Hwf : Seekable.wf (Seekable.mk src p (Py.len src)))
    by (split; [reflexivity | exact Hp]).
  destruct (read_spec size _ Hwf) as (val & -> & Hval & _).
  cbn [Seekable.source Seekable.pos Seekable.len] in Hval.
  destruct (Z.leb_spec size 0); [lia|].
  rewrite slice_from in Hval by lia. fold chunk in Hval. subst val.
  lx. rewrite (Hchunk Hle). reflexivity.
Qed.

(** [read_chunk_all_or_nothing] on the sample stream, from offset 7. *)
Lemma read_chunk_all_or_nothing_witness :
  Lexer.read_chunk 5 (state stream_sample 7 10 false [] [] 200 PyNone)
  = (if 7 + 5 <=? Py.len stream_sample
     then (Ok (Some (firstn (Z.to_nat 5) (skipn (Z.to_nat 7) stream_sample))),
           state stream_sample (7 + 5) 10 false [] [] 200 PyNone)
     else (Ok None, state stream_sample 7 10 false [] [] 200 PyNone))
  /\ (7 + 5 <= Py.len stream_sample ->
      Py.len (firstn (Z.to_nat 5) (skipn (Z.to_nat 7) stream_sample)) = 5).
Proof.
  apply (read_chunk_all_or_nothing stream_sample 7 5 10 [] [] 200 PyNone).
  - vm_compute. split; discriminate.
  - lia.
Defined.

(** ** The reverse search on the first line *)

(** X27. A line equal to the keyword is not found when it is the first
    line of the buffer, no delimiter coming before it: if no later line
    equals the keyword either, [seekable_rfind] returns -1. *)
Theorem rfind_misses_first_line (src keyword : list Z)
  (segs : list (Z * list Z)) (p c : Z) (e : bool) lb mh cs cl (fuel : nat) :
  src = keyword ++ flatten_lines segs ->
  keyword <> [] -> eol_free keyword = true ->
  forallb (other_line keyword) segs = true ->
  (List.length segs + List.length src + 3 <= fuel)%nat ->
  Lexer.seekable_rfind fuel keyword (state src p c e lb mh cs cl)
  = (Ok (-1), state src 1 c e lb mh cs cl).
Proof.
  intros Hsrc Hk Hkf Hsegs Hfuel.
  unfold Lexer.seekable_rfind. lxm.
  rewrite (rfind_loop_not_found src lb mh cs keyword keyword segs fuel p c e cl)
    by assumption.
  reflexivity.
Qed.

(** [rfind_misses_first_line] on a buffer whose first line is
    [startxref]. *)
Lemma rfind_misses_first_line_witness :
  Lexer.seekable_rfind 40 (Py.b "startxref")
    (state (Py.b "startxref" ++ flatten_lines [(LINE_FEED, Py.b "1234")])
           1 115 false [] [] 200 PyNone)
  = (Ok (-1),
     state (Py.b "startxref" ++ flatten_lines [(LINE_FEED, Py.b "1234")])
           1 115 false [] [] 200 PyNone).
Proof.
  apply (rfind_misses_first_line
           (Py.b "startxref" ++ flatten_lines [(LINE_FEED, Py.b "1234")])
           (Py.b "startxref") [(LINE_FEED, Py.b "1234")] 1 115 false [] [] 200
           PyNone 40); try reflexivity.
  - discriminate.
  - cbn. lia.
Defined.

(** ** The reverse search on a buffer that starts with a delimiter *)

(** A larger budget does not change a result that a smaller one gave. *)
Lemma rfind_line_mono (fuel : nat) :
  forall (fuel' : nat) (buff : list Z) (count : Z) (c : option (list Z))
         (st : Lexer.t),
  (fuel <= fuel')%nat ->
  fst (Lexer.rfind_line fuel buff count c st) <> Diverge ->
  Lexer.rfind_line fuel' buff count c st
  = Lexer.rfind_line fuel buff count c st.
Proof.
  induction fuel as [|fuel IH]; intros fuel' buff count c st Hle;
    [intros H; now contradiction H|].
  destruct fuel' as [|fuel']; [lia|].
  destruct st as [s L c0 lb mh cs e cl].
  cbn [Lexer.rfind_line]. lxm.
  destruct (count <=? L); [|reflexivity].
  destruct (Seekable.read 1 _) as [[v|ex|] s']; lxm; try reflexivity.
  destruct (Py.getitem v 0) as [x|]; lxm; [|reflexivity].
  destruct (Py.mem x _); [reflexivity|].
  intros H. apply IH; [lia | exact H].
Qed.

Lemma bind_unfold {A B} (m : Lexer.M A) (f : A -> Lexer.M B) (st : Lexer.t) :
  Lexer.bind m f st
  = match m st with
    | (Ok a, st') => f a st'
    | (Raise e, st') => (Raise e, st')
    | (Diverge, st') => (Diverge, st')
    end.
Proof. reflexivity. Qed.

Lemma rfind_loop_mono (fuel : nat) :
  forall (fuel' : nat) (revKeyword buff : list Z) (count : Z)
         (c : option (list Z)) (st : Lexer.t),
  (fuel <= fuel')%nat ->
  fst (Lexer.rfind_loop fuel revKeyword buff count c st) <> Diverge ->
  Lexer.rfind_loop fuel' revKeyword buff count c st
  = Lexer.rfind_loop fuel revKeyword buff count c st.
Proof.
  induction fuel as [|fuel IH]; intros fuel' revKeyword buff count c st Hle;
    [intros H; now contradiction H|].
  destruct fuel' as [|fuel']; [lia|].
  cbn [Lexer.rfind_loop].
  destruct (negb _); [|reflexivity].
  rewrite !bind_unfold.
  pose proof (rfind_line_mono (S fuel) (S fuel') [] count c st Hle) as Hline.
  destruct (Lexer.rfind_line (S fuel) [] count c st) as [[r|ex|] st1] eqn:E;
    cbn [fst] in Hline.
  - rewrite Hline by discriminate.
    destruct r as [[buff' count'] c']. destruct st1 as [s L c0 lb mh cs e cl].
    lxm.
    destruct (count' >? L); lxm.
    + destruct c' as [v|]; lxm; [|reflexivity].
      destruct (Py.getitem v 0) as [x|]; lxm; [|reflexivity].
      destruct (Py.mem x _); [|reflexivity].
      intros H. apply IH; [lia | exact H].
    + intros H. apply IH; [lia | exact H].
  - rewrite Hline by discriminate. reflexivity.
  - intros H. now contradiction H.
Qed.

(** X28. On a buffer that starts with a line delimiter and in which no
    line equals the keyword, [seekable_rfind] never returns: once the
    whole buffer has been read backwards, the outer loop neither reads nor
    leaves.  In the model the search uses up every loop budget. *)
Theorem rfind_never_returns (keyword : list Z) (segs : list (Z * list Z))
  (p c : Z) (e : bool) lb mh cs cl (fuel : nat) :
  segs <> [] -> keyword <> [] ->
  forallb (other_line keyword) segs = true ->
  fst (Lexer.seekable_rfind fuel keyword
         (state (flatten_lines segs) p c e lb mh cs cl))
  = Diverge.
Proof.
  intros Hsegs Hk Hother.
  set (src := flatten_lines segs).
  assert (Hne : @nil Z <> rev keyword).
  { intros H. apply Hk. rewrite <- (rev_involutive keyword), <- H.
    reflexivity. }
  assert (Hrk : rev keyword <> []) by congruence.
  assert (Hbig : fst (Lexer.rfind_loop
                        (List.length (rev segs) + (fuel + List.length src + 1))
                        (rev keyword) [] 1 None
                        (state src p c e lb mh cs cl)) = Diverge).
  { destruct (rfind_loop_consume src lb mh cs keyword (rev segs)
                (fuel + List.length src + 1) [] [] [] None p c e cl)
      as (buff' & lastc' & p' & Hb' & Heq & Hcase).
    - rewrite rev_involutive, app_nil_r. reflexivity.
    - exact Hne.
    - rewrite forallb_forall in *. intros x Hx. apply Hother.
      now apply in_rev.
    - lia.
    - change (Py.len (@nil Z) + 1) with 1 in Heq. rewrite Heq.
      destruct Hcase as [(Hnil & _) | (d & Hd & -> & _)].
      + exfalso. apply Hsegs. rewrite <- (rev_involutive segs), Hnil.
        reflexivity.
      + apply rfind_loop_stuck; auto.
        rewrite rev_involutive, app_nil_r. fold src. lia. }
  unfold Lexer.seekable_rfind. rewrite bind_unfold.
  destruct (Lexer.rfind_loop fuel (rev keyword) [] 1 None
              (state src p c e lb mh cs cl)) as [[r|ex|] st1] eqn:E;
    [exfalso..|reflexivity].
  - rewrite (rfind_loop_mono fuel _ (rev keyword) [] 1 None
               (state src p c e lb mh cs cl)) in Hbig;
      [rewrite E in Hbig; discriminate | lia | rewrite E; discriminate].
  - rewrite (rfind_loop_mono fuel _ (rev keyword) [] 1 None
               (state src p c e lb mh cs cl)) in Hbig;
      [rewrite E in Hbig; discriminate | lia | rewrite E; discriminate].
Qed.

(** [rfind_never_returns] on a line feed followed by [abc]. *)
Lemma rfind_never_returns_witness :
  fst (Lexer.seekable_rfind 50 (Py.b "startxref")
         (state (flatten_lines [(LINE_FEED, Py.b "abc")]) 1 10 false [] []
                200 PyNone))
  = Diverge.
Proof.
  apply (rfind_never_returns (Py.b "startxref") [(LINE_FEED, Py.b "abc")]
           1 10 false [] [] 200 PyNone 50); try reflexivity; discriminate.
Defined.

(** * The reverse search, from the anchor to the next token *)

Lemma skipn_past_delimiter (pre rest : list Z) (d0 : Z) :
  skipn (Z.to_nat (Py.len pre + 1)) (pre ++ d0 :: rest) = rest
  /\ 0 <= Py.len pre + 1 <= Py.len (pre ++ d0 :: rest).
Proof.
  unfold Py.len. rewrite length_app. cbn [List.length]. split; [|lia].
  replace (Z.to_nat (Z.of_nat (List.length pre) + 1))
    with (List.length (pre ++ [d0]) + 0)%nat
    by (rewrite length_app; cbn [List.length]; lia).
  replace (pre ++ d0 :: rest) with ((pre ++ [d0]) ++ rest)
    by (now rewrite <- app_assoc).
  now rewrite skipn_app, skipn_all2, Nat.add_0_r, Nat.sub_diag by lia.
Qed.

(** Once the line is found, the search pulls from its first byte and
    returns the offset of that byte if the pull returns. *)
Lemma rfind_found_pull (src pre keyword : list Z) (d0 : Z)
  (segs : list (Z * list Z)) (p c : Z) lb mh cs cl (fuel : nat) :
  src = pre ++ d0 :: keyword ++ flatten_lines segs ->
  is_eol d0 = true -> keyword <> [] -> eol_free keyword = true ->
  forallb (other_line keyword) segs = true ->
  (List.length segs + List.length src + 3 <= fuel)%nat ->
  Lexer.seekable_rfind fuel keyword (state src p c false lb mh cs cl)
  = match Lexer.next fuel (primed_at src (Py.len pre + 1) lb mh cs cl) with
    | (Ok _, st') => (Ok (Py.len pre + 1), st')
    | (Raise ex, st') => (Raise ex, st')
    | (Diverge, st') => (Diverge, st')
    end.
Proof.
  intros Hsrc Hd Hk Hkf Hsegs Hfuel.
  unfold Lexer.seekable_rfind. lxm.
  rewrite (rfind_loop_found src lb mh cs keyword pre d0 segs fuel p c false cl)
    by assumption.
  lxm. unfold Seekable.tell. cbn [Seekable.pos].
  destruct (skipn_past_delimiter pre (keyword ++ flatten_lines segs) d0)
    as [_ Hpos]. rewrite <- Hsrc in Hpos.
  rewrite (advance_state src lb mh cs (Py.len pre + 1) c cl Hpos).
  destruct (Lexer.next fuel _) as [[l|ex|] st']; reflexivity.
Qed.

(** C3 (as amended). Let the last line equal to the (non-empty,
    delimiter-free) keyword be opened by a delimiter at the end of [pre].
    On a lexer that has not reached the end, the search puts the cursor on
    the first byte of that line, re-primes the lookahead and pulls one
    token from there: if the pull returns, the search returns the offset of
    that first byte, [len pre + 1]; if the pull raises, the search raises
    the same exception.  The pull returns whenever the keyword is one of the
    lexer's words and nothing is pushed back: the search then returns
    [len pre + 1] and leaves the lexer just after the keyword, which is the
    current lexeme.  On a lexer that has reached the end the search raises
    [StopIteration], the cursor having been moved to that offset.  If no
    line equals the keyword and the buffer does not start with a delimiter,
    the search returns -1.  On every buffer in which the last [startxref]
    line, opened by a delimiter, is followed by a line [1234], the search
    returns the offset of the [startxref] line and the token pulled next is
    the integer 1234. *)
Theorem rfind_anchor :
  (forall (src pre keyword : list Z) (d0 : Z) (segs : list (Z * list Z))
          (p c : Z) lb mh cs cl (fuel : nat),
     src = pre ++ d0 :: keyword ++ flatten_lines segs ->
     is_eol d0 = true -> keyword <> [] -> eol_free keyword = true ->
     forallb (other_line keyword) segs = true ->
     (List.length segs + List.length src + 3 <= fuel)%nat ->
     Lexer.seekable_rfind fuel keyword (state src p c false lb mh cs cl)
     = match Lexer.next fuel (primed_at src (Py.len pre + 1) lb mh cs cl) with
       | (Ok _, st') => (Ok (Py.len pre + 1), st')
       | (Raise ex, st') => (Raise ex, st')
       | (Diverge, st') => (Diverge, st')
       end)
  /\ (forall (src pre keyword : list Z) (d0 : Z) (segs : list (Z * list Z))
             (p c : Z) mh cs cl (fuel : nat),
        src = pre ++ d0 :: keyword ++ flatten_lines segs ->
        is_eol d0 = true -> In keyword words ->
        forallb (other_line keyword) segs = true ->
        (List.length segs + List.length src + 3 <= fuel)%nat ->
        Lexer.seekable_rfind fuel keyword (state src p c false [] mh cs cl)
        = (Ok (Py.len pre + 1),
           primed_at src (Py.len pre + 1 + Py.len keyword) [] mh cs
                     (word_lexeme keyword)))
  /\ (forall (src pre keyword : list Z) (d0 : Z) (segs : list (Z * list Z))
             (p c : Z) lb mh cs cl (fuel : nat),
        src = pre ++ d0 :: keyword ++ flatten_lines segs ->
        is_eol d0 = true -> keyword <> [] -> eol_free keyword = true ->
        forallb (other_line keyword) segs = true ->
        (List.length segs + List.length src + 3 <= fuel)%nat ->
        Lexer.seekable_rfind fuel keyword (state src p c true lb mh cs cl)
        = (Raise StopIteration,
           state src (Py.len pre + 1) c true lb mh cs cl))
  /\ (forall (src l0 keyword : list Z) (segs : list (Z * list Z))
             (p c : Z) (e : bool) lb mh cs cl (fuel : nat),
        src = l0 ++ flatten_lines segs ->
        l0 <> [] -> eol_free l0 = true -> l0 <> keyword -> keyword <> [] ->
        forallb (other_line keyword) segs = true ->
        (List.length segs + List.length src + 3 <= fuel)%nat ->
        Lexer.seekable_rfind fuel keyword (state src p c e lb mh cs cl)
        = (Ok (-1), state src 1 c e lb mh cs cl))
  /\ (forall (src pre : list Z) (d0 d1 : Z) (segs : list (Z * list Z))
             (p c : Z) mh cs cl (fuel : nat),
        src = pre ++ d0 :: Py.b "startxref"
                  ++ flatten_lines ((d1, Py.b "1234") :: segs) ->
        is_eol d0 = true -> is_eol d1 = true ->
        forallb (other_line (Py.b "startxref")) segs = true ->
        (List.length segs + List.length src + 4 <= fuel)%nat ->
        Lexer.seekable_rfind fuel (Py.b "startxref")
          (state src p c false [] mh cs cl)
        = (Ok (Py.len pre + 1),
           primed_at src (Py.len pre + 10) [] mh cs
                     (PDFKeyword (Py.b "startxref")))
        /\ Lexer.next fuel
             (primed_at src (Py.len pre + 10) [] mh cs
                        (PDFKeyword (Py.b "startxref")))
           = (Ok (PyInt 1234),
              primed_at src (Py.len pre + 15) [] mh cs (PyInt 1234))).
Proof.
  assert (Hwords : forall w, In w words -> w <> [] /\ eol_free w = true).
  { intros w Hw. cbv [words KEYWORDS In app] in Hw.
    repeat (destruct Hw as [<- | Hw]; [split; [discriminate | reflexivity]|]).
    destruct Hw. }
  assert (Hfound : forall (src pre keyword : list Z) (d0 : Z)
            (segs : list (Z * list Z)) (p c : Z) mh cs cl (fuel : nat),
    src = pre ++ d0 :: keyword ++ flatten_lines segs ->
    is_eol d0 = true -> In keyword words ->
    forallb (other_line keyword) segs = true ->
    (List.length segs + List.length src + 3 <= fuel)%nat ->
    Lexer.seekable_rfind fuel keyword (state src p c false [] mh cs cl)
    = (Ok (Py.len pre + 1),
       primed_at src (Py.len pre + 1 + Py.len keyword) [] mh cs
                 (word_lexeme keyword))).
  { intros src pre keyword d0 segs p c mh cs cl fuel Hsrc Hd Hw Hsegs Hfuel.
    destruct (Hwords keyword Hw) as [Hk Hkf].
    rewrite (rfind_found_pull src pre keyword d0 segs p c [] mh cs cl fuel)
      by assumption.
    destruct (skipn_past_delimiter pre (keyword ++ flatten_lines segs) d0)
      as [Hskip Hpos]. rewrite <- Hsrc in Hskip, Hpos.
    rewrite (next_word src keyword (flatten_lines segs) (Py.len pre + 1)
               mh cs cl fuel Hw) by (auto; lia).
    reflexivity. }
  split; [|split; [|split; [|split]]].
  - intros src pre keyword d0 segs p c lb mh cs cl fuel
           Hsrc Hd Hk Hkf Hsegs Hfuel.
    now apply (rfind_found_pull src pre keyword d0 segs).
  - exact Hfound.
  - intros src pre keyword d0 segs p c lb mh cs cl fuel
           Hsrc Hd Hk Hkf Hsegs Hfuel.
    unfold Lexer.seekable_rfind. lxm.
    rewrite (rfind_loop_found src lb mh cs keyword pre d0 segs fuel p c true cl)
      by assumption.
    lxm. rewrite advance_ended by reflexivity. reflexivity.
  - intros src l0 keyword segs p c e lb mh cs cl fuel
           Hsrc Hl0 Hlf _ Hk Hsegs Hfuel.
    unfold Lexer.seekable_rfind. lxm.
    rewrite (rfind_loop_not_found src lb mh cs keyword l0 segs fuel p c e cl)
      by assumption.
    reflexivity.
  - intros src pre d0 d1 segs p c mh cs cl fuel Hsrc Hd0 Hd1 Hsegs Hfuel.
    assert (Hall : forallb (other_line (Py.b "startxref"))
                     ((d1, Py.b "1234") :: segs) = true).
    { cbn [forallb]. rewrite Hsegs, andb_true_r.
      unfold other_line. cbn [fst snd]. rewrite Hd1. reflexivity. }
    split.
    + rewrite (Hfound src pre (Py.b "startxref") d0 ((d1, Py.b "1234") :: segs)
                 p c mh cs cl fuel Hsrc Hd0);
        [ | cbv [words KEYWORDS In app]; tauto | exact Hall
          | cbn [List.length]; lia ].
      change (word_lexeme (Py.b "startxref"))
        with (PDFKeyword (Py.b "startxref")).
      change (Py.len (Py.b "startxref")) with 9.
      do 2 f_equal. lia.
    + destruct (skipn_past_delimiter pre
                  (Py.b "startxref"
                   ++ flatten_lines ((d1, Py.b "1234") :: segs)) d0)
        as [Hskip Hpos]. rewrite <- Hsrc in Hskip, Hpos.
      assert (Hq1 : 0 <= Py.len pre + 1) by lia.
      pose proof (skipn_after src (Py.b "startxref") _ (Py.len pre + 1)
                    Hq1 Hskip) as Hline.
      change (Py.len (Py.b "startxref")) with 9 in Hline.
      replace (Py.len pre + 1 + 9) with (Py.len pre + 10) in Hline by lia.
      cbn [flatten_lines flat_map fst snd] in Hline.
      fold (flatten_lines segs) in Hline.
      assert (Hq10 : 0 <= Py.len pre + 10) by lia.
      assert (Hblank : Py.mem d1 BLANKS = true).
      { unfold is_eol, Py.mem, CARRIAGE_RETURN, LINE_FEED, BLANKS in *.
        cbn [existsb] in *. lia. }
      assert (Hnum : skipn (Z.to_nat (Py.len pre + 11)) src
                     = Py.b "1234" ++ flatten_lines segs).
      { destruct (rest_cons _ _ _ _ Hq10 Hline) as (_ & _ & H).
        replace (Py.len pre + 11) with (Py.len pre + 10 + 1) by lia.
        exact H. }
      assert (Hlen : Py.len src
                     = Py.len pre + 11 + Py.len (Py.b "1234" ++ flatten_lines segs)).
      { apply (f_equal (@List.length Z)) in Hnum.
        rewrite length_skipn, length_app in Hnum.
        unfold Py.len in *. rewrite length_app.
        change (List.length (Py.b "1234")) with 4%nat in *. lia. }
      rewrite (next_after_blanks src (Py.len pre + 10) 49
                 (Py.b "234" ++ flatten_lines segs) mh cs
                 (PDFKeyword (Py.b "startxref")) fuel Hq10);
        [ | rewrite Hline; cbn [after_blanks app]; rewrite Hblank; reflexivity
          | lia ].
      replace (Py.len src - Py.len (49 :: Py.b "234" ++ flatten_lines segs))
        with (Py.len pre + 11)
        by (rewrite Hlen;
            change (49 :: Py.b "234" ++ flatten_lines segs)
              with (Py.b "1234" ++ flatten_lines segs); lia).
      assert (Htail : stops_before (fun t => is_digit t || (t =? POINT))
                        (flatten_lines segs) = true).
      { destruct segs as [|[d2 l2] segs']; [reflexivity|].
        cbn [forallb] in Hsegs. apply andb_true_iff in Hsegs as [H2 _].
        unfold other_line in H2. cbn [fst snd] in H2.
        apply andb_true_iff in H2 as [H2 _].
        apply andb_true_iff in H2 as [H2 _].
        cbn [flatten_lines flat_map fst stops_before app].
        unfold is_eol, Py.mem, CARRIAGE_RETURN, LINE_FEED, is_digit,
          POINT in *.
        cbn [existsb] in H2. lia. }
      rewrite (next_integer src [] (Py.b "1234") (flatten_lines segs)
                 (Py.len pre + 11) mh cs (PDFKeyword (Py.b "startxref")) fuel);
        [ | lia | exact Hnum | reflexivity | reflexivity | discriminate
          | exact Htail
          | change (List.length (Py.b "1234")) with 4%nat;
            unfold Py.len in Hpos; lia ].
      change (signed_value [] (Py.b "1234")) with 1234.
      change (Py.len (Py.b "1234")) with 4.
      change (Py.len (@nil Z)) with 0.
      do 2 f_equal. lia.
Qed.

(** The last part of [rfind_anchor] on the sample trailer: the search
    returns 1, the offset of the [startxref] line, and the token pulled
    next is the integer 1234. *)
Lemma rfind_anchor_witness :
  Lexer.seekable_rfind 40 (Py.b "startxref")
    (state trailer_sample 1 10 false [] [] 200 PyNone)
  = (Ok (Py.len (@nil Z) + 1),
     primed_at trailer_sample (Py.len (@nil Z) + 10) [] [] 200
               (PDFKeyword (Py.b "startxref")))
  /\ Lexer.next 40
       (primed_at trailer_sample (Py.len (@nil Z) + 10) [] [] 200
                  (PDFKeyword (Py.b "startxref")))
     = (Ok (PyInt 1234),
        primed_at trailer_sample (Py.len (@nil Z) + 15) [] [] 200
                  (PyInt 1234)).
Proof.
  apply (proj2 (proj2 (proj2 (proj2 rfind_anchor))) trailer_sample []
           LINE_FEED LINE_FEED [(LINE_FEED, Py.b "%%EOF")]
           1 10 [] 200 PyNone 40%nat).
  - reflexivity.
  - reflexivity.
  - reflexivity.
  - reflexivity.
  - cbn. lia.
Defined.

(** Two searches that find their line and raise all the same: on the
    sample trailer the keyword [%%EOF] reads as a comment that runs to the
    end of the buffer, and in a buffer made of a line feed and [abc] the
    keyword [abc] starts no token. *)
Lemma rfind_pull_raises :
  fst (Lexer.seekable_rfind 40 (Py.b "%%EOF")
         (state trailer_sample 1 10 false [] [] 200 PyNone))
  = Raise StopIteration
  /\ is_lexical_error InvalidCharacters 2
       (fst (Lexer.seekable_rfind 40 (Py.b "abc")
               (state ([LINE_FEED] ++ Py.b "abc") 1 10 false [] [] 200
                      PyNone))).
Proof.
  split; [vm_compute; reflexivity|].
  eexists. eexists. vm_compute. reflexivity.
Qed.
